(** * Hash-chaining camera: the chain builder and the chain verifier

    A shallow embedding of the Node.js core of the repository
    ([generate_keys.js], [ingest.js], [verify.js]), of the tamper
    demonstration ([scripts/tamper_one.js]), of the unit-test script and of
    the frame processing of the capture server ([server.js]), and the
    properties of the hash chain they build and replay.

    - JavaScript values that travel through [chain.json] are the inductive
      type [JSValue]; property reads, strict equality and [JSON.stringify]
      are functions on it.
    - The file system is the record [World]; the programs are written in a
      small state-and-exception monad [M] over it. The server adds the
      sequence of the messages it has broadcast ([Server], monad [Srv]).
    - The Node.js library functions the programs call ([crypto], [path],
      [Buffer.from] on a non-string) are the operations of the class
      [NodeLib]; [Toy] gives an executable instance used for concrete runs.

    What the model leaves out: numbers are integers, written in full (an
    index stays far below the size at which JavaScript rounds it); a string
    is the list of its UTF-8 bytes; a frame path names a file other than
    [chain.json] and the key files; what the programs print is not part of
    the state; the time of a call is an argument, and so are the listing of
    the images directory and the positions that the tamper programs draw at
    random. The camera pipelines, the HTTP plumbing and the dashboard are
    not modelled.

    Three things are kept out of [World] and treated in sections of their
    own. In [World] a path holds a file or nothing; [verifyChain_in] and
    [ingestFrame_in] are the verifier and the builder over a set of
    directories as well, which changes a run in one way only (it may throw
    EISDIR). In [World], [chain.json] holds a text that does not parse or
    the text of an array (the only thing [saveChain] writes), kept as the
    array it parses to; [verifyChain_on] and [ingestFrame_on] are the two
    programs on the other values that [JSON.parse] may return, [null] and
    the values without a length. A program runs from its first to its last
    statement without another process in between; [overlapping_ingests]
    is a run of two builders that overlap. *)

From Stdlib Require Import ZArith NArith String Ascii List Lia Bool.
From Stdlib Require Import Strings.Byte.
From stdpp Require Import base option list strings gmap pretty.

Local Open Scope string_scope.
Local Open Scope list_scope.

(* ===================================================================== *)
(** ** Buffers and hexadecimal text *)
(* ===================================================================== *)

(** A Node [Buffer] is a list of bytes; a JavaScript string is a [string],
    read as its UTF-8 bytes. *)
Definition Buffer_from_string (s : string) : list byte := list_byte_of_string s.

Global Instance byte_eq_decision : EqDecision byte := Byte.byte_eq_dec.

Definition hex_digit (n : N) : ascii :=
  match n with
  | 0 => "0" | 1 => "1" | 2 => "2" | 3 => "3" | 4 => "4" | 5 => "5"
  | 6 => "6" | 7 => "7" | 8 => "8" | 9 => "9" | 10 => "a" | 11 => "b"
  | 12 => "c" | 13 => "d" | 14 => "e" | _ => "f"
  end%char%N.

(** Value of a hexadecimal digit; [Buffer.from(s, 'hex')] accepts both
    letter cases. *)
Definition hex_val (c : ascii) : option N :=
  let n := N_of_ascii c in
  if ((48 <=? n) && (n <=? 57))%N then Some (n - 48)%N
  else if ((97 <=? n) && (n <=? 102))%N then Some (n - 87)%N
  else if ((65 <=? n) && (n <=? 70))%N then Some (n - 55)%N
  else None.

(** [buf.toString('hex')]: two lower-case digits per byte. *)
Fixpoint hex_encode (b : list byte) : string :=
  match b with
  | [] => EmptyString
  | x :: r =>
      let n := Byte.to_N x in
      String (hex_digit (n / 16)) (String (hex_digit (n mod 16)) (hex_encode r))
  end.

Definition byte_of_N (n : N) : byte :=
  match Byte.of_N n with Some b => b | None => x00 end.

(** [Buffer.from(s, 'hex')]: decodes pairs of digits and stops at the first
    pair that is not hexadecimal; a trailing single character is dropped. *)
Fixpoint hex_decode (s : string) : list byte :=
  match s with
  | String a (String b r) =>
      match hex_val a, hex_val b with
      | Some x, Some y => byte_of_N (16 * x + y) :: hex_decode r
      | _, _ => []
      end
  | _ => []
  end.

(** ['0'.repeat(64)] *)
Definition ZERO_HASH : string :=
  String.concat EmptyString (replicate 64 "0").

(** The tamper demonstration flips all bits of one byte:
    [data[k] = data[k] ^ 0xFF]. *)
Definition flip_bits (b : byte) : byte :=
  byte_of_N (N.lxor (Byte.to_N b) 255).

Definition flip_byte (k : nat) (data : list byte) : list byte :=
  match data !! k with
  | Some b => <[k := flip_bits b]> data
  | None => data
  end.

(* ===================================================================== *)
(** ** JavaScript values *)
(* ===================================================================== *)

(** Numbers are the integers ([chain.length], loop indices and the integers
    of a JSON text); an object is the list of its own properties in
    insertion order. *)
#[local] Set Warnings "-register-all".

Inductive JSValue : Type :=
  | JUndefined
  | JNull
  | JBool (b : bool)
  | JNum (z : Z)
  | JStr (s : string)
  | JArr (elems : list JSValue)
  | JObj (props : list (string * JSValue)).

Fixpoint assoc (k : string) (props : list (string * JSValue)) : option JSValue :=
  match props with
  | [] => None
  | (k', v) :: r => if String.eqb k k' then Some v else assoc k r
  end.

(** [o.k = v] on the property list of an object: the property is replaced
    where it stands, or added at the end. *)
Fixpoint set_prop (k : string) (v : JSValue) (props : list (string * JSValue))
  : list (string * JSValue) :=
  match props with
  | [] => [(k, v)]
  | (k', x) :: r => if String.eqb k k' then (k, v) :: r else (k', x) :: set_prop k v r
  end.

(** The value of a property of an object, [undefined] when it has none. *)
Definition prop (k : string) (props : list (string * JSValue)) : JSValue :=
  default JUndefined (assoc k props).

(** Thrown values. *)
Inductive exn : Type :=
  | Error (message : string)
  | TypeError
  | SyntaxError
  | SystemError (code : string).

(** [v.k] for the property names the programs use ([index], [hash], ...):
    a read on [undefined] or [null] throws a TypeError; a primitive, or an
    array, has no such property. *)
Definition js_get (v : JSValue) (k : string) : exn + JSValue :=
  match v with
  | JUndefined | JNull => inl TypeError
  | JObj props => inr (prop k props)
  | _ => inr JUndefined
  end.

(** [a === b]: by value on primitives; two arrays or objects read from
    different places of a parsed document are never the same reference. *)
Definition strict_eq (a b : JSValue) : bool :=
  match a, b with
  | JUndefined, JUndefined => true
  | JNull, JNull => true
  | JBool x, JBool y => Bool.eqb x y
  | JNum x, JNum y => Z.eqb x y
  | JStr x, JStr y => String.eqb x y
  | _, _ => false
  end.

(** *** JSON.stringify *)

Definition hex4 (n : N) : string :=
  String "0" (String "0" (String (hex_digit (n / 16)) (String (hex_digit (n mod 16)) EmptyString))).

Definition dquote : ascii := "034"%char.
Definition backslash : ascii := "092"%char.

(** Escaping of one character inside a JSON string literal
    (QuoteJSONString): the two-character escapes, [\u00xx] for the other
    control characters, the character itself otherwise. *)
Definition json_escape (c : ascii) : string :=
  let n := N_of_ascii c in
  if (n =? 34)%N then String backslash (String dquote EmptyString)
  else if (n =? 92)%N then String backslash (String backslash EmptyString)
  else if (n =? 8)%N then String backslash "b"
  else if (n =? 9)%N then String backslash "t"
  else if (n =? 10)%N then String backslash "n"
  else if (n =? 12)%N then String backslash "f"
  else if (n =? 13)%N then String backslash "r"
  else if (n <? 32)%N then String backslash (String "u" (hex4 n))
  else String c EmptyString.

Fixpoint json_escape_all (s : string) : string :=
  match s with
  | EmptyString => EmptyString
  | String c r => json_escape c +:+ json_escape_all r
  end.

Definition json_quote (s : string) : string :=
  String dquote (json_escape_all s +:+ String dquote EmptyString).

(** Reading one character of a string literal back, as [JSON.parse] does:
    the character and the rest of the text; [None] at the closing quote. *)
Definition json_unescape_head (s : string) : option (ascii * string) :=
  match s with
  | String c r =>
      if Ascii.eqb c backslash then
        match r with
        | String e r' =>
            if Ascii.eqb e dquote then Some (dquote, r')
            else if Ascii.eqb e backslash then Some (backslash, r')
            else if Ascii.eqb e "b" then Some ("008"%char, r')
            else if Ascii.eqb e "t" then Some ("009"%char, r')
            else if Ascii.eqb e "n" then Some ("010"%char, r')
            else if Ascii.eqb e "f" then Some ("012"%char, r')
            else if Ascii.eqb e "r" then Some ("013"%char, r')
            else if Ascii.eqb e "u" then
              match r' with
              | String _ (String _ (String x (String y r2))) =>
                  match hex_val x, hex_val y with
                  | Some hx, Some hy => Some (ascii_of_N (16 * hx + hy), r2)
                  | _, _ => None
                  end
              | _ => None
              end
            else None
        | EmptyString => None
        end
      else if Ascii.eqb c dquote then None
      else Some (c, r)
  | EmptyString => None
  end.

Definition json_members (ms : list string) : string := String.concat "," ms.

(** The text of a member list around one of its members: what stands
    before it and what stands after it. *)
Fixpoint members_before (pre : list string) : string :=
  match pre with
  | [] => EmptyString
  | m :: r => m +:+ "," +:+ members_before r
  end.

Definition members_after (post : list string) : string :=
  match post with
  | [] => EmptyString
  | _ :: _ => "," +:+ json_members post
  end.

(** [JSON.stringify(v)] without indentation: [None] is the result
    [undefined]. A property whose value is [undefined] is left out of an
    object; an [undefined] element of an array is written [null]. *)
Fixpoint JSON_stringify (v : JSValue) : option string :=
  match v with
  | JUndefined => None
  | JNull => Some "null"
  | JBool true => Some "true"
  | JBool false => Some "false"
  | JNum z => Some (pretty z)
  | JStr s => Some (json_quote s)
  | JArr elems =>
      Some ("[" +:+ json_members
        ((fix go (l : list JSValue) : list string :=
            match l with
            | [] => []
            | x :: r => default "null" (JSON_stringify x) :: go r
            end) elems) +:+ "]")
  | JObj props =>
      Some ("{" +:+ json_members
        ((fix go (l : list (string * JSValue)) : list string :=
            match l with
            | [] => []
            | (k, x) :: r =>
                match JSON_stringify x with
                | Some t => (json_quote k +:+ ":" +:+ t) :: go r
                | None => go r
                end
            end) props) +:+ "}")
  end.

(** [JSON.stringify] of an object literal, which is always a string. *)
Definition stringify_object (props : list (string * JSValue)) : string :=
  default EmptyString (JSON_stringify (JObj props)).

(** *** What a value becomes when it is written to a JSON file and read
    back: [JSON.parse(JSON.stringify(v, null, 2))]. *)
Fixpoint json_reload (v : JSValue) : JSValue :=
  match v with
  | JArr elems =>
      JArr ((fix go (l : list JSValue) : list JSValue :=
               match l with
               | [] => []
               | JUndefined :: r => JNull :: go r
               | x :: r => json_reload x :: go r
               end) elems)
  | JObj props =>
      JObj ((fix go (l : list (string * JSValue)) : list (string * JSValue) :=
               match l with
               | [] => []
               | (_, JUndefined) :: r => go r
               | (k, x) :: r => (k, json_reload x) :: go r
               end) props)
  | _ => v
  end.

Definition json_reload_elem (v : JSValue) : JSValue :=
  match v with
  | JUndefined => JNull
  | _ => json_reload v
  end.

(** Induction on values that reaches the elements of arrays and the
    property values of objects. *)
Section JSValue_induction.
Variable P : JSValue -> Prop.
Hypothesis Hundef : P JUndefined.
Hypothesis Hnull : P JNull.
Hypothesis Hbool : forall b, P (JBool b).
Hypothesis Hnum : forall z, P (JNum z).
Hypothesis Hstr : forall s, P (JStr s).
Hypothesis Harr : forall elems, Forall P elems -> P (JArr elems).
Hypothesis Hobj : forall props, Forall (fun kv => P (snd kv)) props -> P (JObj props).

Fixpoint JSValue_nested_ind (v : JSValue) : P v :=
  match v with
  | JUndefined => Hundef
  | JNull => Hnull
  | JBool b => Hbool b
  | JNum z => Hnum z
  | JStr s => Hstr s
  | JArr elems =>
      Harr elems
        ((fix go (l : list JSValue) : Forall P l :=
            match l with
            | [] => @List.Forall_nil _ P
            | x :: r => @List.Forall_cons _ P x r (JSValue_nested_ind x) (go r)
            end) elems)
  | JObj props =>
      Hobj props
        ((fix go (l : list (string * JSValue)) : Forall (fun kv => P (snd kv)) l :=
            match l with
            | [] => @List.Forall_nil _ (fun kv => P (snd kv))
            | kv :: r =>
                @List.Forall_cons _ (fun kv => P (snd kv)) kv r
                  (JSValue_nested_ind (snd kv)) (go r)
            end) props)
  end.

End JSValue_induction.

(* ===================================================================== *)
(** ** The Node.js library and the file system *)
(* ===================================================================== *)

(** The library functions the repository calls and does not define.
    - [sha256 d] is [crypto.createHash('sha256').update(d).digest()];
    - [generateKeyPairSync e] is the Ed25519 pair (public PEM, private PEM)
      drawn from the entropy [e];
    - [crypto_sign d k] is [crypto.sign(null, d, k)] and [crypto_verify d k s]
      is [crypto.verify(null, d, k, s)]; both throw on a key they cannot read;
    - [path_basename p] is [path.basename(p)] and [path_join_images f] is
      [path.join(__dirname, 'images', f)] for a string [f];
    - [Buffer_from_other v] is [Buffer.from(v, 'hex')] for a [v] that is not
      a string. *)
Class NodeLib : Type := {
  sha256 : list byte -> list byte;
  generateKeyPairSync : list byte -> string * string;
  crypto_sign : list byte -> string -> exn + list byte;
  crypto_verify : list byte -> string -> list byte -> exn + bool;
  path_basename : string -> string;
  path_join_images : string -> string;
  Buffer_from_other : JSValue -> exn + list byte
}.

(** What [chain.json] holds: a text on which [JSON.parse] throws, or the
    text of an array, kept as the array it parses to. *)
Inductive ChainText : Type :=
  | Unparseable
  | JsonArray (entries : list JSValue).

(** The files the programs touch, below [__dirname]: the [keys] directory
    and its two PEM files, [chain.json], and every other file by its path
    (the frames). *)
Record World : Type := mkWorld {
  keysDir : bool;
  privateKeyFile : option string;
  publicKeyFile : option string;
  chainFile : option ChainText;
  files : gmap string (list byte)
}.

Definition set_keysDir (b : bool) (w : World) : World :=
  mkWorld b (privateKeyFile w) (publicKeyFile w) (chainFile w) (files w).
Definition set_privateKeyFile (k : option string) (w : World) : World :=
  mkWorld (keysDir w) k (publicKeyFile w) (chainFile w) (files w).
Definition set_publicKeyFile (k : option string) (w : World) : World :=
  mkWorld (keysDir w) (privateKeyFile w) k (chainFile w) (files w).
Definition set_chainFile (c : option ChainText) (w : World) : World :=
  mkWorld (keysDir w) (privateKeyFile w) (publicKeyFile w) c (files w).
Definition set_files (f : gmap string (list byte)) (w : World) : World :=
  mkWorld (keysDir w) (privateKeyFile w) (publicKeyFile w) (chainFile w) f.

(** *** Programs: state over [World], with exceptions *)

Definition M (A : Type) : Type := World -> (exn + A) * World.

Definition ret {A : Type} (a : A) : M A := fun w => (inr a, w).

Definition bind {A B : Type} (m : M A) (f : A -> M B) : M B := fun w =>
  match m w with
  | (inl e, w') => (inl e, w')
  | (inr a, w') => f a w'
  end.

Notation "'let*' x ':=' m 'in' k" := (bind m (fun x => k))
  (at level 10, x name, m at level 100, k at level 200).
Notation "'run' m 'then' k" := (bind m (fun _ => k))
  (at level 10, m at level 100, k at level 200).

(** The same for a library call that returns or throws. *)
Definition bindE {A B : Type} (r : exn + A) (f : A -> exn + B) : exn + B :=
  match r with
  | inl e => inl e
  | inr a => f a
  end.

Notation "'let+' x ':=' r 'in' k" := (bindE r (fun x => k))
  (at level 10, x name, r at level 100, k at level 200).

Definition throw {A : Type} (e : exn) : M A := fun w => (inl e, w).
Definition lift {A : Type} (r : exn + A) : M A := fun w => (r, w).
Definition get {A : Type} (f : World -> A) : M A := fun w => (inr (f w), w).
Definition modify (f : World -> World) : M unit := fun w => (inr tt, f w).

(** [try { m } catch (err) { h err }] *)
Definition try_catch {A : Type} (m : M A) (h : exn -> M A) : M A := fun w =>
  match m w with
  | (inl e, w') => h e w'
  | (inr a, w') => (inr a, w')
  end.

Definition is_some {A : Type} (o : option A) : bool :=
  match o with Some _ => true | None => false end.

(** [fs.existsSync(p)] and [fs.readFileSync(p)] on a frame path, which
    holds a file or nothing. *)
Definition fs_existsSync (p : string) : M bool :=
  get (fun w => is_some (files w !! p)).

Definition fs_readFileSync (p : string) : M (list byte) := fun w =>
  match files w !! p with
  | Some d => (inr d, w)
  | None => (inl (SystemError "ENOENT"), w)
  end.

(** [fs.readFileSync(p, 'utf8')] on one of the PEM files. *)
Definition fs_readText (file : World -> option string) : M string := fun w =>
  match file w with
  | Some t => (inr t, w)
  | None => (inl (SystemError "ENOENT"), w)
  end.

(** [JSON.parse(fs.readFileSync(chainPath, 'utf8'))] on the chain files of
    [World]. *)
Definition JSON_parse_chainFile : M (list JSValue) := fun w =>
  match chainFile w with
  | Some (JsonArray entries) => (inr entries, w)
  | Some Unparseable => (inl SyntaxError, w)
  | None => (inl (SystemError "ENOENT"), w)
  end.

(** [fs.writeFileSync] of a PEM file: the directory has to exist. *)
Definition fs_writeKey (set : option string -> World -> World) (text : string) : M unit :=
  let* ex := get keysDir in
  if ex then modify (set (Some text)) else throw (SystemError "ENOENT").

Section Programs.
Context {node : NodeLib}.

(** [crypto.createHash('sha256').update(d).digest('hex')] *)
Definition sha256_hex (d : list byte) : string := hex_encode (sha256 d).

(** [Buffer.from(v, 'hex')] *)
Definition Buffer_from_hex (v : JSValue) : exn + list byte :=
  match v with
  | JStr s => inr (hex_decode s)
  | _ => Buffer_from_other v
  end.

(** [path.join(__dirname, 'images', v)]: a TypeError unless [v] is a
    string. *)
Definition path_join (v : JSValue) : exn + string :=
  match v with
  | JStr f => inr (path_join_images f)
  | _ => inl TypeError
  end.

(* --------------------------------------------------------------------- *)
(** *** generate_keys.js *)

Definition generateKeys (entropy : list byte) : M unit :=
  let '(publicKey, privateKey) := generateKeyPairSync entropy in
  let* ex := get keysDir in
  run (if negb ex then modify (set_keysDir true) else ret tt) then
  run fs_writeKey set_privateKeyFile privateKey then
  fs_writeKey set_publicKeyFile publicKey.

(* --------------------------------------------------------------------- *)
(** *** ingest.js *)

Definition loadPrivateKey : M string :=
  let* ex := get (fun w => is_some (privateKeyFile w)) in
  if negb ex then throw (Error "Private key not found. Run generate_keys.js first.")
  else fs_readText privateKeyFile.

(** [loadChain] of ingest.js: a parse failure is caught and the empty array
    returned. *)
Definition ingest_loadChain : M (list JSValue) :=
  let* ex := get (fun w => is_some (chainFile w)) in
  if negb ex then ret []
  else try_catch JSON_parse_chainFile (fun _ => ret []).

(** [fs.writeFileSync(chainPath, JSON.stringify(chain, null, 2))] *)
Definition saveChain (chain : list JSValue) : M unit :=
  modify (set_chainFile (Some (JsonArray (map json_reload_elem chain)))).

(** The payload that [ingestFrame] signs and hashes. *)
Definition ingest_chainData (index timestamp frameFile frameHash previousHash : JSValue)
  : string :=
  stringify_object
    [("index", index); ("timestamp", timestamp); ("frameFile", frameFile);
     ("frameHash", frameHash); ("previousHash", previousHash)].

(** [ingestFrame(framePath)]; [now] is what [new Date().toISOString()]
    returns during the call. *)
Definition ingestFrame (now : string) (framePath : string) : M JSValue :=
  let* ex := fs_existsSync framePath in
  if negb ex then throw (Error ("Frame file not found: " +:+ framePath)) else
  let* frameData := fs_readFileSync framePath in
  let frameHash := JStr (sha256_hex frameData) in
  let* chain := ingest_loadChain in
  let* previousHash :=
    (if (0 <? length chain)%nat
     then lift (js_get (nth (length chain - 1) chain JUndefined) "hash")
     else ret (JStr ZERO_HASH)) in
  let timestamp := JStr now in
  let index := JNum (Z.of_nat (length chain)) in
  let frameFile := JStr (path_basename framePath) in
  let chainData := ingest_chainData index timestamp frameFile frameHash previousHash in
  let* privateKey := loadPrivateKey in
  let* sig := lift (crypto_sign (Buffer_from_string chainData) privateKey) in
  let signature := JStr (hex_encode sig) in
  let chainDataHash := JStr (sha256_hex (Buffer_from_string chainData)) in
  let entry :=
    JObj [("index", index); ("timestamp", timestamp); ("frameFile", frameFile);
          ("frameHash", frameHash); ("previousHash", previousHash);
          ("signature", signature); ("hash", chainDataHash)] in
  run saveChain (chain ++ [entry]) then
  ret entry.

(** A run of the logger: [ingestFrame] on each path in turn, the [k]-th call
    at time [now k]; it stops at the first throw. *)
Fixpoint ingestAll (now : nat -> string) (k : nat) (paths : list string) : M unit :=
  match paths with
  | [] => ret tt
  | p :: r => run ingestFrame (now k) p then ingestAll now (S k) r
  end.

(* --------------------------------------------------------------------- *)
(** *** verify.js *)

Definition loadPublicKey : M string :=
  let* ex := get (fun w => is_some (publicKeyFile w)) in
  if negb ex then throw (Error "Public key not found. Run generate_keys.js first.")
  else fs_readText publicKeyFile.

(** [loadChain] of verify.js: a parse failure is rethrown. *)
Definition verify_loadChain : M (list JSValue) :=
  let* ex := get (fun w => is_some (chainFile w)) in
  if negb ex then ret []
  else try_catch JSON_parse_chainFile (fun _ => throw (Error "Failed to load chain.json")).

(** The three shapes of the object [verifyChain] returns. *)
Inductive VerifyResult : Type :=
  | ChainEmpty                                          (* success, count 0, message *)
  | VerifyFail (atIndex : nat) (reason : string) (count : nat)
  | VerifyOk (count : nat).

Definition success (r : VerifyResult) : bool :=
  match r with VerifyFail _ _ _ => false | _ => true end.

Definition count (r : VerifyResult) : nat :=
  match r with ChainEmpty => 0 | VerifyFail _ _ c => c | VerifyOk c => c end.

(** Both branches on [outputJson] return the same object; they differ in
    what they print, which is not part of the state. *)
Definition report {A : Type} (outputJson : bool) (result : A) : M A :=
  if outputJson then ret result else ret result.

(** The payload that [verifyChain] recomputes from a stored entry. *)
Definition verify_chainData (entry : JSValue) : exn + string :=
  let+ index := js_get entry "index" in
  let+ timestamp := js_get entry "timestamp" in
  let+ frameFile := js_get entry "frameFile" in
  let+ frameHash := js_get entry "frameHash" in
  let+ previousHash := js_get entry "previousHash" in
  inr (stringify_object
    [("index", index); ("timestamp", timestamp); ("frameFile", frameFile);
     ("frameHash", frameHash); ("previousHash", previousHash)]).

(** One turn of the loop of [verifyChain]: [Some r] when the turn executes
    [return r], [None] when it reaches the end of the loop body. *)
Definition verify_entry (outputJson : bool) (publicKey : string)
    (chain : list JSValue) (i : nat) : M (option VerifyResult) :=
  let entry := nth i chain JUndefined in
  let fail reason := report outputJson (Some (VerifyFail i reason (length chain))) in
  let* index := lift (js_get entry "index") in
  if negb (strict_eq index (JNum (Z.of_nat i))) then fail "index mismatch" else
  let* expectedPreviousHash :=
    (if (i =? 0)%nat then ret (JStr ZERO_HASH)
     else lift (js_get (nth (i - 1) chain JUndefined) "hash")) in
  let* previousHash := lift (js_get entry "previousHash") in
  if negb (strict_eq previousHash expectedPreviousHash) then fail "hash mismatch" else
  let* frameFile := lift (js_get entry "frameFile") in
  let* framePath := lift (path_join frameFile) in
  let* ex := fs_existsSync framePath in
  if negb ex then fail "frame file missing" else
  let* frameData := fs_readFileSync framePath in
  let computedFrameHash := sha256_hex frameData in
  let* frameHash := lift (js_get entry "frameHash") in
  if negb (strict_eq frameHash (JStr computedFrameHash)) then fail "frame hash mismatch" else
  let* chainData := lift (verify_chainData entry) in
  let* early := try_catch
    (let* signature := lift (js_get entry "signature") in
     let* signatureBuffer := lift (Buffer_from_hex signature) in
     let* isValid := lift (crypto_verify (Buffer_from_string chainData) publicKey signatureBuffer) in
     if negb isValid then fail "signature verification failed" else ret None)
    (fun _ => fail "signature verification error") in
  match early with
  | Some r => ret (Some r)
  | None =>
      let computedHash := sha256_hex (Buffer_from_string chainData) in
      let* hash := lift (js_get entry "hash") in
      if negb (strict_eq hash (JStr computedHash)) then fail "computed hash mismatch"
      else ret None
  end.

(** [for (let i = 0; i < chain.length; i++) { ... }] followed by the final
    [return]; [todo] counts the turns that remain. *)
Fixpoint verify_loop (outputJson : bool) (publicKey : string)
    (chain : list JSValue) (i todo : nat) : M VerifyResult :=
  match todo with
  | O => report outputJson (VerifyOk (length chain))
  | S todo' =>
      let* r := verify_entry outputJson publicKey chain i in
      match r with
      | Some result => ret result
      | None => verify_loop outputJson publicKey chain (S i) todo'
      end
  end.

Definition verifyChain (outputJson : bool) : M VerifyResult :=
  let* chain := verify_loadChain in
  if (length chain =? 0)%nat then report outputJson ChainEmpty else
  let* publicKey := loadPublicKey in
  verify_loop outputJson publicKey chain 0 (length chain).

End Programs.

(* ===================================================================== *)
(** ** The checks of the verifier, one at a time *)
(* ===================================================================== *)

(** The checks that the verifier makes on an entry, in the order in which
    the state machine of the specification lists them. *)
Inductive check : Type :=
  | SequenceCheck
  | LinkageCheck
  | ArtifactPresence
  | ArtifactHash
  | SignatureCheck
  | EntryHashCheck.

Definition all_checks : list check :=
  [SequenceCheck; LinkageCheck; ArtifactPresence; ArtifactHash; SignatureCheck;
   EntryHashCheck].

(** What one check says: it passes, it fails with a reason, or its
    evaluation throws. *)
Inductive status : Type :=
  | Pass
  | Fail (reason : string)
  | Throws (e : exn).

Section Checks.
Context {node : NodeLib}.

Definition pass_if (b : bool) (reason : string) : status :=
  if b then Pass else Fail reason.

(** What the previousHash of the entry at position [i] has to be: the
    sentinel at position 0, the hash of the entry before it otherwise. *)
Definition expected_previousHash (chain : list JSValue) (i : nat) : exn + JSValue :=
  match i with
  | O => inr (JStr ZERO_HASH)
  | S j => js_get (nth j chain JUndefined) "hash"
  end.

(** Each check on its own, for an entry [entry] that stands at position [i],
    over the frames [frames] and the public key [publicKey]:
    - sequence: the index of the entry is its position;
    - linkage: its previousHash is [expected];
    - artifact presence: the file that frameFile names resolves;
    - artifact hash: the digest of that file is the stored frameHash;
    - signature: the stored signature verifies over the recomputed payload;
    - entry hash: the digest of the recomputed payload is the stored hash. *)
Definition check_entry (frames : gmap string (list byte)) (publicKey : string)
    (i : nat) (expected : exn + JSValue) (entry : JSValue) (c : check) : status :=
  match c with
  | SequenceCheck =>
      match js_get entry "index" with
      | inr index => pass_if (strict_eq index (JNum (Z.of_nat i))) "index mismatch"
      | inl e => Throws e
      end
  | LinkageCheck =>
      match expected, js_get entry "previousHash" with
      | inr h, inr previousHash => pass_if (strict_eq previousHash h) "hash mismatch"
      | inl e, _ => Throws e
      | _, inl e => Throws e
      end
  | ArtifactPresence =>
      match bindE (js_get entry "frameFile") path_join with
      | inr framePath => pass_if (is_some (frames !! framePath)) "frame file missing"
      | inl e => Throws e
      end
  | ArtifactHash =>
      match bindE (js_get entry "frameFile") path_join, js_get entry "frameHash" with
      | inr framePath, inr frameHash =>
          match frames !! framePath with
          | Some data =>
              pass_if (strict_eq frameHash (JStr (sha256_hex data))) "frame hash mismatch"
          | None => Throws (SystemError "ENOENT")
          end
      | inl e, _ => Throws e
      | _, inl e => Throws e
      end
  | SignatureCheck =>
      match verify_chainData entry with
      | inr chainData =>
          match bindE (bindE (js_get entry "signature") Buffer_from_hex)
                  (crypto_verify (Buffer_from_string chainData) publicKey) with
          | inr true => Pass
          | inr false => Fail "signature verification failed"
          | inl _ => Fail "signature verification error"
          end
      | inl e => Throws e
      end
  | EntryHashCheck =>
      match verify_chainData entry, js_get entry "hash" with
      | inr chainData, inr hash =>
          pass_if (strict_eq hash (JStr (sha256_hex (Buffer_from_string chainData))))
            "computed hash mismatch"
      | inl e, _ => Throws e
      | _, inl e => Throws e
      end
  end.

(** The check [c] on the entry at position [i] of [chain]. *)
Definition run_check (frames : gmap string (list byte)) (publicKey : string)
    (chain : list JSValue) (i : nat) (c : check) : status :=
  check_entry frames publicKey i (expected_previousHash chain i)
    (nth i chain JUndefined) c.

(** The first check, in the given order, that does not pass. *)
Fixpoint first_failure (l : list status) : status :=
  match l with
  | [] => Pass
  | Pass :: r => first_failure r
  | s :: _ => s
  end.

Definition entry_outcome (frames : gmap string (list byte)) (publicKey : string)
    (chain : list JSValue) (i : nat) : status :=
  first_failure (map (run_check frames publicKey chain i) all_checks).

(** A key pair signs what its public half verifies. *)
Definition keypair_ok (publicKey privateKey : string) : Prop :=
  forall data : list byte,
    exists s, crypto_sign data privateKey = inr s
              /\ crypto_verify data publicKey s = inr true.

(** The file that an entry references, as the verifier resolves it. *)
Definition artifact_path (entry : JSValue) : option string :=
  match js_get entry "frameFile" with
  | inr (JStr f) => Some (path_join_images f)
  | _ => None
  end.

(** What a turn of the loop, and the loop, return for the outcome of the
    entry they stop at. *)
Definition outcome_result (i n : nat) (s : status) : exn + option VerifyResult :=
  match s with
  | Pass => inr None
  | Fail reason => inr (Some (VerifyFail i reason n))
  | Throws e => inl e
  end.

Definition stop_result (j n : nat) (s : status) : exn + VerifyResult :=
  match s with
  | Pass => inr (VerifyOk n)
  | Fail reason => inr (VerifyFail j reason n)
  | Throws e => inl e
  end.

(** A value on which a property read does not throw. *)
Definition readable (v : JSValue) : Prop :=
  match v with
  | JUndefined | JNull => False
  | _ => True
  end.

(** The array that ingestion starts from. *)
Definition loaded_chain (w : World) : list JSValue :=
  match chainFile w with
  | Some (JsonArray entries) => entries
  | _ => []
  end.

(** The hash of the chain head, or the sentinel of the empty chain, as
    [ingestFrame] reads it. *)
Definition head_hash (chain : list JSValue) : exn + JSValue :=
  if (0 <? length chain)%nat
  then js_get (nth (length chain - 1) chain JUndefined) "hash"
  else inr (JStr ZERO_HASH).

(** The entry that [ingestFrame] assembles. *)
Definition new_entry (n : nat) (timestamp frameFile : string) (frameData : list byte)
    (previousHash : JSValue) (sig : list byte) : JSValue :=
  let index := JNum (Z.of_nat n) in
  let frameHash := JStr (sha256_hex frameData) in
  JObj [("index", index); ("timestamp", JStr timestamp);
        ("frameFile", JStr frameFile); ("frameHash", frameHash);
        ("previousHash", previousHash); ("signature", JStr (hex_encode sig));
        ("hash", JStr (sha256_hex (Buffer_from_string
           (ingest_chainData index (JStr timestamp) (JStr frameFile) frameHash
              previousHash))))].

(** An entry with the seven properties in the order of [ingestFrame], an
    integer index and six strings. *)
Definition built_entry (e : JSValue) : Prop :=
  exists (i : Z) (ts ff fh ph sg h : string),
    e = JObj [("index", JNum i); ("timestamp", JStr ts); ("frameFile", JStr ff);
              ("frameHash", JStr fh); ("previousHash", JStr ph);
              ("signature", JStr sg); ("hash", JStr h)].

(** *** Tampering with what is stored *)

(** The tamper demonstration on the frame at [p]: the byte at position [k]
    is flipped and the file written back. *)
Definition tamper_frame (p : string) (k : nat) (w : World) : World :=
  match files w !! p with
  | Some data => set_files (<[p := flip_byte k data]> (files w)) w
  | None => w
  end.

(** Property [k] of the stored entry at position [i] set to [v], everything
    else in [chain.json] as it was. *)
Definition alter_entry (i : nat) (k : string) (v : JSValue) (chain : list JSValue)
  : list JSValue :=
  match chain !! i with
  | Some (JObj props) => <[i := JObj (set_prop k v props)]> chain
  | _ => chain
  end.

Definition corrupt_entry (i : nat) (k : string) (v : JSValue) (w : World) : World :=
  set_chainFile (Some (JsonArray (alter_entry i k v (loaded_chain w)))) w.



(** The payload of a stored object. *)
Definition entry_payload (props : list (string * JSValue)) : string :=
  ingest_chainData (prop "index" props) (prop "timestamp" props)
    (prop "frameFile" props) (prop "frameHash" props) (prop "previousHash" props).



End Checks.

(* ===================================================================== *)
(** ** An executable instance of the library *)
(* ===================================================================== *)

(** A stand-in for the library, for running the programs on concrete
    inputs: the digest is a four-byte rolling checksum, the two halves of a
    key pair carry the same tag and a signature is the checksum of the tag
    followed by the signed bytes. Paths follow POSIX
    [path.basename], and [path.join] on a plain file name. *)
Module Toy.

Fixpoint strip_prefix (p s : string) : option string :=
  match p, s with
  | EmptyString, _ => Some s
  | String a p', String b s' => if Ascii.eqb a b then strip_prefix p' s' else None
  | _, _ => None
  end.

Definition toy_digest (d : list byte) : list byte :=
  let h := fold_left (fun h b => (h * 31 + Byte.to_N b) mod 4294967296)%N d 7%N in
  [byte_of_N (h / 16777216); byte_of_N ((h / 65536) mod 256);
   byte_of_N ((h / 256) mod 256); byte_of_N (h mod 256)].

Definition bytes_eqb (a b : list byte) : bool :=
  bool_decide (a = b).

Definition toy_keygen (entropy : list byte) : string * string :=
  ("PUB-" +:+ hex_encode entropy, "PRIV-" +:+ hex_encode entropy).

Definition toy_sign (data : list byte) (privateKey : string) : exn + list byte :=
  match strip_prefix "PRIV-" privateKey with
  | Some tag => inr (toy_digest (list_byte_of_string tag ++ data))
  | None => inl (Error "unsupported key")
  end.

Definition toy_verify (data : list byte) (publicKey : string) (sig : list byte)
  : exn + bool :=
  match strip_prefix "PUB-" publicKey with
  | Some tag => inr (bytes_eqb sig (toy_digest (list_byte_of_string tag ++ data)))
  | None => inl (Error "unsupported key")
  end.

(** Segments of a path between slashes, in order. *)
Fixpoint segments (s : string) (cur : string) : list string :=
  match s with
  | EmptyString => [cur]
  | String c r =>
      if Ascii.eqb c "/" then cur :: segments r EmptyString
      else segments r (cur +:+ String c EmptyString)
  end.

(** The last segment that is not empty. *)
Definition posix_basename (p : string) : string :=
  default EmptyString
    (last (filter (fun s => s <> EmptyString) (segments p EmptyString))).

Definition posix_join_images (f : string) : string := "images/" +:+ f.

(** A file name: not empty and without a slash. *)
Fixpoint no_slash (s : string) : bool :=
  match s with
  | EmptyString => true
  | String c r => negb (Ascii.eqb c "/") && no_slash r
  end.

Definition plain_name (s : string) : Prop := s <> EmptyString /\ no_slash s = true.

Definition toy : NodeLib := {|
  sha256 := toy_digest;
  generateKeyPairSync := toy_keygen;
  crypto_sign := toy_sign;
  crypto_verify := toy_verify;
  path_basename := posix_basename;
  path_join_images := posix_join_images;
  Buffer_from_other := fun _ => inl TypeError
|}.

#[local] Existing Instance toy.

Definition bytes (s : string) : list byte := list_byte_of_string s.

(** A world with a key pair, no chain, and three frames in [images/]. *)
Definition keys0 : string * string := Eval vm_compute in toy_keygen (bytes "k").

Definition world0 : World := {|
  keysDir := true;
  privateKeyFile := Some (snd keys0);
  publicKeyFile := Some (fst keys0);
  chainFile := None;
  files := {[ "images/a.jpg" := bytes "AAAA";
              "images/b.jpg" := bytes "BBBB";
              "images/c.jpg" := bytes "CCCC";
              "/tmp/x.jpg" := bytes "XXXX" ]}
|}.

Definition clock (k : nat) : string := "2024-01-01T00:00:0" +:+ pretty k +:+ ".000Z".

Definition world3 : World :=
  Eval vm_compute in
    snd (ingestAll clock 0 ["images/a.jpg"; "images/b.jpg"; "images/c.jpg"] world0).

(** The same frame ingested twice. *)
Definition world_twice : World :=
  Eval vm_compute in
    snd (ingestAll clock 0 ["images/a.jpg"; "images/a.jpg"] world0).

(** The properties of the second entry of [world3]. *)
Definition entry1_props : list (string * JSValue) :=
  Eval vm_compute in
    match nth 1 (loaded_chain world3) JUndefined with
    | JObj props => props
    | _ => []
    end.

(** [world3] with the frameHash of its second entry overwritten. *)
Definition world_corrupted : World :=
  Eval vm_compute in corrupt_entry 1 "frameHash" (JStr "00") world3.

(** [world0] with a chain file that does not parse. *)
Definition world_bad_chain : World := set_chainFile (Some Unparseable) world0.

(** No keys and no chain. *)
Definition world_nokeys : World := mkWorld false None None None (files world0).

(** [world3] without its public key. *)
Definition world_nopub : World := set_publicKeyFile None world3.

End Toy.

(* ===================================================================== *)
(** ** The command-line entry points *)
(* ===================================================================== *)

Section Mains.
Context {node : NodeLib}.

(** The main block of verify.js. [argv] is [process.argv]; the value is the
    exit status of the process: 1 after [process.exit(1)], 0 when the block
    runs to its end. *)
Definition verify_main (argv : list string) : M Z :=
  let outputJson := bool_decide ("--json" ∈ argv) in
  try_catch (run verifyChain outputJson then ret 0%Z) (fun _ => ret 1%Z).

(** The main block of ingest.js: [process.argv[2]] is the frame path, and
    a path that is missing or empty is refused before anything is read. *)
Definition ingest_main (now : string) (argv : list string) : M Z :=
  match argv !! 2%nat with
  | None | Some EmptyString => ret 1%Z
  | Some framePath =>
      try_catch (run ingestFrame now framePath then ret 0%Z) (fun _ => ret 1%Z)
  end.

End Mains.

(* ===================================================================== *)
(** ** The tamper demonstration *)
(* ===================================================================== *)

(** [s.startsWith(p)] and [s.endsWith(p)] *)
Definition startsWith (p s : string) : bool := String.prefix p s.

Definition endsWith (p s : string) : bool :=
  (String.length p <=? String.length s)%nat
  && String.eqb (substring (String.length s - String.length p) (String.length p) s) p.

(** The filter on the names of the images directory:
    [f.startsWith('frame_') && f.endsWith('.jpg')]. *)
Definition is_frame_file (f : string) : bool :=
  startsWith "frame_" f && endsWith ".jpg" f.

(** [fs.writeFileSync(p, data)] on a frame path, in a directory that
    exists. *)
Definition fs_writeFileSync (p : string) (data : list byte) : M unit :=
  modify (fun w => set_files (<[p := data]> (files w)) w).

(** [fs.copyFileSync(src, dst)] *)
Definition fs_copyFileSync (src dst : string) : M unit :=
  let* data := fs_readFileSync src in
  fs_writeFileSync dst data.

Section Tamper.
Context {node : NodeLib}.

(** [files[i]] with [path.join(imagesDir, files[i])]: a position outside
    of the array reads [undefined], on which [path.join] throws a
    TypeError. *)
Definition join_listed (files : list string) (i : nat) : exn + (string * string) :=
  match files !! i with
  | Some randomFile => inr (randomFile, path_join_images randomFile)
  | None => inl TypeError
  end.

(** [tamperFrame] of server.js. [readdir] is what [fs.readdirSync(imagesDir)]
    returns and [random] what [Math.floor(Math.random() * files.length)]
    evaluates to. An index outside of the buffer reads [undefined] and the
    assignment to it is dropped, which is what [flip_byte] does. *)
Definition tamperFrame (readdir : list string) (random : nat) : M string :=
  let files := List.filter is_frame_file readdir in
  if (length files =? 0)%nat then throw (Error "No frames to tamper with") else
  let* listed := lift (join_listed files random) in
  let randomFile := fst listed in
  let filePath := snd listed in
  let* data := fs_readFileSync filePath in
  let middleIndex := (length data / 2)%nat in
  run fs_writeFileSync filePath (flip_byte middleIndex data) then
  ret randomFile.

(** [tamperRandomFrame] of scripts/tamper_one.js, with the exit status of
    the process as its value; an exception that nothing catches ends the
    process as well. [readdir] is [None] when the images directory does not
    exist; [random] is as above and [tamperIndex] is the position that the
    script draws between 30% and 70% of the file. The script prints the
    byte it has read at that position after it has written the file back;
    on an index outside of the buffer that byte is [undefined] and printing
    it throws. *)
Definition tamperRandomFrame (readdir : option (list string))
    (random tamperIndex : nat) : M Z :=
  match readdir with
  | None => ret 1%Z
  | Some names =>
      let files := List.filter is_frame_file names in
      if (length files =? 0)%nat then ret 1%Z else
      let* listed := lift (join_listed files random) in
      let filePath := snd listed in
      try_catch
        (let* data := fs_readFileSync filePath in
         let originalByte := data !! tamperIndex in
         run fs_writeFileSync filePath (flip_byte tamperIndex data) then
         match originalByte with
         | Some _ => ret 0%Z
         | None => throw TypeError
         end)
        (fun _ => ret 1%Z)
  end.

End Tamper.

(* ===================================================================== *)
(** ** The capture server *)
(* ===================================================================== *)

(** The messages that server.js broadcasts to its event stream. The
    message of an [error] event is a fixed prefix followed by the message of
    the error that was caught. *)
Inductive Event : Type :=
  | chain_head (index : JSValue) (frame : string) (hash timestamp : JSValue)
  | verify_ok (count : nat)
  | verify_fail (atIndex : nat) (reason : string) (count : nat)
  | error_event (prefix : string) (err : exn)
  | tampered (file : string).

(** The state of the server: the files, and the messages broadcast so far,
    oldest first. *)
Record Server : Type := mkServer {
  disk : World;
  sent : list Event
}.

Definition Srv (A : Type) : Type := Server -> (exn + A) * Server.

Definition retS {A : Type} (a : A) : Srv A := fun s => (inr a, s).

Definition bindS {A B : Type} (m : Srv A) (f : A -> Srv B) : Srv B := fun s =>
  match m s with
  | (inl e, s') => (inl e, s')
  | (inr a, s') => f a s'
  end.

Notation "'let!' x ':=' m 'in' k" := (bindS m (fun x => k))
  (at level 10, x name, m at level 100, k at level 200).
Notation "'run!' m 'then' k" := (bindS m (fun _ => k))
  (at level 10, m at level 100, k at level 200).

Definition liftS {A : Type} (r : exn + A) : Srv A := fun s => (r, s).

(** A program on the files, run by the server. *)
Definition on_disk {A : Type} (m : M A) : Srv A := fun s =>
  let '(r, w) := m (disk s) in (r, mkServer w (sent s)).

Definition try_catchS {A : Type} (m : Srv A) (h : exn -> Srv A) : Srv A := fun s =>
  match m s with
  | (inl e, s') => h e s'
  | (inr a, s') => (inr a, s')
  end.

(** [broadcastSSE(data)]: a write that throws is caught inside the loop
    over the clients, so the call itself returns. *)
Definition broadcastSSE (data : Event) : Srv unit := fun s =>
  (inr tt, mkServer (disk s) (sent s ++ [data])).

(** [s.replace(/[:.]/g, '-')] *)
Fixpoint replace_colon_dot (s : string) : string :=
  match s with
  | EmptyString => EmptyString
  | String c r =>
      String (if Ascii.eqb c ":" || Ascii.eqb c "." then "-"%char else c)
        (replace_colon_dot r)
  end.

Section ServerPrograms.
Context {node : NodeLib}.

(** The name under which [processFrame] keeps the frame captured at the
    time [now]. *)
Definition frame_name (now : string) : string :=
  "frame_" +:+ replace_colon_dot now +:+ ".jpg".

(** [processFrame(framePath)]; [now1] is the time at which the copy is
    named and [now2] the time inside [ingestFrame]. *)
Definition processFrame (now1 now2 framePath : string) : Srv unit :=
  let timestampedPath := path_join_images (frame_name now1) in
  try_catchS
    (run! on_disk (fs_copyFileSync framePath timestampedPath) then
     let! entry := on_disk (ingestFrame now2 timestampedPath) in
     let! index := liftS (js_get entry "index") in
     let! hash := liftS (js_get entry "hash") in
     let! timestamp := liftS (js_get entry "timestamp") in
     run! broadcastSSE (chain_head index (path_basename timestampedPath) hash timestamp) then
     let! verifyResult := on_disk (verifyChain true) in
     match verifyResult with
     | VerifyFail atIndex reason count => broadcastSSE (verify_fail atIndex reason count)
     | _ => broadcastSSE (verify_ok (count verifyResult))
     end)
    (fun err => broadcastSSE (error_event "Frame processing failed: " err)).

(** The route [POST /tamper], with the status of the response as its
    value. *)
Definition tamper_route (readdir : list string) (random : nat) : Srv Z :=
  try_catchS
    (let! tamperedFile := on_disk (tamperFrame readdir random) in
     run! broadcastSSE (tampered tamperedFile) then
     retS 200%Z)
    (fun _ => retS 500%Z).

End ServerPrograms.

(* ===================================================================== *)
(** ** Reasons, valid stores, and runs of the server *)
(* ===================================================================== *)

(** The reasons with which each check can fail. *)
Definition check_reasons (c : check) : list string :=
  match c with
  | SequenceCheck => ["index mismatch"]
  | LinkageCheck => ["hash mismatch"]
  | ArtifactPresence => ["frame file missing"]
  | ArtifactHash => ["frame hash mismatch"]
  | SignatureCheck => ["signature verification failed"; "signature verification error"]
  | EntryHashCheck => ["computed hash mismatch"]
  end.

Section Store.
Context {node : NodeLib}.

(** A store from which the capture loop can go on: both keys, and a chain
    of entries as [ingestFrame] builds them on which every check passes. *)
Definition valid_store (pk sk : string) (w : World) : Prop :=
  publicKeyFile w = Some pk /\ privateKeyFile w = Some sk
  /\ chainFile w <> Some Unparseable
  /\ Forall built_entry (loaded_chain w)
  /\ forall j c, (j < length (loaded_chain w))%nat ->
       run_check (files w) pk (loaded_chain w) j c = Pass.

End Store.

(** A text without a comma. *)
Fixpoint no_comma (s : string) : bool :=
  match s with
  | EmptyString => true
  | String c r => negb (Ascii.eqb c ",") && no_comma r
  end.


(** Runs of the capture server on the stand-in library. *)
Module ToyServer.

#[local] Existing Instance Toy.toy.

(** [world0] with a captured frame in [images/latest.jpg]. *)
Definition world_cam : World :=
  Eval vm_compute in
    set_files (<["images/latest.jpg" := Toy.bytes "LLLL"]> (files Toy.world0)) Toy.world0.

Definition cam0 : Server := mkServer world_cam [].

(** The time inside [ingestFrame], half a second after the frame is named. *)
Definition tick (k : nat) : string := "2024-01-01T00:00:0" +:+ pretty k +:+ ".500Z".

(** Two turns of the capture loop. *)
Definition cam2 : Server :=
  Eval vm_compute in
    snd (processFrame (Toy.clock 1) (tick 1) "images/latest.jpg"
           (snd (processFrame (Toy.clock 0) (tick 0) "images/latest.jpg" cam0))).

(** What [readdirSync] returns for the images directory of [cam2]. *)
Definition listing2 : list string :=
  ["a.jpg"; "b.jpg"; "c.jpg"; "frame_2024-01-01T00-00-00-000Z.jpg";
   "frame_2024-01-01T00-00-01-000Z.jpg"; "latest.jpg"].

(** [cam2] after [POST /tamper] has drawn the second frame. *)
Definition cam2_tampered : Server :=
  Eval vm_compute in snd (tamper_route listing2 1 cam2).

(** [world3] after the file [/tmp/x.jpg], which no entry references, is
    gone. *)
Definition world3_cleaned : World :=
  Eval vm_compute in set_files (delete "/tmp/x.jpg" (files Toy.world3)) Toy.world3.

End ToyServer.

(* ===================================================================== *)
(** ** The test script *)
(* ===================================================================== *)






Section TestScript.
Context {node : NodeLib}.











End TestScript.

(* ===================================================================== *)
(** ** Directories *)
(* ===================================================================== *)

(** In [World] a path holds a file or nothing. A path can also be a
    directory: [fs.existsSync] is then true and [fs.readFileSync] throws
    EISDIR. Here [dirs] is the set of the paths that are directories; the
    verifier neither makes nor removes one. *)
Definition fs_existsSync_in (dirs : gset string) (p : string) : M bool :=
  get (fun w => is_some (files w !! p) || bool_decide (p ∈ dirs)).

Definition fs_readFileSync_in (dirs : gset string) (p : string) : M (list byte) :=
  fun w =>
    match files w !! p with
    | Some d => (inr d, w)
    | None =>
        if bool_decide (p ∈ dirs) then (inl (SystemError "EISDIR"), w)
        else (inl (SystemError "ENOENT"), w)
    end.

Section VerifierWithDirectories.
Context {node : NodeLib}.

(** One turn of the loop of [verifyChain], over files and directories. *)
Definition verify_entry_in (dirs : gset string) (outputJson : bool) (publicKey : string)
    (chain : list JSValue) (i : nat) : M (option VerifyResult) :=
  let entry := nth i chain JUndefined in
  let fail reason := report outputJson (Some (VerifyFail i reason (length chain))) in
  let* index := lift (js_get entry "index") in
  if negb (strict_eq index (JNum (Z.of_nat i))) then fail "index mismatch" else
  let* expectedPreviousHash :=
    (if (i =? 0)%nat then ret (JStr ZERO_HASH)
     else lift (js_get (nth (i - 1) chain JUndefined) "hash")) in
  let* previousHash := lift (js_get entry "previousHash") in
  if negb (strict_eq previousHash expectedPreviousHash) then fail "hash mismatch" else
  let* frameFile := lift (js_get entry "frameFile") in
  let* framePath := lift (path_join frameFile) in
  let* ex := fs_existsSync_in dirs framePath in
  if negb ex then fail "frame file missing" else
  let* frameData := fs_readFileSync_in dirs framePath in
  let computedFrameHash := sha256_hex frameData in
  let* frameHash := lift (js_get entry "frameHash") in
  if negb (strict_eq frameHash (JStr computedFrameHash)) then fail "frame hash mismatch" else
  let* chainData := lift (verify_chainData entry) in
  let* early := try_catch
    (let* signature := lift (js_get entry "signature") in
     let* signatureBuffer := lift (Buffer_from_hex signature) in
     let* isValid := lift (crypto_verify (Buffer_from_string chainData) publicKey signatureBuffer) in
     if negb isValid then fail "signature verification failed" else ret None)
    (fun _ => fail "signature verification error") in
  match early with
  | Some r => ret (Some r)
  | None =>
      let computedHash := sha256_hex (Buffer_from_string chainData) in
      let* hash := lift (js_get entry "hash") in
      if negb (strict_eq hash (JStr computedHash)) then fail "computed hash mismatch"
      else ret None
  end.

Fixpoint verify_loop_in (dirs : gset string) (outputJson : bool) (publicKey : string)
    (chain : list JSValue) (i todo : nat) : M VerifyResult :=
  match todo with
  | O => report outputJson (VerifyOk (length chain))
  | S todo' =>
      let* r := verify_entry_in dirs outputJson publicKey chain i in
      match r with
      | Some result => ret result
      | None => verify_loop_in dirs outputJson publicKey chain (S i) todo'
      end
  end.

(** [verifyChain] over files and directories. *)
Definition verifyChain_in (dirs : gset string) (outputJson : bool) : M VerifyResult :=
  let* chain := verify_loadChain in
  if (length chain =? 0)%nat then report outputJson ChainEmpty else
  let* publicKey := loadPublicKey in
  verify_loop_in dirs outputJson publicKey chain 0 (length chain).

End VerifierWithDirectories.

Section BuilderWithDirectories.
Context {node : NodeLib}.

(** [ingestFrame] over files and directories. *)
Definition ingestFrame_in (dirs : gset string) (now : string) (framePath : string)
  : M JSValue :=
  let* ex := fs_existsSync_in dirs framePath in
  if negb ex then throw (Error ("Frame file not found: " +:+ framePath)) else
  let* frameData := fs_readFileSync_in dirs framePath in
  let frameHash := JStr (sha256_hex frameData) in
  let* chain := ingest_loadChain in
  let* previousHash :=
    (if (0 <? length chain)%nat
     then lift (js_get (nth (length chain - 1) chain JUndefined) "hash")
     else ret (JStr ZERO_HASH)) in
  let timestamp := JStr now in
  let index := JNum (Z.of_nat (length chain)) in
  let frameFile := JStr (path_basename framePath) in
  let chainData := ingest_chainData index timestamp frameFile frameHash previousHash in
  let* privateKey := loadPrivateKey in
  let* sig := lift (crypto_sign (Buffer_from_string chainData) privateKey) in
  let signature := JStr (hex_encode sig) in
  let chainDataHash := JStr (sha256_hex (Buffer_from_string chainData)) in
  let entry :=
    JObj [("index", index); ("timestamp", timestamp); ("frameFile", frameFile);
          ("frameHash", frameHash); ("previousHash", previousHash);
          ("signature", signature); ("hash", chainDataHash)] in
  run saveChain (chain ++ [entry]) then
  ret entry.

End BuilderWithDirectories.

(* ===================================================================== *)
(** ** A chain file that holds something else than an array *)
(* ===================================================================== *)

(** [JSON.parse] returns the value that the text of [chain.json] denotes,
    and neither [loadChain] nor its callers check that it is an array.
    [World] keeps the arrays. The other values are told apart here by what
    [verifyChain] reads of the chain before its loop, the property
    [length]: [null], on which the read throws, and the values that have no
    [length], which are a number, a boolean and an object with no property
    of that name, such as the text [{}]. A string and an object with a
    property [length] are left out: the loop then runs up to that length,
    taken as a number. *)
Inductive Parsed : Type :=
  | ParsedArray (entries : list JSValue)
  | ParsedNull
  | ParsedNoLength.

(** The value that [JSON.parse] has returned, as one of these. *)
Definition parsed (v : JSValue) : option Parsed :=
  match v with
  | JArr entries => Some (ParsedArray entries)
  | JNull => Some ParsedNull
  | JBool _ | JNum _ => Some ParsedNoLength
  | JObj props =>
      match assoc "length" props with
      | None => Some ParsedNoLength
      | Some _ => None
      end
  | JStr _ | JUndefined => None
  end.

(** [chain.length] *)
Definition chain_length (chain : Parsed) : exn + JSValue :=
  match chain with
  | ParsedArray entries => inr (JNum (Z.of_nat (length entries)))
  | ParsedNull => inl TypeError
  | ParsedNoLength => inr JUndefined
  end.

(** The object that [verifyChain] returns: one of the three shapes of
    [VerifyResult] or, after a loop without a turn on a chain that has no
    length, [{ success: true, count: undefined }]. *)
Inductive VerifyObject : Type :=
  | Counted (result : VerifyResult)
  | SuccessNoCount.

Section OtherChains.
Context {node : NodeLib}.

(** [verifyChain] from its second statement on, [chain] being what
    [loadChain] has returned. On an array this is the rest of
    [verifyChain]; on a value without a length, [chain.length === 0] is
    false and so is [0 < chain.length]. *)
Definition verifyChain_on (outputJson : bool) (chain : Parsed) : M VerifyObject :=
  let* len := lift (chain_length chain) in
  if strict_eq len (JNum 0) then report outputJson (Counted ChainEmpty) else
  let* publicKey := loadPublicKey in
  match chain with
  | ParsedArray entries =>
      let* result := verify_loop outputJson publicKey entries 0 (length entries) in
      ret (Counted result)
  | _ => report outputJson SuccessNoCount
  end.

End OtherChains.

(** [len > 0] for the value of [chain.length]: a number or [undefined]. *)
Definition positive_length (len : JSValue) : bool :=
  match len with
  | JNum z => (0 <? z)%Z
  | _ => false
  end.

(** [chain[chain.length - 1]], read when the length is positive. *)
Definition chain_last (chain : Parsed) : JSValue :=
  match chain with
  | ParsedArray entries => nth (length entries - 1) entries JUndefined
  | _ => JUndefined
  end.

(** [chain.push(entry)]: only an array has the method; on the other values
    the call is a TypeError. *)
Definition chain_push (chain : Parsed) (entry : JSValue) : exn + list JSValue :=
  match chain with
  | ParsedArray entries => inr (entries ++ [entry])
  | _ => inl TypeError
  end.

Section OtherChainsIngest.
Context {node : NodeLib}.

(** [ingestFrame], [chain] being what its call of [loadChain] returns. *)
Definition ingestFrame_on (now : string) (framePath : string) (chain : Parsed)
  : M JSValue :=
  let* ex := fs_existsSync framePath in
  if negb ex then throw (Error ("Frame file not found: " +:+ framePath)) else
  let* frameData := fs_readFileSync framePath in
  let frameHash := JStr (sha256_hex frameData) in
  let* len := lift (chain_length chain) in
  let* previousHash :=
    (if positive_length len
     then lift (js_get (chain_last chain) "hash")
     else ret (JStr ZERO_HASH)) in
  let timestamp := JStr now in
  let* index := lift (chain_length chain) in
  let frameFile := JStr (path_basename framePath) in
  let chainData := ingest_chainData index timestamp frameFile frameHash previousHash in
  let* privateKey := loadPrivateKey in
  let* sig := lift (crypto_sign (Buffer_from_string chainData) privateKey) in
  let signature := JStr (hex_encode sig) in
  let chainDataHash := JStr (sha256_hex (Buffer_from_string chainData)) in
  let entry :=
    JObj [("index", index); ("timestamp", timestamp); ("frameFile", frameFile);
          ("frameHash", frameHash); ("previousHash", previousHash);
          ("signature", signature); ("hash", chainDataHash)] in
  let* stored := lift (chain_push chain entry) in
  run saveChain stored then
  ret entry.

End OtherChainsIngest.

(* ===================================================================== *)
(** ** Two writers *)
(* ===================================================================== *)

Section Writers.
Context {node : NodeLib}.



End Writers.

(* ===================================================================== *)
(** ** Hexadecimal text *)
(* ===================================================================== *)

Lemma hex_byte_roundtrip (x : byte) :
  hex_val (hex_digit (Byte.to_N x / 16)) = Some (Byte.to_N x / 16)%N
  /\ hex_val (hex_digit (Byte.to_N x mod 16)) = Some (Byte.to_N x mod 16)%N
  /\ byte_of_N (16 * (Byte.to_N x / 16) + Byte.to_N x mod 16) = x.
Proof. destruct x; vm_compute; repeat split; reflexivity. Qed.

Lemma hex_decode_encode (b : list byte) : hex_decode (hex_encode b) = b.
Proof.
  induction b as [|x r IH]; [reflexivity|].
  cbn [hex_encode hex_decode].
  destruct (hex_byte_roundtrip x) as (-> & -> & ->).
  now rewrite IH.
Qed.

Lemma hex_encode_inj (a b : list byte) : hex_encode a = hex_encode b -> a = b.
Proof.
  intros H. rewrite <- (hex_decode_encode a), <- (hex_decode_encode b).
  now rewrite H.
Qed.

Lemma flip_bits_neq (b : byte) : flip_bits b <> b.
Proof. destruct b; vm_compute; discriminate. Qed.

Lemma flip_byte_neq (k : nat) (data : list byte) :
  (k < length data)%nat -> flip_byte k data <> data.
Proof.
  intros Hk. unfold flip_byte.
  destruct (lookup_lt_is_Some_2 data k Hk) as [b Hb]. rewrite Hb.
  intros Heq.
  assert (H : <[k:=flip_bits b]> data !! k = Some (flip_bits b))
    by now apply list_lookup_insert_eq.
  rewrite Heq, Hb in H. injection H as H. symmetry in H.
  now apply flip_bits_neq in H.
Qed.

(* ===================================================================== *)
(** ** Strict equality and property reads *)
(* ===================================================================== *)

Lemma strict_eq_eq (a b : JSValue) : strict_eq a b = true -> a = b.
Proof.
  destruct a, b; simpl; try discriminate; try reflexivity.
  - intros H. apply Bool.eqb_prop in H. now subst.
  - intros H. apply Z.eqb_eq in H. now subst.
  - intros H. apply String.eqb_eq in H. now subst.
Qed.

Lemma strict_eq_str (s : string) : strict_eq (JStr s) (JStr s) = true.
Proof. simpl. apply String.eqb_refl. Qed.

Lemma strict_eq_num (z : Z) : strict_eq (JNum z) (JNum z) = true.
Proof. simpl. apply Z.eqb_refl. Qed.

Lemma readable_dec (v : JSValue) : {readable v} + {~ readable v}.
Proof. destruct v; simpl; auto. Qed.

Lemma js_get_readable (v : JSValue) (k : string) :
  readable v -> exists x, js_get v k = inr x.
Proof. destruct v; simpl; intros H; try contradiction; eauto. Qed.


Lemma assoc_set_prop_ne (k k' : string) (v : JSValue)
    (props : list (string * JSValue)) :
  k <> k' -> assoc k (set_prop k' v props) = assoc k props.
Proof.
  intros Hne. induction props as [|[k2 x] r IH]; cbn [set_prop assoc].
  - now rewrite (proj2 (String.eqb_neq k k') Hne).
  - destruct (String.eqb k' k2) eqn:E; cbn [assoc].
    + apply String.eqb_eq in E. subst k2.
      now rewrite (proj2 (String.eqb_neq k k') Hne).
    + now rewrite IH.
Qed.


Lemma prop_set_prop_ne (k k' : string) (v : JSValue)
    (props : list (string * JSValue)) :
  k <> k' -> prop k (set_prop k' v props) = prop k props.
Proof. intros H. unfold prop. now rewrite assoc_set_prop_ne. Qed.

(* ===================================================================== *)
(** ** JSON text *)
(* ===================================================================== *)

Example stringify_sample :
  JSON_stringify (JObj [("index", JNum 3); ("t", JUndefined); ("ref", JStr "a.jpg")])
  = Some (String "{" (String dquote ("index" +:+ String dquote (":3," ++
      String dquote ("ref" +:+ String dquote (":" +:+ String dquote ("a.jpg" ++
      String dquote "}"))))))).
Proof. vm_compute. reflexivity. Qed.

(** Writing a value to the chain file and reading it back does not change
    its JSON text. *)
Lemma stringify_reload (v : JSValue) :
  JSON_stringify (json_reload v) = JSON_stringify v.
Proof.
  induction v as [| | | | |elems IH|props IH] using JSValue_nested_ind;
    try reflexivity.
  - cbn [json_reload JSON_stringify]. do 4 f_equal.
    induction IH as [|x r Hx _ IHr]; [reflexivity|].
    destruct x; f_equal; try exact IHr; try reflexivity; now rewrite Hx.
  - cbn [json_reload JSON_stringify]. do 4 f_equal.
    induction IH as [|[k x] r Hx _ IHr]; [reflexivity|].
    cbn [snd] in Hx.
    destruct x; try exact IHr; rewrite Hx;
      destruct (JSON_stringify _); now rewrite IHr.
Qed.

Lemma string_app_cons (x : ascii) (a b : string) :
  String x a +:+ b = String x (a +:+ b).
Proof. reflexivity. Qed.

Lemma string_app_nil_l (b : string) : EmptyString +:+ b = b.
Proof. reflexivity. Qed.

Lemma string_app_assoc (a b c : string) : (a +:+ b) +:+ c = a +:+ (b +:+ c).
Proof.
  induction a as [|x a IH]; [reflexivity|].
  rewrite !string_app_cons. f_equal. exact IH.
Qed.

Lemma string_app_nil_r (a : string) : a +:+ EmptyString = a.
Proof.
  induction a as [|x a IH]; [reflexivity|].
  rewrite string_app_cons. f_equal. exact IH.
Qed.

Lemma json_unescape_escape (c : ascii) (r : string) :
  json_unescape_head (json_escape c +:+ r) = Some (c, r).
Proof.
  destruct c as [[] [] [] [] [] [] [] []]; reflexivity.
Qed.

Lemma json_escape_all_prefix_free (t t' r r' : string) :
  json_escape_all t +:+ String dquote r = json_escape_all t' +:+ String dquote r' ->
  t = t' /\ r = r'.
Proof.
  revert t'. induction t as [|c t IH]; intros [|c' t'] H; cbn [json_escape_all] in H;
    rewrite ?string_app_nil_l, ?string_app_assoc in H.
  - injection H as ->. now split.
  - apply (f_equal json_unescape_head) in H.
    rewrite json_unescape_escape in H. discriminate.
  - apply (f_equal json_unescape_head) in H.
    rewrite json_unescape_escape in H. discriminate.
  - apply (f_equal json_unescape_head) in H.
    rewrite !json_unescape_escape in H. injection H as -> H.
    destruct (IH _ H) as [-> ->]. now split.
Qed.

Lemma json_quote_prefix_free (t t' r r' : string) :
  json_quote t +:+ r = json_quote t' +:+ r' -> t = t' /\ r = r'.
Proof.
  unfold json_quote. rewrite !string_app_cons, !string_app_assoc.
  rewrite !string_app_cons, !string_app_nil_l. intros H. injection H as H.
  now apply json_escape_all_prefix_free.
Qed.

Lemma json_members_split (pre post : list string) (m : string) :
  json_members (pre ++ m :: post) = members_before pre +:+ m +:+ members_after post.
Proof.
  unfold json_members. induction pre as [|y r IH]; cbn [app members_before].
  - rewrite string_app_nil_l.
    destruct post; cbn [String.concat members_after].
    + now rewrite string_app_nil_r.
    + reflexivity.
  - rewrite !string_app_assoc. rewrite <- IH.
    destruct r; reflexivity.
Qed.

(** Two object texts that differ in one string member only are different
    texts. *)
Lemma object_text_member_inj (pre post : list string) (k t t' : string) :
  "{" +:+ json_members (pre ++ (k +:+ ":" +:+ json_quote t) :: post) +:+ "}"
  = "{" +:+ json_members (pre ++ (k +:+ ":" +:+ json_quote t') :: post) +:+ "}" ->
  t = t'.
Proof.
  rewrite !json_members_split, !string_app_assoc.
  intros H.
  apply (inj (String.append _)) in H. apply (inj (String.append _)) in H.
  apply (inj (String.append _)) in H. apply (inj (String.append _)) in H.
  now apply json_quote_prefix_free in H.
Qed.

(* ===================================================================== *)
(** ** The verifier and the builder *)
(* ===================================================================== *)

Section Theory.
Context {node : NodeLib}.

Lemma report_run {A : Type} (b : bool) (x : A) (w : World) :
  report b x w = (inr x, w).
Proof. now destruct b. Qed.

(** *** The loop body against the checks *)

Ltac step_check :=
  cbn [is_some negb]; cbv beta iota; try (now rewrite report_run).

Ltac finish_entry w frameFile frameHash signature hash :=
  let p := fresh "p" in
  destruct (path_join frameFile) as [?|p]; [reflexivity|];
  unfold get;
  let Hf := fresh "Hf" in
  destruct (files w !! p) as [?|] eqn:Hf; step_check;
  rewrite Hf; cbv beta iota;
  destruct (strict_eq frameHash _); step_check;
  destruct (Buffer_from_hex signature) as [?|?]; step_check;
  destruct (crypto_verify _ _ _) as [?|[|]]; step_check;
  destruct (strict_eq hash _); step_check; reflexivity.

(** One turn of the loop returns what the first check that does not pass
    says, and leaves the world as it was. *)
Lemma verify_entry_outcome (b : bool) (publicKey : string) (chain : list JSValue)
    (i : nat) (w : World) :
  verify_entry b publicKey chain i w
  = (outcome_result i (length chain) (entry_outcome (files w) publicKey chain i), w).
Proof.
  unfold verify_entry, entry_outcome, all_checks. cbn [map first_failure].
  unfold run_check, check_entry, expected_previousHash, verify_chainData.
  destruct (readable_dec (nth i chain JUndefined)) as [Hr|Hr].
  2:{ destruct (nth i chain JUndefined); try (exfalso; apply Hr; exact I);
      reflexivity. }
  destruct (js_get_readable _ "index" Hr) as [index ->].
  destruct (js_get_readable _ "timestamp" Hr) as [timestamp ->].
  destruct (js_get_readable _ "frameFile" Hr) as [frameFile ->].
  destruct (js_get_readable _ "frameHash" Hr) as [frameHash ->].
  destruct (js_get_readable _ "previousHash" Hr) as [previousHash ->].
  destruct (js_get_readable _ "signature" Hr) as [signature ->].
  destruct (js_get_readable _ "hash" Hr) as [hash ->].
  cbv zeta.
  unfold bind, lift, get, try_catch, fs_existsSync, fs_readFileSync, bindE,
    pass_if, outcome_result.
  unfold ret.
  destruct (strict_eq index _); cbn [negb]; [|now rewrite report_run].
  destruct i as [|j].
  - cbn [Nat.eqb].
    destruct (strict_eq previousHash _); cbn [negb]; [|now rewrite report_run].
    finish_entry w frameFile frameHash signature hash.
  - cbn [Nat.eqb Nat.sub]. rewrite Nat.sub_0_r.
    destruct (js_get (nth j chain JUndefined) "hash") as [e|h]; [reflexivity|].
    destruct (strict_eq previousHash _); cbn [negb]; [|now rewrite report_run].
    finish_entry w frameFile frameHash signature hash.
Qed.

(** *** The loop *)

(** The verifier only reads. *)
Lemma verify_loop_world (b : bool) (publicKey : string) (chain : list JSValue)
    (w : World) (todo i : nat) :
  snd (verify_loop b publicKey chain i todo w) = w.
Proof.
  revert i. induction todo as [|todo IH]; intros i; cbn [verify_loop].
  - now rewrite report_run.
  - unfold bind. rewrite verify_entry_outcome.
    destruct (entry_outcome _ _ _ _); cbn [outcome_result]; try reflexivity.
    apply IH.
Qed.

Lemma verify_loop_pass (b : bool) (publicKey : string) (chain : list JSValue)
    (w : World) (todo i : nat) :
  (forall j, (i <= j < i + todo)%nat ->
     entry_outcome (files w) publicKey chain j = Pass) ->
  verify_loop b publicKey chain i todo w = (inr (VerifyOk (length chain)), w).
Proof.
  revert i. induction todo as [|todo IH]; intros i H; cbn [verify_loop].
  - apply report_run.
  - unfold bind. rewrite verify_entry_outcome, (H i) by lia.
    cbn [outcome_result]. apply IH. intros j Hj. apply H. lia.
Qed.

Lemma verify_loop_stop (b : bool) (publicKey : string) (chain : list JSValue)
    (w : World) (todo i j : nat) :
  (i <= j < i + todo)%nat ->
  (forall k, (i <= k < j)%nat -> entry_outcome (files w) publicKey chain k = Pass) ->
  entry_outcome (files w) publicKey chain j <> Pass ->
  verify_loop b publicKey chain i todo w
  = (stop_result j (length chain) (entry_outcome (files w) publicKey chain j), w).
Proof.
  revert i. induction todo as [|todo IH]; intros i Hj Hpass Hstop; [lia|].
  cbn [verify_loop]. unfold bind. rewrite verify_entry_outcome.
  destruct (Nat.eq_dec i j) as [->|Hne].
  - destruct (entry_outcome _ _ _ j); [contradiction| |]; reflexivity.
  - rewrite (Hpass i) by lia. cbn [outcome_result].
    apply IH; [lia| |assumption]. intros k Hk. apply Hpass. lia.
Qed.

Lemma verify_loop_ok_inv (b : bool) (publicKey : string) (chain : list JSValue)
    (w w' : World) (todo i n : nat) :
  verify_loop b publicKey chain i todo w = (inr (VerifyOk n), w') ->
  forall j, (i <= j < i + todo)%nat ->
    entry_outcome (files w) publicKey chain j = Pass.
Proof.
  revert i. induction todo as [|todo IH]; intros i H j Hj; [lia|].
  cbn [verify_loop] in H. unfold bind in H. rewrite verify_entry_outcome in H.
  destruct (entry_outcome (files w) publicKey chain i) eqn:E;
    cbn [outcome_result] in H; try discriminate.
  destruct (Nat.eq_dec i j) as [->|Hne]; [assumption|].
  apply (IH (S i)); [assumption|lia].
Qed.

(** *** [verifyChain] on a stored array *)

Lemma loadPublicKey_run (w : World) :
  loadPublicKey w
  = (match publicKeyFile w with
     | Some k => inr k
     | None => inl (Error "Public key not found. Run generate_keys.js first.")
     end, w).
Proof.
  unfold loadPublicKey, bind, get, fs_readText, throw.
  destruct (publicKeyFile w) eqn:E; cbn [is_some negb]; cbv beta iota;
    rewrite ?E; reflexivity.
Qed.

Lemma loadPrivateKey_run (w : World) :
  loadPrivateKey w
  = (match privateKeyFile w with
     | Some k => inr k
     | None => inl (Error "Private key not found. Run generate_keys.js first.")
     end, w).
Proof.
  unfold loadPrivateKey, bind, get, fs_readText, throw.
  destruct (privateKeyFile w) eqn:E; cbn [is_some negb]; cbv beta iota;
    rewrite ?E; reflexivity.
Qed.

Lemma verify_loadChain_run (w : World) :
  verify_loadChain w
  = (match chainFile w with
     | None => inr []
     | Some Unparseable => inl (Error "Failed to load chain.json")
     | Some (JsonArray entries) => inr entries
     end, w).
Proof.
  unfold verify_loadChain, bind, get, try_catch, JSON_parse_chainFile, throw, ret.
  destruct (chainFile w) as [[|]|] eqn:E; cbn [is_some negb]; cbv beta iota;
    rewrite ?E; reflexivity.
Qed.

Lemma ingest_loadChain_run (w : World) :
  ingest_loadChain w
  = (match chainFile w with
     | Some (JsonArray entries) => inr entries
     | _ => inr []
     end, w).
Proof.
  unfold ingest_loadChain, bind, get, try_catch, JSON_parse_chainFile, ret.
  destruct (chainFile w) as [[|]|] eqn:E; cbn [is_some negb]; cbv beta iota;
    rewrite ?E; reflexivity.
Qed.

Lemma verifyChain_run (b : bool) (w : World) (entries : list JSValue)
    (publicKey : string) :
  chainFile w = Some (JsonArray entries) ->
  entries <> [] ->
  publicKeyFile w = Some publicKey ->
  verifyChain b w = verify_loop b publicKey entries 0 (length entries) w.
Proof.
  intros Hc Hne Hk. unfold verifyChain, bind.
  rewrite verify_loadChain_run, Hc.
  destruct entries as [|e r]; [contradiction|]. cbn [length Nat.eqb].
  now rewrite loadPublicKey_run, Hk.
Qed.

Lemma verifyChain_world (b : bool) (w : World) : snd (verifyChain b w) = w.
Proof.
  unfold verifyChain, bind. rewrite verify_loadChain_run.
  destruct (chainFile w) as [[|entries]|]; try reflexivity.
  - destruct entries as [|e r]; cbn [length Nat.eqb]; [now rewrite report_run|].
    rewrite loadPublicKey_run. destruct (publicKeyFile w); [|reflexivity].
    apply verify_loop_world.
  - cbn [length Nat.eqb]. now rewrite report_run.
Qed.

(** A run that ends in [VerifyOk n] read an array of [n] entries and a
    public key, and every check passed on every entry. *)
Lemma verifyChain_ok_inv (b : bool) (w w' : World) (n : nat) :
  verifyChain b w = (inr (VerifyOk n), w') ->
  exists entries publicKey,
    chainFile w = Some (JsonArray entries) /\ publicKeyFile w = Some publicKey
    /\ length entries = n /\ entries <> []
    /\ forall j, (j < n)%nat -> entry_outcome (files w) publicKey entries j = Pass.
Proof.
  intros H. unfold verifyChain, bind in H. rewrite verify_loadChain_run in H.
  destruct (chainFile w) as [[|entries]|] eqn:Hc; try discriminate.
  2:{ cbn [length Nat.eqb] in H. rewrite report_run in H. discriminate. }
  destruct (length entries =? 0)%nat eqn:Hlen.
  { rewrite report_run in H. discriminate. }
  apply Nat.eqb_neq in Hlen.
  rewrite loadPublicKey_run in H.
  destruct (publicKeyFile w) as [pk|] eqn:Hk; [|discriminate].
  exists entries, pk.
  assert (Hall : forall j, (0 <= j < 0 + length entries)%nat ->
            entry_outcome (files w) pk entries j = Pass)
    by (eapply verify_loop_ok_inv; exact H).
  rewrite (verify_loop_pass b pk entries w _ 0 Hall) in H.
  injection H as Hn _.
  repeat split; try assumption.
  - intros ->. now apply Hlen.
  - intros j Hj. apply Hall. lia.
Qed.

(** *** Order of the checks and the first failure *)

Lemma first_failure_split {A : Type} (f : A -> status) (before after : list A)
    (c : A) :
  (forall c', In c' before -> f c' = Pass) ->
  f c <> Pass ->
  first_failure (map f (before ++ c :: after)) = f c.
Proof.
  intros Hb Hc. induction before as [|x r IH]; cbn [app map first_failure].
  - destruct (f c); [contradiction| |]; reflexivity.
  - rewrite (Hb x) by now left. apply IH. intros c' Hc'. apply Hb. now right.
Qed.

Lemma entry_outcome_pass (frames : gmap string (list byte)) (publicKey : string)
    (chain : list JSValue) (i : nat) :
  entry_outcome frames publicKey chain i = Pass
  <-> forall c, run_check frames publicKey chain i c = Pass.
Proof.
  unfold entry_outcome, all_checks. cbn [map first_failure]. split.
  - intros H c.
    destruct (run_check frames publicKey chain i SequenceCheck) eqn:E1; try discriminate.
    destruct (run_check frames publicKey chain i LinkageCheck) eqn:E2; try discriminate.
    destruct (run_check frames publicKey chain i ArtifactPresence) eqn:E3; try discriminate.
    destruct (run_check frames publicKey chain i ArtifactHash) eqn:E4; try discriminate.
    destruct (run_check frames publicKey chain i SignatureCheck) eqn:E5; try discriminate.
    destruct (run_check frames publicKey chain i EntryHashCheck) eqn:E6; try discriminate.
    destruct c; assumption.
  - intros H. now rewrite !H.
Qed.

(** A check on entry [i] reads the entries at positions [i] and [i - 1]
    only. *)
Lemma run_check_ext (frames : gmap string (list byte)) (publicKey : string)
    (chain chain' : list JSValue) (i : nat) (c : check) :
  nth i chain JUndefined = nth i chain' JUndefined ->
  nth (i - 1) chain JUndefined = nth (i - 1) chain' JUndefined ->
  run_check frames publicKey chain i c = run_check frames publicKey chain' i c.
Proof.
  intros H1 H2. unfold run_check, expected_previousHash. rewrite H1.
  destruct i as [|j]; [reflexivity|].
  cbn [Nat.sub] in H2. rewrite Nat.sub_0_r in H2. now rewrite H2.
Qed.

Lemma nth_take_app (chain later : list JSValue) (k j : nat) :
  (j < k <= length chain)%nat ->
  nth j (take k chain ++ later) JUndefined = nth j chain JUndefined.
Proof.
  intros H. rewrite app_nth1 by (rewrite length_take; lia).
  rewrite <- (take_drop k chain) at 2.
  rewrite app_nth1 by (rewrite length_take; lia). reflexivity.
Qed.

Lemma run_check_prefix (frames : gmap string (list byte)) (publicKey : string)
    (chain later : list JSValue) (k j : nat) (c : check) :
  (j < k <= length chain)%nat ->
  run_check frames publicKey (take k chain ++ later) j c
  = run_check frames publicKey chain j c.
Proof.
  intros H. apply run_check_ext; apply nth_take_app; lia.
Qed.

(** The result of [verifyChain] when entry [i] is the first with a check
    that does not pass and [c] is the first such check on it. *)
Lemma verifyChain_first_failure (b : bool) (w : World) (chain : list JSValue)
    (publicKey : string) (i : nat) (before after : list check) (c : check)
    (reason : string) :
  chainFile w = Some (JsonArray chain) ->
  publicKeyFile w = Some publicKey ->
  (i < length chain)%nat ->
  (forall j c', (j < i)%nat -> run_check (files w) publicKey chain j c' = Pass) ->
  all_checks = before ++ c :: after ->
  (forall c', In c' before -> run_check (files w) publicKey chain i c' = Pass) ->
  run_check (files w) publicKey chain i c = Fail reason ->
  verifyChain b w = (inr (VerifyFail i reason (length chain)), w).
Proof.
  intros Hc Hk Hi Hprev Hsplit Hbefore Hfail.
  assert (Hout : entry_outcome (files w) publicKey chain i = Fail reason).
  { unfold entry_outcome. rewrite Hsplit, first_failure_split; try assumption.
    rewrite Hfail. discriminate. }
  rewrite (verifyChain_run b w chain publicKey Hc) by
    (try assumption; intros ->; cbn in Hi; lia).
  rewrite (verify_loop_stop b publicKey chain w (length chain) 0 i).
  - now rewrite Hout.
  - lia.
  - intros k Hk'. apply entry_outcome_pass. intros c'. apply Hprev. lia.
  - rewrite Hout. discriminate.
Qed.

(** C2. [verifyChain] runs the checks of an entry in the order sequence,
    linkage, artifact presence, artifact hash, signature, entry hash: when
    every check passes on the entries before position [i], the checks listed
    before [c] pass on entry [i] and [c] fails on it with [reason], the run
    returns at once with success false, index [i] and that reason, and it
    writes nothing. The entries after position [i] have no influence: with
    any other entries [later] in their place the run fails at the same index
    with the same reason. *)
Theorem verify_stops_at_first_failure (b : bool) (w : World)
    (chain : list JSValue) (publicKey : string) (i : nat)
    (before after : list check) (c : check) (reason : string) :
  chainFile w = Some (JsonArray chain) ->
  publicKeyFile w = Some publicKey ->
  (i < length chain)%nat ->
  (forall j c', (j < i)%nat -> run_check (files w) publicKey chain j c' = Pass) ->
  all_checks = before ++ c :: after ->
  (forall c', In c' before -> run_check (files w) publicKey chain i c' = Pass) ->
  run_check (files w) publicKey chain i c = Fail reason ->
  verifyChain b w = (inr (VerifyFail i reason (length chain)), w)
  /\ forall later : list JSValue,
       let w' := set_chainFile (Some (JsonArray (take (S i) chain ++ later))) w in
       verifyChain b w' = (inr (VerifyFail i reason (S i + length later)), w').
Proof.
  intros Hc Hk Hi Hprev Hsplit Hbefore Hfail. split.
  - eapply verifyChain_first_failure; eassumption.
  - intros later w'.
    assert (Hlen : length (take (S i) chain ++ later) = (S i + length later)%nat)
      by (rewrite length_app, length_take; lia).
    rewrite <- Hlen.
    apply (verifyChain_first_failure b w' _ publicKey i before after c reason);
      try assumption; try reflexivity.
    + rewrite Hlen. lia.
    + intros j c' Hj. cbn [w' files set_chainFile].
      rewrite run_check_prefix by lia. now apply Hprev.
    + intros c' Hc'. cbn [w' files set_chainFile].
      rewrite run_check_prefix by lia. now apply Hbefore.
    + cbn [w' files set_chainFile]. rewrite run_check_prefix by lia. assumption.
Qed.

(** *** Ingestion *)

Lemma ingest_loadChain_loaded (w : World) :
  ingest_loadChain w = (inr (loaded_chain w), w).
Proof.
  rewrite ingest_loadChain_run. unfold loaded_chain.
  now destruct (chainFile w) as [[|]|].
Qed.

(** The run of [ingestFrame] when the frame is there, the head of the chain
    can be read and the private key signs: one entry is appended to the
    array that was loaded, and nothing else is written. *)
Lemma ingestFrame_run (now p : string) (w : World) (d : list byte)
    (ph : JSValue) (sk : string) (s : list byte) :
  let chain := loaded_chain w in
  let n := length chain in
  files w !! p = Some d ->
  head_hash chain = inr ph ->
  privateKeyFile w = Some sk ->
  crypto_sign
    (Buffer_from_string
       (ingest_chainData (JNum (Z.of_nat n)) (JStr now) (JStr (path_basename p))
          (JStr (sha256_hex d)) ph)) sk = inr s ->
  ingestFrame now p w
  = (inr (new_entry n now (path_basename p) d ph s),
     set_chainFile
       (Some (JsonArray
          (map json_reload_elem (chain ++ [new_entry n now (path_basename p) d ph s]))))
       w).
Proof.
  intros chain n Hd Hh Hk Hs. unfold ingestFrame.
  unfold bind at 1. unfold fs_existsSync, get. rewrite Hd. cbn [is_some negb].
  unfold bind at 1. unfold fs_readFileSync. rewrite Hd.
  unfold bind at 1. rewrite ingest_loadChain_loaded.
  fold chain. fold n. unfold head_hash in Hh. fold n in Hh.
  unfold bind at 1.
  assert (Hph : (if (0 <? n)%nat
                 then lift (js_get (nth (n - 1) chain JUndefined) "hash")
                 else ret (JStr ZERO_HASH)) w = (inr ph, w)).
  { unfold lift, ret. destruct (0 <? n)%nat; now rewrite ?Hh; inversion Hh. }
  rewrite Hph.
  unfold bind at 1. rewrite loadPrivateKey_run, Hk.
  unfold bind at 1. unfold lift. rewrite Hs.
  unfold bind, saveChain, modify, ret. reflexivity.
Qed.

Lemma built_entry_reload (e : JSValue) : built_entry e -> json_reload_elem e = e.
Proof. intros (i & ts & ff & fh & ph & sg & h & ->). reflexivity. Qed.

Lemma built_chain_reload (chain : list JSValue) :
  Forall built_entry chain -> map json_reload_elem chain = chain.
Proof.
  induction 1 as [|e r He _ IH]; [reflexivity|].
  cbn [map]. now rewrite built_entry_reload, IH.
Qed.

Lemma new_entry_built (n : nat) (ts ff : string) (d : list byte) (ph : string)
    (sg : list byte) :
  built_entry (new_entry n ts ff d (JStr ph) sg).
Proof. unfold built_entry, new_entry. repeat eexists. Qed.

Lemma built_entry_hash (e : JSValue) :
  built_entry e -> exists h, js_get e "hash" = inr (JStr h).
Proof. intros (i & ts & ff & fh & ph & sg & h & ->). now exists h. Qed.

(** The head hash of a chain of built entries is a string. *)
Lemma head_hash_built (chain : list JSValue) :
  Forall built_entry chain -> exists ph, head_hash chain = inr (JStr ph).
Proof.
  intros H. unfold head_hash.
  destruct (0 <? length chain)%nat eqn:E; [|now eexists].
  apply Nat.ltb_lt in E. apply built_entry_hash.
  rewrite Forall_forall in H. apply H, list_elem_of_In, nth_In. lia.
Qed.

(** The payload that verification recomputes from the entry that ingestion
    assembled is the payload that ingestion signed. *)
Lemma verify_chainData_new_entry (n : nat) (ts ff : string) (d : list byte)
    (ph : JSValue) (sg : list byte) :
  verify_chainData (new_entry n ts ff d ph sg)
  = inr (ingest_chainData (JNum (Z.of_nat n)) (JStr ts) (JStr ff)
           (JStr (sha256_hex d)) ph).
Proof. reflexivity. Qed.

(** Every check passes on the entry that [ingestFrame] appends, when the
    key pair is sound and the frame, as the verifier resolves it, holds the
    bytes that were ingested. *)
Lemma new_entry_passes (frames : gmap string (list byte)) (pk sk : string)
    (chain : list JSValue) (ts p : string) (d : list byte) (ph : string)
    (s : list byte) (c : check) :
  let n := length chain in
  let payload :=
    Buffer_from_string
      (ingest_chainData (JNum (Z.of_nat n)) (JStr ts) (JStr (path_basename p))
         (JStr (sha256_hex d)) (JStr ph)) in
  head_hash chain = inr (JStr ph) ->
  frames !! path_join_images (path_basename p) = Some d ->
  crypto_verify payload pk s = inr true ->
  run_check frames pk (chain ++ [new_entry n ts (path_basename p) d (JStr ph) s]) n c
  = Pass.
Proof.
  intros n payload Hh Hd Hv.
  unfold run_check, check_entry, expected_previousHash.
  subst n. rewrite nth_middle. set (n := length chain) in *.
  rewrite verify_chainData_new_entry.
  change (js_get (new_entry n ts (path_basename p) d (JStr ph) s) "index")
    with (@inr exn _ (JNum (Z.of_nat n))).
  change (js_get (new_entry n ts (path_basename p) d (JStr ph) s) "previousHash")
    with (@inr exn _ (JStr ph)).
  change (js_get (new_entry n ts (path_basename p) d (JStr ph) s) "frameFile")
    with (@inr exn _ (JStr (path_basename p))).
  change (js_get (new_entry n ts (path_basename p) d (JStr ph) s) "frameHash")
    with (@inr exn _ (JStr (sha256_hex d))).
  change (js_get (new_entry n ts (path_basename p) d (JStr ph) s) "signature")
    with (@inr exn _ (JStr (hex_encode s))).
  change (js_get (new_entry n ts (path_basename p) d (JStr ph) s) "hash")
    with (@inr exn _ (JStr (sha256_hex payload))).
  cbn [bindE path_join Buffer_from_hex]. rewrite Hd, hex_decode_encode.
  fold payload. rewrite Hv. cbn [is_some].
  rewrite strict_eq_num, !strict_eq_str. cbn [pass_if].
  destruct c; try reflexivity.
  unfold head_hash in Hh. fold n in Hh.
  destruct n as [|m] eqn:En.
  - cbn in Hh. injection Hh as <-. now rewrite strict_eq_str.
  - cbn [Nat.ltb Nat.leb Nat.sub] in Hh. rewrite Nat.sub_0_r in Hh.
    rewrite app_nth1 by (unfold n in En; lia).
    rewrite Hh. now rewrite strict_eq_str.
Qed.

(** A stored chain on which every check passes verifies with its length. *)
Lemma verifyChain_valid (b : bool) (w : World) (pk : string) :
  chainFile w <> Some Unparseable ->
  publicKeyFile w = Some pk ->
  (forall j c, (j < length (loaded_chain w))%nat ->
     run_check (files w) pk (loaded_chain w) j c = Pass) ->
  exists r, verifyChain b w = (inr r, w)
            /\ success r = true /\ count r = length (loaded_chain w).
Proof.
  intros Hc Hk Hpass. unfold loaded_chain in *.
  destruct (chainFile w) as [[|entries]|] eqn:E; [contradiction| |].
  - destruct entries as [|e r].
    + exists ChainEmpty. unfold verifyChain, bind.
      rewrite verify_loadChain_run, E. cbn [length Nat.eqb].
      now rewrite report_run.
    + exists (VerifyOk (length (e :: r))).
      rewrite (verifyChain_run b w (e :: r) pk E) by (assumption || discriminate).
      rewrite verify_loop_pass; [now repeat split|].
      intros j Hj. apply entry_outcome_pass. intros c. apply Hpass. lia.
  - exists ChainEmpty. unfold verifyChain, bind.
    rewrite verify_loadChain_run, E. cbn [length Nat.eqb].
    now rewrite report_run.
Qed.

(** One ingestion keeps a chain of built entries that passes every check
    in that state, and lengthens it by one. *)
Lemma ingestFrame_keeps_valid (now p : string) (w : World) (pk sk : string)
    (d : list byte) :
  privateKeyFile w = Some sk ->
  keypair_ok pk sk ->
  Forall built_entry (loaded_chain w) ->
  (forall j c, (j < length (loaded_chain w))%nat ->
     run_check (files w) pk (loaded_chain w) j c = Pass) ->
  files w !! p = Some d ->
  files w !! path_join_images (path_basename p) = Some d ->
  exists e,
    let w' := set_chainFile (Some (JsonArray (loaded_chain w ++ [e]))) w in
    ingestFrame now p w = (inr e, w')
    /\ Forall built_entry (loaded_chain w')
    /\ (forall j c, (j < length (loaded_chain w'))%nat ->
          run_check (files w') pk (loaded_chain w') j c = Pass).
Proof.
  intros Hsk Hkp Hbuilt Hpass Hd Hd'.
  destruct (head_hash_built _ Hbuilt) as [ph Hph].
  set (chain := loaded_chain w) in *. set (n := length chain) in *.
  destruct (Hkp (Buffer_from_string
    (ingest_chainData (JNum (Z.of_nat n)) (JStr now) (JStr (path_basename p))
       (JStr (sha256_hex d)) (JStr ph)))) as (s & Hs & Hv).
  exists (new_entry n now (path_basename p) d (JStr ph) s).
  assert (Hb' : Forall built_entry
            (chain ++ [new_entry n now (path_basename p) d (JStr ph) s])).
  { apply Forall_app. split; [assumption|].
    constructor; [apply new_entry_built|constructor]. }
  cbv zeta. repeat split.
  - rewrite (ingestFrame_run now p w d (JStr ph) sk s Hd Hph Hsk Hs).
    fold chain. fold n. now rewrite (built_chain_reload _ Hb').
  - exact Hb'.
  - cbn [loaded_chain chainFile set_chainFile files]. intros j c Hj.
    rewrite length_app in Hj. cbn [length] in Hj.
    destruct (Nat.eq_dec j n) as [->|Hne].
    + now apply (new_entry_passes (files w) pk sk chain now p d ph s c).
    + rewrite <- (Hpass j c) by (fold chain; fold n; lia).
      fold chain. apply run_check_ext; rewrite !app_nth1; fold n; try lia;
        reflexivity.
Qed.

(** A run of [N] ingestions from a chain that passes every check ends in a
    chain, longer by [N], that passes every check. *)
Lemma ingestAll_keeps_valid (now : nat -> string) (pk sk : string)
    (paths : list string) :
  keypair_ok pk sk ->
  forall (w : World) (k : nat),
    publicKeyFile w = Some pk ->
    privateKeyFile w = Some sk ->
    chainFile w <> Some Unparseable ->
    Forall built_entry (loaded_chain w) ->
    (forall j c, (j < length (loaded_chain w))%nat ->
       run_check (files w) pk (loaded_chain w) j c = Pass) ->
    (forall p, In p paths ->
       exists d, files w !! p = Some d
                 /\ files w !! path_join_images (path_basename p) = Some d) ->
    exists w',
      ingestAll now k paths w = (inr tt, w')
      /\ publicKeyFile w' = Some pk
      /\ chainFile w' <> Some Unparseable
      /\ length (loaded_chain w') = (length (loaded_chain w) + length paths)%nat
      /\ (forall j c, (j < length (loaded_chain w'))%nat ->
            run_check (files w') pk (loaded_chain w') j c = Pass).
Proof.
  intros Hkp. induction paths as [|p r IH]; intros w k Hpk Hsk Hc Hb Hpass Hfiles.
  - exists w. cbn [ingestAll length]. rewrite Nat.add_0_r. now repeat split.
  - destruct (Hfiles p (or_introl eq_refl)) as (d & Hd & Hd').
    destruct (ingestFrame_keeps_valid (now k) p w pk sk d Hsk Hkp Hb Hpass Hd Hd')
      as (e & Hrun & Hb' & Hpass').
    cbv zeta in Hrun, Hb', Hpass'.
    set (w1 := set_chainFile (Some (JsonArray (loaded_chain w ++ [e]))) w) in *.
    destruct (IH w1 (S k)) as (w' & Hrun' & Hpk' & Hc' & Hlen' & Hpass'');
      try assumption; try discriminate.
    { intros q Hq. apply Hfiles. now right. }
    exists w'. cbn [ingestAll]. unfold bind. rewrite Hrun. repeat split;
      try assumption.
    rewrite Hlen'. cbn [w1 loaded_chain chainFile set_chainFile length].
    rewrite length_app. cbn [length]. lia.
Qed.

(** C1, as the code has it. With a sound key pair in place, a chain file
    that is absent or holds the empty array, and [N] paths each of which
    holds a frame while the file that the verifier resolves for its entry,
    [images/<base name of the path>], holds the same bytes (it is the
    ingested file itself when that lies in [images]), [N] sequential calls
    of [ingestFrame] all return and the chain they leave verifies: success
    is true and count is [N] (for [N = 0], success with count 0). *)
Theorem ingest_then_verify (b : bool) (now : nat -> string) (w : World)
    (pk sk : string) (paths : list string) :
  publicKeyFile w = Some pk ->
  privateKeyFile w = Some sk ->
  keypair_ok pk sk ->
  chainFile w = None \/ chainFile w = Some (JsonArray []) ->
  (forall p, In p paths ->
     exists d, files w !! p = Some d
               /\ files w !! path_join_images (path_basename p) = Some d) ->
  exists w' r,
    ingestAll now 0 paths w = (inr tt, w')
    /\ verifyChain b w' = (inr r, w')
    /\ success r = true
    /\ count r = length paths.
Proof.
  intros Hpk Hsk Hkp Hc Hfiles.
  assert (Hempty : loaded_chain w = []).
  { unfold loaded_chain. now destruct Hc as [-> | ->]. }
  destruct (ingestAll_keeps_valid now pk sk paths Hkp w 0)
    as (w' & Hrun & Hpk' & Hc' & Hlen & Hpass); try assumption.
  - destruct Hc as [-> | ->]; discriminate.
  - rewrite Hempty. constructor.
  - rewrite Hempty. cbn [length]. intros j c Hj. lia.
  - destruct (verifyChain_valid b w' pk Hc' Hpk' Hpass) as (r & Hv & Hs & Hn).
    exists w', r. repeat split; try assumption.
    rewrite Hn, Hlen, Hempty. reflexivity.
Qed.

End Theory.

(* ===================================================================== *)
(** ** The signed payload *)
(* ===================================================================== *)

Section Payload.
Context {node : NodeLib}.

Lemma verify_chainData_object (props : list (string * JSValue)) :
  verify_chainData (JObj props)
  = inr (ingest_chainData (prop "index" props) (prop "timestamp" props)
           (prop "frameFile" props) (prop "frameHash" props)
           (prop "previousHash" props)).
Proof. reflexivity. Qed.

Lemma ingest_chainData_reload (i t f h p : JSValue) :
  ingest_chainData i t f h (json_reload p) = ingest_chainData i t f h p.
Proof.
  unfold ingest_chainData, stringify_object. cbn [JSON_stringify].
  now rewrite stringify_reload.
Qed.

(** C3. The payload that [verifyChain] recomputes is the payload that
    [ingestFrame] signs and hashes: (1) on a stored object it is the
    serialization, by the function used at ingestion, of the five values
    read from index, timestamp, frameFile, frameHash and previousHash;
    (2) on the entry that [ingestFrame] has assembled, written to the chain
    file and read back, it is the very text that was signed; (3) it does not
    change when signature or hash are given other values; (4) the five
    properties are written in that fixed order. Both are functions of the
    five values, so equal values give equal bytes. *)
Theorem payload_same_at_ingest_and_verify :
  (forall props : list (string * JSValue),
     verify_chainData (JObj props)
     = inr (ingest_chainData (prop "index" props) (prop "timestamp" props)
              (prop "frameFile" props) (prop "frameHash" props)
              (prop "previousHash" props)))
  /\ (forall (n : nat) (ts ff : string) (d : list byte) (ph : JSValue)
             (sg : list byte),
        verify_chainData (json_reload_elem (new_entry n ts ff d ph sg))
        = inr (ingest_chainData (JNum (Z.of_nat n)) (JStr ts) (JStr ff)
                 (JStr (sha256_hex d)) ph))
  /\ (forall (props : list (string * JSValue)) (v : JSValue),
        verify_chainData (JObj (set_prop "signature" v props))
        = verify_chainData (JObj props)
        /\ verify_chainData (JObj (set_prop "hash" v props))
           = verify_chainData (JObj props))
  /\ (forall (i : Z) (t f h p : string),
        ingest_chainData (JNum i) (JStr t) (JStr f) (JStr h) (JStr p)
        = "{" +:+ json_members
            [json_quote "index" +:+ ":" +:+ pretty i;
             json_quote "timestamp" +:+ ":" +:+ json_quote t;
             json_quote "frameFile" +:+ ":" +:+ json_quote f;
             json_quote "frameHash" +:+ ":" +:+ json_quote h;
             json_quote "previousHash" +:+ ":" +:+ json_quote p] +:+ "}").
Proof.
  split; [|split; [|split]].
  - exact verify_chainData_object.
  - intros n ts ff d ph sg.
    destruct ph; try reflexivity;
      match goal with
      | |- verify_chainData (json_reload_elem (new_entry _ _ _ _ ?p _)) = _ =>
          change (inr (ingest_chainData (JNum (Z.of_nat n)) (JStr ts) (JStr ff)
                         (JStr (sha256_hex d)) (json_reload p))
                  = @inr exn _ (ingest_chainData (JNum (Z.of_nat n)) (JStr ts) (JStr ff)
                         (JStr (sha256_hex d)) p))
      end; now rewrite ingest_chainData_reload.
  - intros props v. rewrite !verify_chainData_object.
    rewrite !prop_set_prop_ne by discriminate. split; reflexivity.
  - reflexivity.
Qed.

End Payload.





Section PayloadInjective.
Context {node : NodeLib}.


Lemma chainData_timestamp_inj (z : Z) (t t' : string) (f h p : JSValue) :
  ingest_chainData (JNum z) (JStr t) f h p = ingest_chainData (JNum z) (JStr t') f h p ->
  t = t'.
Proof.
  assert (H : exists post, forall x,
    ingest_chainData (JNum z) (JStr x) f h p
    = "{" +:+ json_members ([json_quote "index" +:+ ":" +:+ pretty z]
         ++ (json_quote "timestamp" +:+ ":" +:+ json_quote x) :: post) +:+ "}").
  { eexists. intros x. reflexivity. }
  destruct H as [post H]. rewrite !H. apply object_text_member_inj.
Qed.


End PayloadInjective.

(* ===================================================================== *)
(** ** Tampering with an artifact *)
(* ===================================================================== *)

Section ArtifactTamper.
Context {node : NodeLib}.

(** The artifact checks read the frames at the path of the entry only. *)
Lemma run_check_frames_ext (frames frames' : gmap string (list byte))
    (publicKey : string) (chain : list JSValue) (j : nat) (c : check) :
  (forall q, artifact_path (nth j chain JUndefined) = Some q ->
     frames' !! q = frames !! q) ->
  run_check frames' publicKey chain j c = run_check frames publicKey chain j c.
Proof.
  intros H. unfold run_check, check_entry, artifact_path in *.
  destruct c; try reflexivity;
    destruct (js_get (nth j chain JUndefined) "frameFile") as [e|[]];
    cbn [bindE path_join] in *; try reflexivity;
    now rewrite (H _ eq_refl).
Qed.

Lemma artifact_checks_inv (frames : gmap string (list byte)) (publicKey : string)
    (chain : list JSValue) (i : nat) :
  run_check frames publicKey chain i ArtifactPresence = Pass ->
  run_check frames publicKey chain i ArtifactHash = Pass ->
  exists f d,
    js_get (nth i chain JUndefined) "frameFile" = inr (JStr f)
    /\ frames !! path_join_images f = Some d
    /\ js_get (nth i chain JUndefined) "frameHash" = inr (JStr (sha256_hex d)).
Proof.
  unfold run_check, check_entry. intros H1 H2.
  destruct (js_get (nth i chain JUndefined) "frameFile") as [e|v];
    cbn [bindE] in *; [discriminate|].
  destruct v; cbn [path_join] in *; try discriminate.
  destruct (js_get (nth i chain JUndefined) "frameHash") as [e|h]; [discriminate|].
  destruct (frames !! path_join_images s) as [d|] eqn:Hd; [|discriminate].
  exists s, d. repeat split; try assumption.
  unfold pass_if in H2.
  destruct (strict_eq h (JStr (sha256_hex d))) eqn:E; [|discriminate].
  apply strict_eq_eq in E. now subst.
Qed.

Lemma sha256_hex_neq (d d' : list byte) :
  sha256 d' <> sha256 d -> strict_eq (JStr (sha256_hex d)) (JStr (sha256_hex d')) = false.
Proof.
  intros H. cbn [strict_eq]. apply String.eqb_neq. intros E.
  apply hex_encode_inj in E. now symmetry in E.
Qed.

(** C4, as the code has it. On a chain that verifies, flip one byte of the
    frame that entry [i] references. If no entry before [i] references the
    same file, and SHA-256 does not collide on the flipped file and the
    original, verification fails at index [i] exactly, with reason
    'frame hash mismatch'. *)
Theorem artifact_tamper_detected (b : bool) (w : World) (n i k : nat)
    (p : string) (d : list byte) :
  verifyChain b w = (inr (VerifyOk n), w) ->
  (i < n)%nat ->
  artifact_path (nth i (loaded_chain w) JUndefined) = Some p ->
  files w !! p = Some d ->
  (k < length d)%nat ->
  (flip_byte k d <> d -> sha256 (flip_byte k d) <> sha256 d) ->
  (forall j, (j < i)%nat ->
     artifact_path (nth j (loaded_chain w) JUndefined) <> Some p) ->
  verifyChain b (tamper_frame p k w)
  = (inr (VerifyFail i "frame hash mismatch" n), tamper_frame p k w).
Proof.
  intros Hok Hi Hp Hd Hk Hcol Hfirst.
  pose proof (Hcol (flip_byte_neq k d Hk)) as Hsha.
  destruct (verifyChain_ok_inv b w w n Hok)
    as (chain & pk & Hc & Hpk & Hlen & Hne & Hall).
  assert (Hl : loaded_chain w = chain) by (unfold loaded_chain; now rewrite Hc).
  rewrite Hl in *. unfold tamper_frame. rewrite Hd.
  set (w' := set_files (<[p:=flip_byte k d]> (files w)) w).
  assert (Hpass : forall j c, (j < n)%nat -> run_check (files w) pk chain j c = Pass).
  { intros j c Hj. now apply entry_outcome_pass, Hall. }
  destruct (artifact_checks_inv (files w) pk chain i (Hpass i _ Hi) (Hpass i _ Hi))
    as (f & d0 & Hf & Hd0 & Hh).
  assert (Hpf : p = path_join_images f).
  { unfold artifact_path in Hp. rewrite Hf in Hp. now injection Hp. }
  subst p. rewrite Hd in Hd0. injection Hd0 as <-.
  rewrite <- Hlen.
  apply (verifyChain_first_failure b w' chain pk i
           [SequenceCheck; LinkageCheck; ArtifactPresence] [SignatureCheck; EntryHashCheck]
           ArtifactHash); try assumption; try reflexivity; try lia.
  - intros j c Hj. cbn [w' files set_files].
    rewrite (run_check_frames_ext (files w)); [apply Hpass; lia|].
    intros q Hq. apply lookup_insert_ne. intros <-. now apply (Hfirst j).
  - intros c [<-|[<-|[<-|[]]]]; cbn [w' files set_files].
    + rewrite <- (Hpass i SequenceCheck Hi). reflexivity.
    + rewrite <- (Hpass i LinkageCheck Hi). reflexivity.
    + unfold run_check, check_entry. rewrite Hf. cbn [bindE path_join].
      now rewrite lookup_insert_eq.
  - cbn [w' files set_files]. unfold run_check, check_entry. rewrite Hf, Hh.
    cbn [bindE path_join]. rewrite lookup_insert_eq.
    now rewrite sha256_hex_neq.
Qed.

End ArtifactTamper.

(* ===================================================================== *)
(** ** Tampering with a stored entry *)
(* ===================================================================== *)

Section FieldTamper.
Context {node : NodeLib}.

Lemma verify_chainData_payload (props : list (string * JSValue)) :
  verify_chainData (JObj props) = inr (entry_payload props).
Proof. reflexivity. Qed.

Lemma pass_if_pass (b : bool) (reason : string) : pass_if b reason = Pass -> b = true.
Proof. now destruct b. Qed.

(** What the six checks establish about an object on which they pass. *)
Lemma checks_pass_inv (frames : gmap string (list byte)) (pk : string) (i : nat)
    (expected : exn + JSValue) (props : list (string * JSValue)) :
  (forall c, check_entry frames pk i expected (JObj props) c = Pass) ->
  prop "index" props = JNum (Z.of_nat i)
  /\ expected = inr (prop "previousHash" props)
  /\ (exists f d, prop "frameFile" props = JStr f
                 /\ frames !! path_join_images f = Some d
                 /\ prop "frameHash" props = JStr (sha256_hex d))
  /\ (exists sg, Buffer_from_hex (prop "signature" props) = inr sg
               /\ crypto_verify (Buffer_from_string (entry_payload props)) pk sg
                  = inr true)
  /\ prop "hash" props
     = JStr (sha256_hex (Buffer_from_string (entry_payload props))).
Proof.
  intros H.
  pose proof (H SequenceCheck) as H1. pose proof (H LinkageCheck) as H2.
  pose proof (H ArtifactPresence) as H3. pose proof (H ArtifactHash) as H4.
  pose proof (H SignatureCheck) as H5. pose proof (H EntryHashCheck) as H6.
  unfold check_entry in H1, H2, H3, H4, H5, H6.
  rewrite verify_chainData_payload in H5, H6. cbn [js_get bindE] in *.
  repeat apply conj.
  - now apply pass_if_pass, strict_eq_eq in H1.
  - destruct expected as [e|h]; [discriminate|].
    apply pass_if_pass, strict_eq_eq in H2. now rewrite H2.
  - destruct (prop "frameFile" props); cbn [path_join] in *; try discriminate.
    destruct (frames !! path_join_images s) as [d|] eqn:Hd; [|discriminate].
    exists s, d. repeat split; [assumption|].
    now apply pass_if_pass, strict_eq_eq in H4.
  - destruct (Buffer_from_hex (prop "signature" props)) as [e|sg]; [discriminate|].
    exists sg. split; [reflexivity|]. cbn [bindE] in H5.
    destruct (crypto_verify _ pk sg) as [e|[|]]; try discriminate. reflexivity.
  - now apply pass_if_pass, strict_eq_eq in H6.
Qed.

Lemma strict_eq_other (v u : JSValue) : v <> u -> strict_eq v u = false.
Proof.
  intros H. destruct (strict_eq v u) eqn:E; [|reflexivity].
  now apply strict_eq_eq in E.
Qed.








End FieldTamper.

(* ===================================================================== *)
(** ** Files and directories *)
(* ===================================================================== *)

Section DirectoriesTheory.
Context {node : NodeLib}.

(** A directory changes a turn of the loop in one case only: the entry
    passes the sequence and the linkage check and its frameFile resolves to
    a directory; the turn then throws EISDIR. *)
Lemma verify_entry_in_cases (dirs : gset string) (b : bool) (pk : string)
    (chain : list JSValue) (i : nat) (w : World) :
  verify_entry_in dirs b pk chain i w = verify_entry b pk chain i w
  \/ (verify_entry_in dirs b pk chain i w = (inl (SystemError "EISDIR"), w)
      /\ exists q, artifact_path (nth i chain JUndefined) = Some q
                   /\ files w !! q = None /\ q ∈ dirs).
Proof.
  unfold verify_entry_in, verify_entry, artifact_path.
  unfold bind, lift.
  destruct (js_get (nth i chain JUndefined) "index") as [e|index];
    [left; reflexivity|].
  destruct (negb (strict_eq index (JNum (Z.of_nat i)))); [left; reflexivity|].
  destruct ((if (i =? 0)%nat then ret (JStr ZERO_HASH)
             else fun w0 => (js_get (nth (i - 1) chain JUndefined) "hash", w0)) w)
    as [[e|expected] w1] eqn:He; [left; reflexivity|].
  assert (w1 = w) as ->.
  { unfold ret in He. destruct (i =? 0)%nat; now inversion He. }
  destruct (js_get (nth i chain JUndefined) "previousHash") as [e|ph];
    [left; reflexivity|].
  destruct (negb (strict_eq ph expected)); [left; reflexivity|].
  destruct (js_get (nth i chain JUndefined) "frameFile") as [e|ff];
    [left; reflexivity|].
  destruct ff as [| | | |f| |]; cbn [path_join]; try (left; reflexivity).
  unfold fs_existsSync_in, fs_existsSync, get.
  destruct (files w !! path_join_images f) as [d|] eqn:Hd; cbn [is_some orb negb].
  - left. unfold fs_readFileSync_in, fs_readFileSync.
    now rewrite Hd.
  - destruct (bool_decide (path_join_images f ∈ dirs)) eqn:Hq; cbn [negb].
    + right. unfold fs_readFileSync_in. rewrite Hd, Hq.
      split; [reflexivity|]. exists (path_join_images f).
      repeat split; [assumption|]. now apply bool_decide_eq_true in Hq.
    + left. reflexivity.
Qed.

Lemma verify_entry_in_agree (dirs : gset string) (b : bool) (pk : string)
    (chain : list JSValue) (i : nat) (w : World) :
  (forall q, artifact_path (nth i chain JUndefined) = Some q ->
     files w !! q = None -> q ∉ dirs) ->
  verify_entry_in dirs b pk chain i w = verify_entry b pk chain i w.
Proof.
  intros H. destruct (verify_entry_in_cases dirs b pk chain i w)
    as [E|(_ & q & Hq & Hn & Hin)]; [assumption|].
  now destruct (H q Hq Hn).
Qed.

(** The loop over files and directories does what the loop over files does
    up to the entry at which that loop stops, when none of the frame paths
    up to there is a directory. *)
Lemma verify_loop_in_stop (dirs : gset string) (b : bool) (publicKey : string)
    (chain : list JSValue) (w : World) (todo i k : nat) :
  (i <= k < i + todo)%nat ->
  (forall j q, (i <= j <= k)%nat -> artifact_path (nth j chain JUndefined) = Some q ->
     files w !! q = None -> q ∉ dirs) ->
  (forall j, (i <= j < k)%nat -> entry_outcome (files w) publicKey chain j = Pass) ->
  entry_outcome (files w) publicKey chain k <> Pass ->
  verify_loop_in dirs b publicKey chain i todo w
  = (stop_result k (length chain) (entry_outcome (files w) publicKey chain k), w).
Proof.
  revert i. induction todo as [|todo IH]; intros i Hk Hd Hp Hf; [lia|].
  cbn [verify_loop_in]. unfold bind.
  rewrite verify_entry_in_agree by (intros q; apply Hd; lia).
  rewrite verify_entry_outcome.
  destruct (Nat.eq_dec i k) as [->|Hne].
  - destruct (entry_outcome (files w) publicKey chain k); [contradiction| |]; reflexivity.
  - rewrite (Hp i) by lia. cbn [outcome_result].
    apply IH; try assumption; try lia.
    + intros j q Hj. apply Hd. lia.
    + intros j Hj. apply Hp. lia.
Qed.


(** A turn of the loop on an entry that passes the sequence and the
    linkage check and whose frameFile resolves to a directory. *)
Lemma verify_entry_in_directory (dirs : gset string) (b : bool) (pk : string)
    (chain : list JSValue) (i : nat) (w : World) (f : string) :
  run_check (files w) pk chain i SequenceCheck = Pass ->
  run_check (files w) pk chain i LinkageCheck = Pass ->
  js_get (nth i chain JUndefined) "frameFile" = inr (JStr f) ->
  files w !! path_join_images f = None ->
  path_join_images f ∈ dirs ->
  verify_entry_in dirs b pk chain i w = (inl (SystemError "EISDIR"), w).
Proof.
  intros H1 H2 Hf Hn Hd.
  destruct (verify_entry_in_cases dirs b pk chain i w) as [E|[E _]]; [|assumption].
  exfalso. revert E. unfold verify_entry_in, verify_entry, run_check, check_entry in *.
  unfold bind, lift.
  destruct (js_get (nth i chain JUndefined) "index") as [e|index]; [discriminate H1|].
  apply pass_if_pass in H1. rewrite H1. cbn [negb].
  unfold expected_previousHash in H2.
  assert (He : (if (i =? 0)%nat then ret (JStr ZERO_HASH)
                else fun w0 => (js_get (nth (i - 1) chain JUndefined) "hash", w0)) w
               = (match i with
                  | O => inr (JStr ZERO_HASH)
                  | S j => js_get (nth j chain JUndefined) "hash"
                  end, w)).
  { destruct i as [|j]; [reflexivity|]. cbn [Nat.eqb Nat.sub]. now rewrite Nat.sub_0_r. }
  rewrite He.
  destruct (match i with
            | O => inr (JStr ZERO_HASH)
            | S j => js_get (nth j chain JUndefined) "hash"
            end) as [e|expected]; [discriminate H2|].
  destruct (js_get (nth i chain JUndefined) "previousHash") as [e|ph]; [discriminate H2|].
  apply pass_if_pass in H2. rewrite H2. cbn [negb].
  rewrite Hf. cbn [path_join].
  unfold fs_existsSync_in, fs_existsSync, fs_readFileSync_in, get.
  rewrite Hn. rewrite bool_decide_eq_true_2 by assumption.
  cbn [is_some orb negb]. rewrite ?Hn, report_run. discriminate.
Qed.

(** The loop and [verifyChain] over files and directories, up to the entry
    at which the turn throws on a directory. *)
Lemma verify_loop_in_directory (dirs : gset string) (b : bool) (publicKey : string)
    (chain : list JSValue) (w : World) (todo i k : nat) (f : string) :
  (i <= k < i + todo)%nat ->
  (forall j c, (i <= j < k)%nat -> run_check (files w) publicKey chain j c = Pass) ->
  run_check (files w) publicKey chain k SequenceCheck = Pass ->
  run_check (files w) publicKey chain k LinkageCheck = Pass ->
  js_get (nth k chain JUndefined) "frameFile" = inr (JStr f) ->
  files w !! path_join_images f = None ->
  path_join_images f ∈ dirs ->
  verify_loop_in dirs b publicKey chain i todo w = (inl (SystemError "EISDIR"), w).
Proof.
  revert i. induction todo as [|todo IH]; intros i Hk Hp H1 H2 Hf Hn Hd; [lia|].
  cbn [verify_loop_in]. unfold bind.
  destruct (Nat.eq_dec i k) as [->|Hne].
  - now rewrite (verify_entry_in_directory dirs b publicKey chain k w f).
  - rewrite verify_entry_in_agree.
    + rewrite verify_entry_outcome.
      replace (entry_outcome (files w) publicKey chain i) with Pass
        by (symmetry; apply entry_outcome_pass; intros c; apply Hp; lia).
      cbn [outcome_result]. apply IH; try assumption; try lia.
      intros j c Hj. apply Hp. lia.
    + intros q Hq Hnone.
      destruct (artifact_checks_inv (files w) publicKey chain i
                  (Hp i _ ltac:(lia)) (Hp i _ ltac:(lia))) as (ff & d & Hff & Hfd & _).
      unfold artifact_path in Hq. rewrite Hff in Hq. injection Hq as <-.
      congruence.
Qed.

Lemma verifyChain_in_run (dirs : gset string) (b : bool) (w : World)
    (chain : list JSValue) (pk : string) :
  chainFile w = Some (JsonArray chain) ->
  chain <> [] ->
  publicKeyFile w = Some pk ->
  verifyChain_in dirs b w = verify_loop_in dirs b pk chain 0 (length chain) w.
Proof.
  intros Hc Hne Hk. unfold verifyChain_in, bind.
  rewrite verify_loadChain_run, Hc.
  destruct chain as [|e r]; [contradiction|]. cbn [length Nat.eqb].
  now rewrite loadPublicKey_run, Hk.
Qed.

(** Where the verifier over files stops without a result of success, the
    verifier over files and directories stops in the same way, when no
    entry up to there has a frame path that is a directory. *)
Lemma verifyChain_in_stops (dirs : gset string) (b : bool) (w : World)
    (chain : list JSValue) (pk : string) (i : nat) :
  chainFile w = Some (JsonArray chain) ->
  publicKeyFile w = Some pk ->
  (i < length chain)%nat ->
  (forall j q, (j <= i)%nat -> artifact_path (nth j chain JUndefined) = Some q ->
     files w !! q = None -> q ∉ dirs) ->
  (forall j, (j < i)%nat -> entry_outcome (files w) pk chain j = Pass) ->
  entry_outcome (files w) pk chain i <> Pass ->
  verifyChain_in dirs b w
  = (stop_result i (length chain) (entry_outcome (files w) pk chain i), w).
Proof.
  intros Hc Hk Hi Hd Hp Hf.
  rewrite (verifyChain_in_run dirs b w chain pk Hc) by
    (try assumption; intros ->; cbn in Hi; lia).
  apply verify_loop_in_stop; try assumption; try lia.
  - intros j q Hj. apply Hd. lia.
  - intros j Hj. apply Hp. lia.
Qed.

(** Directories change a run of the verifier in one way only: it may throw
    EISDIR. *)
Lemma verify_loop_in_cases (dirs : gset string) (b : bool) (publicKey : string)
    (chain : list JSValue) (w : World) (todo i : nat) :
  verify_loop_in dirs b publicKey chain i todo w
  = verify_loop b publicKey chain i todo w
  \/ verify_loop_in dirs b publicKey chain i todo w = (inl (SystemError "EISDIR"), w).
Proof.
  revert i. induction todo as [|todo IH]; intros i; cbn [verify_loop_in verify_loop].
  - now left.
  - unfold bind.
    destruct (verify_entry_in_cases dirs b publicKey chain i w) as [E|[E _]];
      rewrite E; [|now right].
    rewrite verify_entry_outcome.
    destruct (outcome_result i (length chain) _) as [e|[r|]]; try (now left).
    apply IH.
Qed.

Lemma verifyChain_in_cases (dirs : gset string) (b : bool) (w : World) :
  verifyChain_in dirs b w = verifyChain b w
  \/ verifyChain_in dirs b w = (inl (SystemError "EISDIR"), w).
Proof.
  unfold verifyChain_in, verifyChain, bind.
  rewrite verify_loadChain_run.
  destruct (match chainFile w with
            | Some Unparseable => inl (Error "Failed to load chain.json")
            | Some (JsonArray entries) => inr entries
            | None => inr []
            end) as [e|chain]; [now left|].
  destruct (length chain =? 0)%nat; [now left|].
  rewrite loadPublicKey_run.
  destruct (publicKeyFile w) as [pk|]; [|now left].
  apply verify_loop_in_cases.
Qed.

Lemma verifyChain_in_result (dirs : gset string) (b : bool) (w w' : World)
    (r : VerifyResult) :
  verifyChain_in dirs b w = (inr r, w') -> verifyChain b w = (inr r, w').
Proof.
  intros H. destruct (verifyChain_in_cases dirs b w) as [E|E]; congruence.
Qed.



End DirectoriesTheory.

(* ===================================================================== *)
(** ** Keys, and what the programs write *)
(* ===================================================================== *)

Section KeysAndWrites.
Context {node : NodeLib}.

Lemma set_chainFile_id (w : World) : set_chainFile (chainFile w) w = w.
Proof. now destruct w. Qed.

(** [ingestFrame] writes [chain.json] at most. *)
Lemma ingestFrame_world (now p : string) (w : World) :
  exists c, snd (ingestFrame now p w) = set_chainFile c w.
Proof.
  unfold ingestFrame.
  unfold bind at 1. unfold fs_existsSync, get.
  destruct (files w !! p) as [d|] eqn:Hd; cbn [is_some negb].
  2:{ exists (chainFile w). now rewrite set_chainFile_id. }
  unfold bind at 1. unfold fs_readFileSync. rewrite Hd.
  unfold bind at 1. rewrite ingest_loadChain_loaded.
  unfold bind at 1.
  destruct ((if (0 <? length (loaded_chain w))%nat
             then lift (js_get (nth (length (loaded_chain w) - 1) (loaded_chain w)
                                  JUndefined) "hash")
             else ret (JStr ZERO_HASH)) w) as [[e|ph] w1] eqn:Hph.
  - exists (chainFile w). rewrite set_chainFile_id.
    unfold lift, ret in Hph.
    destruct (0 <? length (loaded_chain w))%nat; now inversion Hph.
  - assert (w1 = w) as ->.
    { unfold lift, ret in Hph.
      destruct (0 <? length (loaded_chain w))%nat; now inversion Hph. }
    unfold bind at 1. rewrite loadPrivateKey_run.
    destruct (privateKeyFile w) as [sk|].
    2:{ exists (chainFile w). now rewrite set_chainFile_id. }
    unfold bind at 1. unfold lift.
    destruct (crypto_sign _ sk) as [e|s].
    { exists (chainFile w). now rewrite set_chainFile_id. }
    unfold bind, saveChain, modify, ret. cbn [snd]. eauto.
Qed.

(** C8. On the read paths a missing key file is an error and no key is
    ever written: [loadPublicKey] and [loadPrivateKey] throw when their file
    is absent; [verifyChain] leaves the whole world as it found it;
    [ingestFrame] leaves the keys directory, both key files and the frames
    as it found them; with the public key absent, verification of a chain
    that is not empty throws the error of [loadPublicKey], and with the
    private key absent, ingestion of a frame that is there throws the error
    of [loadPrivateKey] and writes nothing. *)
Theorem read_paths_never_generate_keys :
  (forall w : World,
     publicKeyFile w = None ->
     loadPublicKey w
     = (inl (Error "Public key not found. Run generate_keys.js first."), w))
  /\ (forall w : World,
        privateKeyFile w = None ->
        loadPrivateKey w
        = (inl (Error "Private key not found. Run generate_keys.js first."), w))
  /\ (forall (b : bool) (w : World), snd (verifyChain b w) = w)
  /\ (forall (now p : string) (w : World),
        let w' := snd (ingestFrame now p w) in
        keysDir w' = keysDir w /\ privateKeyFile w' = privateKeyFile w
        /\ publicKeyFile w' = publicKeyFile w /\ files w' = files w)
  /\ (forall (b : bool) (w : World) (e : JSValue) (r : list JSValue),
        chainFile w = Some (JsonArray (e :: r)) ->
        publicKeyFile w = None ->
        verifyChain b w
        = (inl (Error "Public key not found. Run generate_keys.js first."), w))
  /\ (forall (now p : string) (w : World) (d : list byte) (ph : JSValue),
        files w !! p = Some d ->
        head_hash (loaded_chain w) = inr ph ->
        privateKeyFile w = None ->
        ingestFrame now p w
        = (inl (Error "Private key not found. Run generate_keys.js first."), w)).
Proof.
  repeat apply conj.
  - intros w H. now rewrite loadPublicKey_run, H.
  - intros w H. now rewrite loadPrivateKey_run, H.
  - apply verifyChain_world.
  - intros now p w. destruct (ingestFrame_world now p w) as [c ->].
    cbv zeta. now repeat split.
  - intros b w e r Hc Hk. unfold verifyChain, bind.
    rewrite verify_loadChain_run, Hc. cbn [length Nat.eqb].
    now rewrite loadPublicKey_run, Hk.
  - intros now p w d ph Hd Hh Hk. unfold ingestFrame.
    unfold bind at 1. unfold fs_existsSync, get. rewrite Hd. cbn [is_some negb].
    unfold bind at 1. unfold fs_readFileSync. rewrite Hd.
    unfold bind at 1. rewrite ingest_loadChain_loaded.
    unfold bind at 1. unfold head_hash in Hh.
    assert (Hph : (if (0 <? length (loaded_chain w))%nat
                   then lift (js_get (nth (length (loaded_chain w) - 1)
                                        (loaded_chain w) JUndefined) "hash")
                   else ret (JStr ZERO_HASH)) w = (inr ph, w)).
    { unfold lift, ret. destruct (0 <? length (loaded_chain w))%nat;
        now rewrite ?Hh; inversion Hh. }
    rewrite Hph. unfold bind at 1. now rewrite loadPrivateKey_run, Hk.
Qed.

(** C7, as the code has it. [generateKeys] never looks for an existing
    pair: it draws a fresh pair, creates the [keys] directory when it is
    missing, and writes both key files, replacing whatever they held. The
    chain and the frames are left alone. *)
Theorem generateKeys_always_writes (entropy : list byte) (w : World) :
  generateKeys entropy w
  = (inr tt,
     mkWorld true (Some (snd (generateKeyPairSync entropy)))
       (Some (fst (generateKeyPairSync entropy))) (chainFile w) (files w)).
Proof.
  unfold generateKeys.
  destruct (generateKeyPairSync entropy) as [publicKey privateKey].
  unfold bind, get, fs_writeKey, modify, ret, bind, get.
  destruct w as [[|] sk pk c f]; reflexivity.
Qed.

(** C9, the failing path. When [chain.json] holds a text that does not
    parse, verification throws 'Failed to load chain.json', but ingestion
    does not: [ingestFrame] returns an entry with index 0 and the sentinel
    as previousHash, and overwrites the file with a chain of that one
    entry. *)
Theorem ingest_restarts_on_unparseable_chain (b : bool) (now p : string)
    (w : World) (d : list byte) (sk : string) (s : list byte) :
  chainFile w = Some Unparseable ->
  files w !! p = Some d ->
  privateKeyFile w = Some sk ->
  crypto_sign
    (Buffer_from_string
       (ingest_chainData (JNum 0) (JStr now) (JStr (path_basename p))
          (JStr (sha256_hex d)) (JStr ZERO_HASH))) sk = inr s ->
  verifyChain b w = (inl (Error "Failed to load chain.json"), w)
  /\ ingestFrame now p w
     = (inr (new_entry 0 now (path_basename p) d (JStr ZERO_HASH) s),
        set_chainFile
          (Some (JsonArray [new_entry 0 now (path_basename p) d (JStr ZERO_HASH) s]))
          w).
Proof.
  intros Hc Hd Hk Hs. split.
  - unfold verifyChain, bind. now rewrite verify_loadChain_run, Hc.
  - assert (Hl : loaded_chain w = []) by (unfold loaded_chain; now rewrite Hc).
    rewrite (ingestFrame_run now p w d (JStr ZERO_HASH) sk s Hd);
      rewrite ?Hl; try assumption; reflexivity.
Qed.

End KeysAndWrites.

(* ===================================================================== *)
(** ** What a result of the verifier says about the stored chain *)
(* ===================================================================== *)

Section VerifierResults.
Context {node : NodeLib}.

Lemma sequence_pass_object (frames : gmap string (list byte)) (pk : string) (i : nat)
    (expected : exn + JSValue) (entry : JSValue) :
  check_entry frames pk i expected entry SequenceCheck = Pass ->
  exists props, entry = JObj props.
Proof.
  destruct entry; cbn; try discriminate. intros _. now eexists.
Qed.

Lemma pass_if_fail (b : bool) (reason r : string) :
  pass_if b reason = Fail r -> r = reason.
Proof. destruct b; cbn; [discriminate|]. now intros [= <-]. Qed.

Lemma check_entry_reason (frames : gmap string (list byte)) (pk : string) (i : nat)
    (expected : exn + JSValue) (entry : JSValue) (c : check) (r : string) :
  check_entry frames pk i expected entry c = Fail r -> In r (check_reasons c).
Proof.
  unfold check_entry. destruct c; cbn [check_reasons].
  - destruct (js_get entry "index"); [discriminate|].
    intros H. apply pass_if_fail in H. now left.
  - destruct expected; [discriminate|].
    destruct (js_get entry "previousHash"); [discriminate|].
    intros H. apply pass_if_fail in H. now left.
  - destruct (bindE _ _); [discriminate|].
    intros H. apply pass_if_fail in H. now left.
  - destruct (bindE _ _); [discriminate|].
    destruct (js_get entry "frameHash"); [discriminate|].
    destruct (frames !! _); [|discriminate].
    intros H. apply pass_if_fail in H. now left.
  - destruct (verify_chainData entry); [discriminate|].
    destruct (bindE _ _) as [e|[|]]; try discriminate; intros [= <-]; cbn; auto.
  - destruct (verify_chainData entry); [discriminate|].
    destruct (js_get entry "hash"); [discriminate|].
    intros H. apply pass_if_fail in H. now left.
Qed.

Lemma first_failure_fail_inv {A : Type} (f : A -> status) (l : list A) (r : string) :
  first_failure (map f l) = Fail r ->
  exists before c after,
    l = before ++ c :: after
    /\ (forall c', In c' before -> f c' = Pass)
    /\ f c = Fail r.
Proof.
  induction l as [|x l IH]; cbn [map first_failure]; [discriminate|].
  destruct (f x) eqn:E.
  - intros H. destruct (IH H) as (before & c & after & -> & Hb & Hc).
    exists (x :: before), c, after. repeat split; [|assumption].
    intros c' [<-|Hin]; [assumption|now apply Hb].
  - intros [= <-]. exists [], x, l. repeat split; [|assumption].
    intros c' [].
  - discriminate.
Qed.

Lemma first_failure_throws_inv {A : Type} (f : A -> status) (l : list A) (e : exn) :
  first_failure (map f l) = Throws e ->
  exists before c after,
    l = before ++ c :: after
    /\ (forall c', In c' before -> f c' = Pass)
    /\ f c = Throws e.
Proof.
  induction l as [|x l IH]; cbn [map first_failure]; [discriminate|].
  destruct (f x) eqn:E.
  - intros H. destruct (IH H) as (before & c & after & -> & Hb & Hc).
    exists (x :: before), c, after. repeat split; [|assumption].
    intros c' [<-|Hin]; [assumption|now apply Hb].
  - discriminate.
  - intros [= <-]. exists [], x, l. repeat split; [|assumption].
    intros c' [].
Qed.

(** A loop that returns a failure stopped at the first entry on which a
    check does not pass. *)
Lemma verify_loop_fail_inv (b : bool) (publicKey : string) (chain : list JSValue)
    (w w' : World) (todo i k c : nat) (r : string) :
  verify_loop b publicKey chain i todo w = (inr (VerifyFail k r c), w') ->
  (i <= k < i + todo)%nat /\ c = length chain
  /\ (forall j, (i <= j < k)%nat -> entry_outcome (files w) publicKey chain j = Pass)
  /\ entry_outcome (files w) publicKey chain k = Fail r.
Proof.
  revert i. induction todo as [|todo IH]; intros i H; cbn [verify_loop] in H.
  - rewrite report_run in H. discriminate.
  - unfold bind in H. rewrite verify_entry_outcome in H.
    destruct (entry_outcome (files w) publicKey chain i) eqn:E;
      cbn [outcome_result] in H; try discriminate.
    + destruct (IH (S i) H) as (Hk & Hc & Hp & Hf).
      split; [lia|]. split; [assumption|]. split; [|assumption].
      intros j Hj. destruct (Nat.eq_dec j i) as [->|Hne]; [assumption|].
      apply Hp. lia.
    + unfold ret in H. injection H as <- <- <- _.
      split; [lia|]. split; [reflexivity|]. split; [|assumption].
      intros j Hj. lia.
Qed.

Lemma verify_loop_throw_inv (b : bool) (publicKey : string) (chain : list JSValue)
    (w w' : World) (todo i : nat) (e : exn) :
  verify_loop b publicKey chain i todo w = (inl e, w') ->
  exists k, (i <= k < i + todo)%nat
    /\ (forall j, (i <= j < k)%nat -> entry_outcome (files w) publicKey chain j = Pass)
    /\ entry_outcome (files w) publicKey chain k = Throws e.
Proof.
  revert i. induction todo as [|todo IH]; intros i H; cbn [verify_loop] in H.
  - rewrite report_run in H. discriminate.
  - unfold bind in H. rewrite verify_entry_outcome in H.
    destruct (entry_outcome (files w) publicKey chain i) eqn:E;
      cbn [outcome_result] in H; try discriminate.
    + destruct (IH (S i) H) as (k & Hk & Hp & Hf).
      exists k. split; [lia|]. split; [|assumption].
      intros j Hj. destruct (Nat.eq_dec j i) as [->|Hne]; [assumption|].
      apply Hp. lia.
    + injection H as <- _. exists i.
      split; [lia|]. split; [|assumption].
      intros j Hj. lia.
Qed.

(** The loop does the same with and without [--json]. *)
Lemma verify_loop_outputJson (b b' : bool) (publicKey : string) (chain : list JSValue)
    (w : World) (todo i : nat) :
  verify_loop b publicKey chain i todo w = verify_loop b' publicKey chain i todo w.
Proof.
  revert i. induction todo as [|todo IH]; intros i; cbn [verify_loop].
  - now rewrite !report_run.
  - unfold bind. rewrite !verify_entry_outcome.
    destruct (outcome_result _ _ _) as [e|[r|]]; try reflexivity. apply IH.
Qed.

Lemma verifyChain_outputJson (b b' : bool) (w : World) :
  verifyChain b w = verifyChain b' w.
Proof.
  unfold verifyChain, bind. destruct (verify_loadChain w) as [[e|chain] w1];
    [reflexivity|].
  destruct (length chain =? 0)%nat; [now rewrite !report_run|].
  destruct (loadPublicKey w1) as [[e|pk] w2]; [reflexivity|].
  apply verify_loop_outputJson.
Qed.

(** X1. When the chain file holds an array, [verifyChain], over files and
    directories, returns success with a count [n] that is not zero exactly
    when the array has [n] entries, the public key is there, and every entry
    [i] is an object whose index is [i], whose previousHash is the sentinel
    at position 0 and the hash of the entry before it otherwise, whose
    frameFile names a file of [images] with the digest stored as frameHash,
    whose signature verifies over the payload recomputed from the entry, and
    whose hash is the digest of that payload. *)
Theorem verifyChain_ok_iff (dirs : gset string) (b : bool) (w : World)
    (chain : list JSValue) (n : nat) :
  chainFile w = Some (JsonArray chain) ->
  (verifyChain_in dirs b w = (inr (VerifyOk n), w)
   <-> exists pk,
         publicKeyFile w = Some pk
         /\ length chain = n /\ (0 < n)%nat
         /\ forall i, (i < n)%nat ->
              exists props f d sg,
                nth i chain JUndefined = JObj props
                /\ prop "index" props = JNum (Z.of_nat i)
                /\ expected_previousHash chain i = inr (prop "previousHash" props)
                /\ prop "frameFile" props = JStr f
                /\ files w !! path_join_images f = Some d
                /\ prop "frameHash" props = JStr (sha256_hex d)
                /\ Buffer_from_hex (prop "signature" props) = inr sg
                /\ crypto_verify (Buffer_from_string (entry_payload props)) pk sg
                   = inr true
                /\ prop "hash" props
                   = JStr (sha256_hex (Buffer_from_string (entry_payload props)))).
Proof.
  intros Hc. split.
  - intros H. apply verifyChain_in_result in H.
    destruct (verifyChain_ok_inv b w w n H) as (chain' & pk & Hc' & Hk & Hlen & Hne & Hall).
    rewrite Hc in Hc'. injection Hc' as <-.
    exists pk. repeat split; try assumption.
    { destruct chain; [contradiction|]. cbn in Hlen. lia. }
    intros i Hi. specialize (Hall i Hi). rewrite entry_outcome_pass in Hall.
    unfold run_check in Hall.
    destruct (sequence_pass_object _ _ _ _ _ (Hall SequenceCheck)) as [props Hp].
    rewrite Hp in Hall.
    destruct (checks_pass_inv _ _ _ _ _ Hall)
      as (Hidx & Hexp & (f & d & Hf & Hd & Hfh) & (sg & Hsg & Hv) & Hh).
    exists props, f, d, sg. repeat split; assumption.
  - intros (pk & Hk & Hlen & Hpos & Hall).
    assert (Hfiles : forall j q, (j < n)%nat ->
              artifact_path (nth j chain JUndefined) = Some q -> files w !! q <> None).
    { intros j q Hj Hq.
      destruct (Hall j Hj) as (props & f & d & sg & Hn & _ & _ & Hf & Hd & _).
      rewrite Hn in Hq. unfold artifact_path in Hq. cbn [js_get] in Hq.
      rewrite Hf in Hq. injection Hq as <-. now rewrite Hd. }
    assert (Hin : verifyChain_in dirs b w = verifyChain b w).
    { rewrite (verifyChain_in_run dirs b w chain pk Hc) by
        (try assumption; intros ->; cbn in Hlen; lia).
      rewrite (verifyChain_run b w chain pk Hc) by
        (try assumption; intros ->; cbn in Hlen; lia).
      rewrite Hlen. clear Hpos.
      assert (G : forall todo i, (i + todo <= n)%nat ->
                verify_loop_in dirs b pk chain i todo w
                = verify_loop b pk chain i todo w).
      { induction todo as [|todo IH]; intros i Hi; [reflexivity|].
        cbn [verify_loop_in verify_loop]. unfold bind.
        rewrite verify_entry_in_agree.
        - destruct (verify_entry b pk chain i w) as [[e|[r|]] w1] eqn:E; try reflexivity.
          pose proof (verify_loop_world b pk chain w 1 i) as Hw.
          cbn [verify_loop] in Hw. unfold bind in Hw. rewrite E in Hw.
          rewrite report_run in Hw. cbn [snd] in Hw. subst w1.
          apply IH. lia.
        - intros q Hq Hnone. now destruct (Hfiles i q ltac:(lia) Hq). }
      apply G. lia. }
    rewrite Hin.
    rewrite (verifyChain_run b w chain pk Hc) by
      (try assumption; intros ->; cbn in Hlen; lia).
    rewrite verify_loop_pass; [now rewrite Hlen|].
    intros j Hj. rewrite Hlen in Hj. apply entry_outcome_pass. intros c.
    destruct (Hall j ltac:(lia))
      as (props & f & d & sg & Hn & Hidx & Hexp & Hf & Hd & Hfh & Hsg & Hv & Hh).
    assert (Hprev : exists s, prop "previousHash" props = JStr s).
    { destruct j as [|j']; cbn [expected_previousHash] in Hexp.
      - injection Hexp as <-. now eexists.
      - destruct (Hall j' ltac:(lia))
          as (props' & _ & _ & _ & Hn' & _ & _ & _ & _ & _ & _ & _ & Hh').
        rewrite Hn' in Hexp. cbn [js_get] in Hexp. rewrite Hh' in Hexp.
        injection Hexp as <-. now eexists. }
    destruct Hprev as [ph Hph].
    unfold run_check, check_entry. rewrite Hn, Hexp, verify_chainData_payload.
    cbn [js_get bindE]. rewrite Hidx, Hf, Hfh, Hh, Hph, Hsg. cbn [path_join bindE].
    rewrite Hd, Hv, strict_eq_num, !strict_eq_str.
    destruct c; reflexivity.
Qed.

(** A failure of [verifyChain], by the outcome of the entries. *)
Lemma verifyChain_fail_outcome (b : bool) (w w' : World) (i n : nat) (reason : string) :
  verifyChain b w = (inr (VerifyFail i reason n), w') ->
  exists chain pk,
    chainFile w = Some (JsonArray chain) /\ publicKeyFile w = Some pk
    /\ n = length chain /\ (i < n)%nat
    /\ (forall j, (j < i)%nat -> entry_outcome (files w) pk chain j = Pass)
    /\ entry_outcome (files w) pk chain i = Fail reason.
Proof.
  intros H.
  unfold verifyChain, bind in H. rewrite verify_loadChain_run in H.
  destruct (chainFile w) as [[|chain]|] eqn:Hc; try discriminate.
  2:{ cbn [length Nat.eqb] in H. rewrite report_run in H. discriminate. }
  destruct (length chain =? 0)%nat eqn:Hlen.
  { rewrite report_run in H. discriminate. }
  rewrite loadPublicKey_run in H.
  destruct (publicKeyFile w) as [pk|] eqn:Hk; [|discriminate].
  destruct (verify_loop_fail_inv _ _ _ _ _ _ _ _ _ _ H) as (Hi & Hn & Hp & Hf).
  exists chain, pk. repeat split; try assumption; try lia.
  intros j Hj. apply Hp. lia.
Qed.

Lemma verifyChain_stop (b : bool) (w : World) (chain : list JSValue) (pk : string)
    (i : nat) (reason : string) :
  chainFile w = Some (JsonArray chain) ->
  publicKeyFile w = Some pk ->
  (i < length chain)%nat ->
  (forall j, (j < i)%nat -> entry_outcome (files w) pk chain j = Pass) ->
  entry_outcome (files w) pk chain i = Fail reason ->
  verifyChain b w = (inr (VerifyFail i reason (length chain)), w).
Proof.
  intros Hc Hk Hi Hp Hf.
  rewrite (verifyChain_run b w chain pk Hc) by
    (try assumption; intros ->; cbn in Hi; lia).
  rewrite (verify_loop_stop b pk chain w (length chain) 0 i).
  - now rewrite Hf.
  - lia.
  - intros k Hk'. apply Hp. lia.
  - rewrite Hf. discriminate.
Qed.

(** X2. When the chain file holds an array, a result of [verifyChain],
    over files and directories, with success false, read backwards: nothing
    was written; the reported count is the length of the array and the
    reported index is a position of it; the public key is there; every
    check passes on every entry before that index; on the entry at that
    index the checks pass, in their order, up to one that fails with the
    reported reason, and the reason is one of that check. *)
Theorem verifyChain_fail_inv (dirs : gset string) (b : bool) (w w' : World)
    (chain : list JSValue) (i n : nat) (reason : string) :
  chainFile w = Some (JsonArray chain) ->
  verifyChain_in dirs b w = (inr (VerifyFail i reason n), w') ->
  w' = w
  /\ exists pk before c after,
       publicKeyFile w = Some pk
       /\ n = length chain /\ (i < n)%nat
       /\ (forall j c', (j < i)%nat -> run_check (files w) pk chain j c' = Pass)
       /\ all_checks = before ++ c :: after
       /\ (forall c', In c' before -> run_check (files w) pk chain i c' = Pass)
       /\ run_check (files w) pk chain i c = Fail reason
       /\ In reason (check_reasons c).
Proof.
  intros Hc H. apply verifyChain_in_result in H. split.
  { pose proof (verifyChain_world b w) as Hw. now rewrite H in Hw. }
  destruct (verifyChain_fail_outcome _ _ _ _ _ _ H)
    as (chain' & pk & Hc' & Hk & Hn & Hi & Hp & Hf).
  rewrite Hc in Hc'. injection Hc' as <-.
  unfold entry_outcome in Hf.
  destruct (first_failure_fail_inv _ _ _ Hf) as (before & c & after & Hs & Hb & Hfc).
  exists pk, before, c, after. repeat split; try assumption.
  - intros j c' Hj. apply entry_outcome_pass. now apply Hp.
  - unfold run_check in Hfc. now apply check_entry_reason in Hfc.
Qed.

(** The only exception that the checks of an entry raise is a TypeError,
    on an entry, or an entry before it, that is [null] or whose frameFile is
    not a string. *)
Lemma entry_outcome_throws (frames : gmap string (list byte)) (pk : string)
    (chain : list JSValue) (i : nat) (e : exn) :
  entry_outcome frames pk chain i = Throws e ->
  e = TypeError
  /\ (artifact_path (nth i chain JUndefined) = None
      \/ artifact_path (nth (i - 1) chain JUndefined) = None).
Proof.
  unfold entry_outcome, all_checks. cbn [map first_failure].
  unfold run_check, check_entry, artifact_path, verify_chainData.
  destruct (nth i chain JUndefined) as [| | | | | |props] eqn:En;
    cbn [js_get bindE pass_if strict_eq path_join first_failure];
    try (intros [= <-]; split; [reflexivity|now left]); try discriminate.
  destruct (strict_eq (prop "index" props) _); cbn [pass_if]; [|discriminate].
  destruct i as [|j]; cbn [expected_previousHash Nat.sub].
  - destruct (strict_eq (prop "previousHash" props) _); cbn [pass_if]; [|discriminate].
    destruct (prop "frameFile" props) eqn:Ef; cbn [path_join];
      try (intros [= <-]; split; [reflexivity|now left]).
    destruct (frames !! _); cbn [is_some pass_if]; [|discriminate].
    destruct (strict_eq (prop "frameHash" props) _); cbn [pass_if]; [|discriminate].
    destruct (bindE _ _) as [?|[|]]; cbv beta iota; try discriminate.
    destruct (strict_eq (prop "hash" props) _); cbn [pass_if]; discriminate.
  - rewrite Nat.sub_0_r.
    destruct (nth j chain JUndefined) as [| | | | | |props'] eqn:Ej;
      cbn [js_get];
      try (intros [= <-]; split; [reflexivity|now right]).
    all: destruct (strict_eq (prop "previousHash" props) _); cbn [pass_if]; [|discriminate].
    all: destruct (prop "frameFile" props) eqn:Ef; cbn [path_join];
      try (intros [= <-]; split; [reflexivity|now left]).
    all: destruct (frames !! _); cbn [is_some pass_if]; [|discriminate].
    all: destruct (strict_eq (prop "frameHash" props) _); cbn [pass_if]; [|discriminate].
    all: destruct (bindE _ _) as [?|[|]]; cbv beta iota; try discriminate.
    all: destruct (strict_eq (prop "hash" props) _); cbn [pass_if]; discriminate.
Qed.

Lemma verifyChain_on_cases (b : bool) (chain : Parsed) (w : World) :
  verifyChain_on b chain w
  = match chain with
    | ParsedNull => (inl TypeError, w)
    | ParsedNoLength =>
        match publicKeyFile w with
        | Some _ => (inr SuccessNoCount, w)
        | None => (inl (Error "Public key not found. Run generate_keys.js first."), w)
        end
    | ParsedArray [] => (inr (Counted ChainEmpty), w)
    | ParsedArray entries =>
        match publicKeyFile w with
        | Some pk =>
            match verify_loop b pk entries 0 (length entries) w with
            | (inr result, w') => (inr (Counted result), w')
            | (inl e, w') => (inl e, w')
            end
        | None => (inl (Error "Public key not found. Run generate_keys.js first."), w)
        end
    end.
Proof.
  unfold verifyChain_on, bind, lift, chain_length.
  destruct chain as [[|e r]| |]; cbn [strict_eq length].
  - change (Z.of_nat 0 =? 0)%Z with true. cbv beta iota. now rewrite report_run.
  - change (Z.of_nat (S (length r)) =? 0)%Z with false. cbv beta iota.
    rewrite loadPublicKey_run. destruct (publicKeyFile w) as [pk|]; [|reflexivity].
    destruct (verify_loop b pk (e :: r) 0 (S (length r)) w) as [[e'|res] w2];
      reflexivity.
  - reflexivity.
  - rewrite loadPublicKey_run. destruct (publicKeyFile w); [|reflexivity].
    now rewrite report_run.
Qed.

(** On an array, [verifyChain_on] is [verifyChain] after its call of
    [loadChain]. *)
Lemma verifyChain_on_array (b : bool) (w : World) :
  chainFile w <> Some Unparseable ->
  verifyChain_on b (ParsedArray (loaded_chain w)) w
  = match verifyChain b w with
    | (inr result, w') => (inr (Counted result), w')
    | (inl e, w') => (inl e, w')
    end.
Proof.
  intros Hc. rewrite verifyChain_on_cases.
  unfold verifyChain, bind. rewrite verify_loadChain_run. unfold loaded_chain.
  destruct (chainFile w) as [[|[|e r]]|]; [congruence| | |];
    cbn [length Nat.eqb]; rewrite ?report_run; try reflexivity.
  rewrite loadPublicKey_run. destruct (publicKeyFile w); reflexivity.
Qed.

(** An entry on which every check passes has a frame path that holds a
    file. *)
Lemma passing_entry_has_file (w : World) (pk : string) (chain : list JSValue)
    (j : nat) (q : string) :
  run_check (files w) pk chain j ArtifactPresence = Pass ->
  run_check (files w) pk chain j ArtifactHash = Pass ->
  artifact_path (nth j chain JUndefined) = Some q ->
  files w !! q <> None.
Proof.
  intros H3 H4 Hq.
  destruct (artifact_checks_inv (files w) pk chain j H3 H4) as (ff & d & Hff & Hd & _).
  unfold artifact_path in Hq. rewrite Hff in Hq. injection Hq as <-.
  now rewrite Hd.
Qed.

(** X3. What [verifyChain] throws, and what it does not, over files and
    directories. It throws 'Failed to load chain.json' when the chain file
    does not parse, a TypeError when the chain file holds [null], and the
    error of the missing public key when the stored array is not empty and
    the public key file is absent. On a stored array, with the public key
    there, when every entry before position [i] passes every check: it
    throws a TypeError when the entry at [i] is [null]; when that entry
    passes the sequence and the linkage check, it throws a TypeError if its
    frameFile is not a string and EISDIR if its frameFile resolves to a
    directory; when the entry passes the four checks before the signature
    and the decoding of its signature or [crypto.verify] throws, nothing is
    thrown: the result is the failure 'signature verification error' at
    [i]. In all these cases nothing is written. *)
Theorem verifyChain_throws (dirs : gset string) (b : bool) (w : World) :
  (chainFile w = Some Unparseable ->
   verifyChain_in dirs b w = (inl (Error "Failed to load chain.json"), w))
  /\ verifyChain_on b ParsedNull w = (inl TypeError, w)
  /\ (forall chain : list JSValue,
        chainFile w = Some (JsonArray chain) -> chain <> [] ->
        publicKeyFile w = None ->
        verifyChain_in dirs b w
        = (inl (Error "Public key not found. Run generate_keys.js first."), w))
  /\ (forall (chain : list JSValue) (pk : string) (i : nat),
        chainFile w = Some (JsonArray chain) ->
        publicKeyFile w = Some pk ->
        (i < length chain)%nat ->
        (forall j c, (j < i)%nat -> run_check (files w) pk chain j c = Pass) ->
        (nth i chain JUndefined = JNull ->
         verifyChain_in dirs b w = (inl TypeError, w))
        /\ (forall props : list (string * JSValue),
              nth i chain JUndefined = JObj props ->
              run_check (files w) pk chain i SequenceCheck = Pass ->
              run_check (files w) pk chain i LinkageCheck = Pass ->
              ((forall f, prop "frameFile" props <> JStr f) ->
               verifyChain_in dirs b w = (inl TypeError, w))
              /\ (forall f,
                    prop "frameFile" props = JStr f ->
                    files w !! path_join_images f = None ->
                    path_join_images f ∈ dirs ->
                    verifyChain_in dirs b w = (inl (SystemError "EISDIR"), w)))
        /\ (forall (props : list (string * JSValue)) (e : exn),
              nth i chain JUndefined = JObj props ->
              (forall c, In c [SequenceCheck; LinkageCheck; ArtifactPresence;
                               ArtifactHash] ->
                 run_check (files w) pk chain i c = Pass) ->
              Buffer_from_hex (prop "signature" props) = inl e
              \/ (exists sg,
                    Buffer_from_hex (prop "signature" props) = inr sg
                    /\ crypto_verify (Buffer_from_string (entry_payload props)) pk sg
                       = inl e) ->
              verifyChain_in dirs b w
              = (inr (VerifyFail i "signature verification error" (length chain)), w))).
Proof.
  split; [|split; [|split]].
  - intros Hc. unfold verifyChain_in, bind. now rewrite verify_loadChain_run, Hc.
  - apply verifyChain_on_cases.
  - intros chain Hc Hne Hk. unfold verifyChain_in, bind.
    rewrite verify_loadChain_run, Hc.
    destruct chain as [|e r]; [contradiction|]. cbn [length Nat.eqb].
    now rewrite loadPublicKey_run, Hk.
  - intros chain pk i Hc Hk Hi Hp.
    assert (Hp' : forall j, (j < i)%nat -> entry_outcome (files w) pk chain j = Pass).
    { intros j Hj. apply entry_outcome_pass. intros c. now apply Hp. }
    assert (Hbefore : forall j q, (j < i)%nat ->
              artifact_path (nth j chain JUndefined) = Some q ->
              files w !! q = None -> q ∉ dirs).
    { intros j q Hj Hq Hn.
      now destruct (passing_entry_has_file w pk chain j q (Hp j _ Hj) (Hp j _ Hj) Hq). }
    split; [|split].
    + intros Hn.
      rewrite (verifyChain_in_stops dirs b w chain pk i); try assumption.
      * unfold entry_outcome, all_checks. cbn [map first_failure].
        unfold run_check, check_entry. now rewrite Hn.
      * intros j q Hj Hq. destruct (Nat.eq_dec j i) as [->|Hne];
          [|apply (Hbefore j); [lia|assumption]].
        rewrite Hn in Hq. discriminate Hq.
      * unfold entry_outcome, all_checks. cbn [map first_failure].
        unfold run_check, check_entry. rewrite Hn. discriminate.
    + intros props Hn H1 H2. split.
      * intros Hf.
        assert (Hout : entry_outcome (files w) pk chain i = Throws TypeError).
        { unfold entry_outcome, all_checks. cbn [map first_failure].
          rewrite H1, H2. unfold run_check, check_entry. rewrite Hn.
          cbn [js_get bindE].
          destruct (prop "frameFile" props) eqn:Ef; cbn [path_join]; try reflexivity.
          now destruct (Hf s). }
        rewrite (verifyChain_in_stops dirs b w chain pk i); try assumption.
        -- now rewrite Hout.
        -- intros j q Hj Hq. destruct (Nat.eq_dec j i) as [->|Hne];
             [|apply (Hbefore j); [lia|assumption]].
           rewrite Hn in Hq. unfold artifact_path in Hq. cbn [js_get] in Hq.
           destruct (prop "frameFile" props) eqn:Ef; try discriminate Hq.
           now destruct (Hf s).
        -- rewrite Hout. discriminate.
      * intros f Hf Hnone Hd.
        rewrite (verifyChain_in_run dirs b w chain pk Hc) by
          (try assumption; intros ->; cbn in Hi; lia).
        apply (verify_loop_in_directory dirs b pk chain w (length chain) 0 i f);
          try assumption; try lia.
        -- intros j c Hj. apply Hp. lia.
        -- rewrite Hn. cbn [js_get]. now rewrite Hf.
    + intros props e Hn H4 He.
      assert (Hout : entry_outcome (files w) pk chain i
                     = Fail "signature verification error").
      { unfold entry_outcome, all_checks. cbn [map first_failure].
        rewrite !H4 by (cbn; auto).
        unfold run_check, check_entry. rewrite Hn, verify_chainData_payload.
        cbn [js_get bindE].
        destruct He as [He|(sg & Hsg & He)].
        - now rewrite He.
        - rewrite Hsg. cbn [bindE]. now rewrite He. }
      rewrite (verifyChain_in_stops dirs b w chain pk i); try assumption.
      * now rewrite Hout.
      * intros j q Hj Hq Hnone. destruct (Nat.eq_dec j i) as [->|Hne];
          [|apply (Hbefore j); [lia|assumption|assumption]].
        now destruct (passing_entry_has_file w pk chain i q
                        (H4 ArtifactPresence ltac:(cbn; auto))
                        (H4 ArtifactHash ltac:(cbn; auto)) Hq).
      * rewrite Hout. discriminate.
Qed.

(** X4. The main block of verify.js writes nothing; it exits with status 0
    whenever [verifyChain] returns a result, also a result with success
    false, and with status 1 when [verifyChain] throws. The flag [--json]
    changes neither. *)
Theorem verify_main_exit_status (argv : list string) (w : World) :
  exists code,
    verify_main argv w = (inr code, w)
    /\ (forall r, fst (verifyChain false w) = inr r -> code = 0%Z)
    /\ (forall e, fst (verifyChain false w) = inl e -> code = 1%Z).
Proof.
  unfold verify_main, try_catch, bind.
  rewrite (verifyChain_outputJson _ false).
  pose proof (verifyChain_world false w) as Hw.
  destruct (verifyChain false w) as [[e|r] w']; cbn [snd] in Hw; subst w'.
  - exists 1%Z. cbn [fst]. split; [reflexivity|].
    split; intros x H; [discriminate H|reflexivity].
  - exists 0%Z. cbn [fst]. split; [reflexivity|].
    split; intros x H; [reflexivity|discriminate H].
Qed.

End VerifierResults.

(* ===================================================================== *)
(** ** The empty chain, and a chain file that is not an array *)
(* ===================================================================== *)

Section OtherChainsTheory.
Context {node : NodeLib}.

(** On an array, [verifyChain_on] is [verifyChain] after its call of
    [loadChain]. *)
(** C10, as the code has it. When [chain.json] is absent or holds the empty
    array, [verifyChain] returns success with count 0 whatever the key files
    are. When it holds an array and [verifyChain] throws the error of a
    missing public key, the array is not empty and the public key file is
    absent. The test that comes before the key is [chain.length === 0] on
    whatever [loadChain] has returned: on that value, the error of a missing
    public key is thrown exactly when the public key file is absent and the
    value is neither [null] nor the empty array, so also on a value that has
    no entries and no length. *)
Theorem empty_chain_needs_no_key (b : bool) (w : World) :
  (chainFile w = None \/ chainFile w = Some (JsonArray []) ->
   verifyChain b w = (inr ChainEmpty, w)
   /\ success ChainEmpty = true /\ count ChainEmpty = 0%nat)
  /\ (forall chain : list JSValue,
        chainFile w = Some (JsonArray chain) ->
        fst (verifyChain b w)
        = inl (Error "Public key not found. Run generate_keys.js first.") ->
        chain <> [] /\ publicKeyFile w = None)
  /\ (forall chain : Parsed,
        fst (verifyChain_on b chain w)
        = inl (Error "Public key not found. Run generate_keys.js first.")
        <-> publicKeyFile w = None /\ chain <> ParsedNull /\ chain <> ParsedArray []).
Proof.
  split; [|split].
  - intros Hc. repeat split. unfold verifyChain, bind.
    rewrite verify_loadChain_run.
    destruct Hc as [-> | ->]; cbn [length Nat.eqb]; apply report_run.
  - intros chain Hc. unfold verifyChain, bind. rewrite verify_loadChain_run, Hc.
    destruct chain as [|e r]; cbn [length Nat.eqb].
    { rewrite report_run. discriminate. }
    rewrite loadPublicKey_run. destruct (publicKeyFile w) as [pk|] eqn:Hk.
    + intros H. exfalso.
      destruct (verify_loop b pk (e :: r) 0 (S (length r)) w) as [res w'] eqn:E.
      cbn [fst] in H. subst res.
      destruct (verify_loop_throw_inv _ _ _ _ _ _ _ _ E) as (k & _ & _ & Ht).
      destruct (entry_outcome_throws _ _ _ _ _ Ht) as [Ht' _]. discriminate Ht'.
    + intros _. split; [discriminate|reflexivity].
  - intros chain. rewrite verifyChain_on_cases.
    destruct chain as [[|e r]| |]; cbn [fst].
    + split; [discriminate|]. intros (_ & _ & H). now contradict H.
    + destruct (publicKeyFile w) as [pk|] eqn:Hk.
      * split.
        -- intros H. exfalso.
           destruct (verify_loop b pk (e :: r) 0 (length (e :: r)) w) as [[e'|res] w'] eqn:E;
             cbn [fst] in H; [|discriminate]. injection H as ->.
           destruct (verify_loop_throw_inv _ _ _ _ _ _ _ _ E) as (k & _ & _ & Ht).
           destruct (entry_outcome_throws _ _ _ _ _ Ht) as [Ht' _]. discriminate Ht'.
        -- intros (H & _). discriminate H.
      * cbn [fst]. split; [|reflexivity]. intros _. repeat split; discriminate.
    + split; [discriminate|]. intros (_ & H & _). now contradict H.
    + destruct (publicKeyFile w) as [pk|] eqn:Hk; cbn [fst].
      * split; [discriminate|]. intros (H & _). discriminate H.
      * split; [|reflexivity]. intros _. repeat split; discriminate.
Qed.

End OtherChainsTheory.

(* ===================================================================== *)
(** ** Every path through the builder *)
(* ===================================================================== *)

Section BuilderPaths.
Context {node : NodeLib}.

(** [ingestFrame] path by path: the frame is looked up first, then the
    head of the chain is read, then the private key, then the payload is
    signed; the chain file is written on the last path only. *)
Lemma ingestFrame_cases (now p : string) (w : World) :
  ingestFrame now p w
  = match files w !! p with
    | None => (inl (Error ("Frame file not found: " +:+ p)), w)
    | Some d =>
        match head_hash (loaded_chain w) with
        | inl e => (inl e, w)
        | inr ph =>
            match privateKeyFile w with
            | None => (inl (Error "Private key not found. Run generate_keys.js first."), w)
            | Some sk =>
                match crypto_sign
                        (Buffer_from_string
                           (ingest_chainData (JNum (Z.of_nat (length (loaded_chain w))))
                              (JStr now) (JStr (path_basename p))
                              (JStr (sha256_hex d)) ph)) sk with
                | inl e => (inl e, w)
                | inr s =>
                    (inr (new_entry (length (loaded_chain w)) now (path_basename p) d ph s),
                     set_chainFile
                       (Some (JsonArray
                          (map json_reload_elem
                             (loaded_chain w
                              ++ [new_entry (length (loaded_chain w)) now
                                    (path_basename p) d ph s]))))
                       w)
                end
            end
        end
    end.
Proof.
  destruct (files w !! p) as [d|] eqn:Hd.
  2:{ unfold ingestFrame. unfold bind at 1. unfold fs_existsSync, get.
      now rewrite Hd. }
  destruct (head_hash (loaded_chain w)) as [e|ph] eqn:Hh.
  { unfold ingestFrame.
    unfold bind at 1. unfold fs_existsSync, get. rewrite Hd. cbn [is_some negb].
    unfold bind at 1. unfold fs_readFileSync. rewrite Hd.
    unfold bind at 1. rewrite ingest_loadChain_loaded.
    unfold bind at 1. unfold head_hash in Hh.
    unfold lift, ret.
    destruct (0 <? length (loaded_chain w))%nat; [now rewrite Hh|discriminate]. }
  destruct (privateKeyFile w) as [sk|] eqn:Hk.
  2:{ unfold ingestFrame.
      unfold bind at 1. unfold fs_existsSync, get. rewrite Hd. cbn [is_some negb].
      unfold bind at 1. unfold fs_readFileSync. rewrite Hd.
      unfold bind at 1. rewrite ingest_loadChain_loaded.
      unfold bind at 1. unfold head_hash in Hh.
      assert (Hph : (if (0 <? length (loaded_chain w))%nat
                     then lift (js_get (nth (length (loaded_chain w) - 1)
                                          (loaded_chain w) JUndefined) "hash")
                     else ret (JStr ZERO_HASH)) w = (inr ph, w)).
      { unfold lift, ret. destruct (0 <? length (loaded_chain w))%nat;
          now rewrite ?Hh; inversion Hh. }
      rewrite Hph. unfold bind at 1. now rewrite loadPrivateKey_run, Hk. }
  destruct (crypto_sign _ sk) as [e|s] eqn:Hs.
  2:{ exact (ingestFrame_run now p w d ph sk s Hd Hh Hk Hs). }
  unfold ingestFrame.
  unfold bind at 1. unfold fs_existsSync, get. rewrite Hd. cbn [is_some negb].
  unfold bind at 1. unfold fs_readFileSync. rewrite Hd.
  unfold bind at 1. rewrite ingest_loadChain_loaded.
  unfold bind at 1. unfold head_hash in Hh.
  assert (Hph : (if (0 <? length (loaded_chain w))%nat
                 then lift (js_get (nth (length (loaded_chain w) - 1)
                                      (loaded_chain w) JUndefined) "hash")
                 else ret (JStr ZERO_HASH)) w = (inr ph, w)).
  { unfold lift, ret. destruct (0 <? length (loaded_chain w))%nat;
      now rewrite ?Hh; inversion Hh. }
  rewrite Hph. unfold bind at 1. rewrite loadPrivateKey_run, Hk.
  unfold bind at 1. unfold lift. now rewrite Hs.
Qed.





(** On an array, [ingestFrame_on] is [ingestFrame] after its call of
    [loadChain]. *)
Lemma ingestFrame_on_array (now p : string) (w : World) :
  ingestFrame_on now p (ParsedArray (loaded_chain w)) w = ingestFrame now p w.
Proof.
  rewrite ingestFrame_cases. unfold ingestFrame_on.
  unfold bind at 1. unfold fs_existsSync, get.
  destruct (files w !! p) as [d|] eqn:Hd; cbn [is_some negb]; [|reflexivity].
  unfold bind at 1. unfold fs_readFileSync. rewrite Hd.
  unfold bind at 1. unfold lift at 1. cbn [chain_length positive_length chain_last].
  unfold head_hash.
  assert (Hpos : (0 <? Z.of_nat (length (loaded_chain w)))%Z
                 = (0 <? length (loaded_chain w))%nat).
  { destruct (length (loaded_chain w)); reflexivity. }
  rewrite Hpos.
  unfold bind at 1.
  destruct (0 <? length (loaded_chain w))%nat.
  - unfold lift at 1.
    destruct (js_get (nth (length (loaded_chain w) - 1) (loaded_chain w) JUndefined)
                "hash") as [e|ph]; [reflexivity|].
    unfold bind at 1. unfold lift at 1.
    unfold bind at 1. rewrite loadPrivateKey_run.
    destruct (privateKeyFile w) as [sk|]; [|reflexivity].
    unfold bind at 1. unfold lift at 1.
    destruct (crypto_sign _ sk) as [e|s]; reflexivity.
  - unfold ret at 1.
    unfold bind at 1. unfold lift at 1.
    unfold bind at 1. rewrite loadPrivateKey_run.
    destruct (privateKeyFile w) as [sk|]; [|reflexivity].
    unfold bind at 1. unfold lift at 1.
    destruct (crypto_sign _ sk) as [e|s]; reflexivity.
Qed.





Lemma expected_previousHash_head (chain rest : list JSValue) :
  expected_previousHash (chain ++ rest) (length chain) = head_hash chain.
Proof.
  unfold expected_previousHash, head_hash.
  destruct (length chain) as [|m] eqn:E; [reflexivity|].
  cbn [Nat.ltb Nat.leb Nat.sub]. rewrite Nat.sub_0_r.
  now rewrite app_nth1 by lia.
Qed.

(** X7. A run of the logger over [paths] from the time index [k], on a
    chain of built entries and with a private key that signs, returns and
    leaves the frames alone. The stored chain is the old chain followed by
    one entry for each path, in the order of the paths: the [j]-th new entry
    has the index (old length + [j]), the timestamp [now (k + j)], the base
    name of the [j]-th path as frameFile, the digest of that file as
    frameHash, and as previousHash the hash of the entry before it (the
    sentinel on an empty chain). *)
Theorem ingestAll_appends_in_order (now : nat -> string) (sk : string)
    (paths : list string) :
  (forall data, exists s, crypto_sign data sk = inr s) ->
  forall (w : World) (k : nat),
    privateKeyFile w = Some sk ->
    Forall built_entry (loaded_chain w) ->
    (forall p, In p paths -> is_some (files w !! p) = true) ->
    exists w' added,
      ingestAll now k paths w = (inr tt, w')
      /\ files w' = files w
      /\ loaded_chain w' = loaded_chain w ++ added
      /\ length added = length paths
      /\ forall j p, paths !! j = Some p ->
           exists props d,
             added !! j = Some (JObj props)
             /\ files w !! p = Some d
             /\ prop "index" props = JNum (Z.of_nat (length (loaded_chain w) + j))
             /\ prop "timestamp" props = JStr (now (k + j)%nat)
             /\ prop "frameFile" props = JStr (path_basename p)
             /\ prop "frameHash" props = JStr (sha256_hex d)
             /\ expected_previousHash (loaded_chain w')
                  (length (loaded_chain w) + j)
                = inr (prop "previousHash" props).
Proof.
  intros Hsign. induction paths as [|p r IH]; intros w k Hsk Hb Hfiles.
  - exists w, []. cbn [ingestAll]. rewrite app_nil_r.
    repeat split. intros j p H. discriminate H.
  - assert (Hp : is_some (files w !! p) = true) by (apply Hfiles; now left).
    destruct (files w !! p) as [d|] eqn:Hd; [|discriminate].
    destruct (head_hash_built _ Hb) as [ph Hph].
    set (chain := loaded_chain w) in *. set (n := length chain) in *.
    destruct (Hsign (Buffer_from_string
      (ingest_chainData (JNum (Z.of_nat n)) (JStr (now k)) (JStr (path_basename p))
         (JStr (sha256_hex d)) (JStr ph)))) as (s & Hs).
    set (e := new_entry n (now k) (path_basename p) d (JStr ph) s).
    assert (Hb' : Forall built_entry (chain ++ [e])).
    { apply Forall_app. split; [assumption|].
      constructor; [apply new_entry_built|constructor]. }
    pose proof (ingestFrame_run (now k) p w d (JStr ph) sk s Hd Hph Hsk Hs) as Hrun.
    cbv zeta in Hrun. fold chain n e in Hrun.
    rewrite (built_chain_reload _ Hb') in Hrun.
    set (w1 := set_chainFile (Some (JsonArray (chain ++ [e]))) w) in *.
    destruct (IH w1 (S k)) as (w' & added & Hrun' & Hf' & Hl' & Hlen' & Hall');
      try assumption.
    { intros q Hq. apply Hfiles. now right. }
    exists w', (e :: added). cbn [ingestAll]. unfold bind. rewrite Hrun.
    split; [assumption|]. split; [assumption|].
    split; [rewrite Hl'; cbn [w1 loaded_chain chainFile set_chainFile];
            now rewrite <- app_assoc|].
    split; [cbn [length]; now rewrite Hlen'|].
    intros [|j] q Hq; cbn in Hq.
    + injection Hq as <-. eexists _, d. split; [reflexivity|].
      rewrite !Nat.add_0_r. repeat split; try assumption; try reflexivity.
      rewrite Hl'. cbn [w1 loaded_chain chainFile set_chainFile].
      rewrite <- app_assoc. fold n. unfold n.
      now rewrite expected_previousHash_head.
    + destruct (Hall' j q Hq) as (props & d' & Ha & Hd' & Hi & Ht & Hff & Hfh & Hph').
      assert (Hn1 : length (loaded_chain w1) = S n).
      { cbn [w1 loaded_chain chainFile set_chainFile].
        rewrite length_app. cbn [length]. fold n. lia. }
      exists props, d'. repeat split; try assumption.
      * rewrite Hi, Hn1. do 2 f_equal. lia.
      * rewrite Ht. do 2 f_equal. lia.
      * rewrite <- Hph', Hn1. f_equal. lia.
Qed.

End BuilderPaths.

(* ===================================================================== *)
(** ** What is appended, and two writers *)
(* ===================================================================== *)

Section WritersTheory.
Context {node : NodeLib}.





End WritersTheory.

(* ===================================================================== *)
(** ** Key generation next to an existing chain *)
(* ===================================================================== *)

Section KeyGeneration.
Context {node : NodeLib}.

Lemma generateKeys_result (entropy : list byte) (w : World) :
  exists pk sk,
    generateKeyPairSync entropy = (pk, sk)
    /\ generateKeys entropy w
       = (inr tt, mkWorld true (Some sk) (Some pk) (chainFile w) (files w)).
Proof.
  unfold generateKeys.
  destruct (generateKeyPairSync entropy) as [publicKey privateKey].
  exists publicKey, privateKey. split; [reflexivity|].
  unfold bind, get, fs_writeKey, modify, ret, bind, get.
  destruct w as [[|] sk pk c f]; reflexivity.
Qed.

(** X8. From a state without a chain, with or without keys and with or
    without the keys directory: [generateKeys] followed by the ingestion of
    [N] frames leaves a chain that verifies with count [N], when the pair
    that was generated is sound and, for each ingested path, the file is
    there and the file that the verifier resolves from its base name,
    [images/<base name>], holds the same bytes (it is the ingested file
    itself when that lies in [images]). *)
Theorem generate_ingest_verify (b : bool) (entropy : list byte) (now : nat -> string)
    (w : World) (paths : list string) :
  keypair_ok (fst (generateKeyPairSync entropy)) (snd (generateKeyPairSync entropy)) ->
  chainFile w = None \/ chainFile w = Some (JsonArray []) ->
  (forall p, In p paths ->
     exists d, files w !! p = Some d
               /\ files w !! path_join_images (path_basename p) = Some d) ->
  exists w' r,
    (run generateKeys entropy then ingestAll now 0 paths) w = (inr tt, w')
    /\ verifyChain b w' = (inr r, w')
    /\ success r = true
    /\ count r = length paths.
Proof.
  intros Hkp Hc Hfiles.
  destruct (generateKeys_result entropy w) as (pk & sk & Hg & Hrun).
  rewrite Hg in Hkp. cbn [fst snd] in Hkp.
  set (w1 := mkWorld true (Some sk) (Some pk) (chainFile w) (files w)) in *.
  assert (Hempty : loaded_chain w1 = []).
  { unfold loaded_chain. cbn [w1 chainFile]. now destruct Hc as [-> | ->]. }
  destruct (ingestAll_keeps_valid now pk sk paths Hkp w1 0)
    as (w' & Hrun' & Hpk' & Hc' & Hlen & Hpass); try reflexivity; try assumption.
  - cbn [w1 chainFile]. destruct Hc as [-> | ->]; discriminate.
  - rewrite Hempty. constructor.
  - rewrite Hempty. cbn [length]. intros j c Hj. lia.
  - destruct (verifyChain_valid b w' pk Hc' Hpk' Hpass) as (r & Hv & Hs & Hn).
    exists w', r. unfold bind. rewrite Hrun. repeat split; try assumption.
    rewrite Hn, Hlen, Hempty. reflexivity.
Qed.

(** X9. Key generation next to a chain that verifies: when the new public
    key does not verify the signature stored in entry 0, verification after
    [generateKeys] fails at index 0 with one of the two signature
    reasons. *)
Theorem generateKeys_invalidates_chain (b : bool) (entropy : list byte) (w : World)
    (n : nat) :
  verifyChain b w = (inr (VerifyOk n), w) ->
  (forall props sg,
     nth 0 (loaded_chain w) JUndefined = JObj props ->
     Buffer_from_hex (prop "signature" props) = inr sg ->
     crypto_verify (Buffer_from_string (entry_payload props))
       (fst (generateKeyPairSync entropy)) sg <> inr true) ->
  exists w' reason,
    generateKeys entropy w = (inr tt, w')
    /\ In reason ["signature verification failed"; "signature verification error"]
    /\ verifyChain b w' = (inr (VerifyFail 0 reason n), w').
Proof.
  intros Hok Hrej.
  destruct (verifyChain_ok_inv b w w n Hok)
    as (chain & pk & Hc & Hpk & Hlen & Hne & Hall).
  assert (Hl : loaded_chain w = chain) by (unfold loaded_chain; now rewrite Hc).
  rewrite Hl in Hrej.
  assert (Hn : (0 < n)%nat).
  { destruct chain; [contradiction|]. cbn in Hlen. lia. }
  pose proof (proj1 (entry_outcome_pass _ _ _ _) (Hall 0%nat Hn)) as Hpass.
  destruct (generateKeys_result entropy w) as (pk' & sk' & Hg & Hrun).
  rewrite Hg in Hrej. cbn [fst] in Hrej.
  set (w' := mkWorld true (Some sk') (Some pk') (chainFile w) (files w)) in *.
  assert (Hobj : exists props, nth 0 chain JUndefined = JObj props).
  { specialize (Hpass SequenceCheck). unfold run_check, check_entry in Hpass.
    destruct (nth 0 chain JUndefined); cbn in Hpass; try discriminate.
    now eexists. }
  destruct Hobj as [props Hp].
  assert (Hsig : exists reason,
            In reason ["signature verification failed"; "signature verification error"]
            /\ run_check (files w) pk' chain 0 SignatureCheck = Fail reason).
  { unfold run_check, check_entry. rewrite Hp, verify_chainData_payload.
    cbn [js_get bindE].
    destruct (Buffer_from_hex (prop "signature" props)) as [e|sg] eqn:Hsg; cbn [bindE].
    { eexists. split; [|reflexivity]. cbn; auto. }
    specialize (Hrej props sg Hp Hsg).
    destruct (crypto_verify _ pk' sg) as [e|[|]].
    - eexists. split; [|reflexivity]. cbn; auto.
    - contradiction.
    - eexists. split; [|reflexivity]. cbn; auto. }
  destruct Hsig as (reason & Hin & Hfail).
  exists w', reason. split; [assumption|]. split; [assumption|].
  rewrite <- Hlen.
  apply (verifyChain_first_failure b w' chain pk' 0
           [SequenceCheck; LinkageCheck; ArtifactPresence; ArtifactHash]
           [EntryHashCheck] SignatureCheck); try assumption; try reflexivity; try lia.
  intros c [<-|[<-|[<-|[<-|[]]]]]; cbn [w' files];
    [rewrite <- (Hpass SequenceCheck)|rewrite <- (Hpass LinkageCheck)
    |rewrite <- (Hpass ArtifactPresence)|rewrite <- (Hpass ArtifactHash)];
    reflexivity.
Qed.

End KeyGeneration.

(* ===================================================================== *)
(** ** Frames that are lost, overwritten or flipped back *)
(* ===================================================================== *)

Section Frames.
Context {node : NodeLib}.

Lemma flip_bits_involutive (b : byte) : flip_bits (flip_bits b) = b.
Proof. destruct b; vm_compute; reflexivity. Qed.

Lemma flip_byte_involutive (k : nat) (d : list byte) :
  flip_byte k (flip_byte k d) = d.
Proof.
  unfold flip_byte at 2. destruct (d !! k) as [x|] eqn:Hx.
  - assert (Hk : (k < length d)%nat) by (apply lookup_lt_is_Some; eauto).
    unfold flip_byte. rewrite list_lookup_insert_eq by assumption.
    rewrite list_insert_insert_eq, flip_bits_involutive.
    now apply list_insert_id.
  - unfold flip_byte. now rewrite Hx.
Qed.

(** The flip of one byte keeps the length and every other byte, changes
    the byte it is applied to, and undoes itself. *)
Lemma flip_byte_facts (k : nat) (d : list byte) :
  length (flip_byte k d) = length d
  /\ (forall j, j <> k -> flip_byte k d !! j = d !! j)
  /\ (forall x, d !! k = Some x -> flip_byte k d !! k = Some (flip_bits x)
                                 /\ flip_bits x <> x)
  /\ flip_byte k (flip_byte k d) = d.
Proof.
  repeat apply conj.
  - unfold flip_byte. destruct (d !! k); [apply length_insert|reflexivity].
  - intros j Hj. unfold flip_byte.
    destruct (d !! k); [now apply list_lookup_insert_ne|reflexivity].
  - intros x Hx. unfold flip_byte. rewrite Hx. split; [|apply flip_bits_neq].
    apply list_lookup_insert_eq. apply lookup_lt_is_Some. eauto.
  - apply flip_byte_involutive.
Qed.

Lemma set_files_id (w : World) : set_files (files w) w = w.
Proof. now destruct w. Qed.

(** X10. The tamper step [data[k] = data[k] ^ 0xFF] on the file at [p]:
    done twice it restores the state; done once it leaves the keys, the
    chain and every other file alone, keeps the length of the file and
    every byte of it but the one at position [k], and puts a different byte
    there. *)
Theorem tamper_frame_twice (p : string) (k : nat) (w : World) :
  tamper_frame p k (tamper_frame p k w) = w
  /\ keysDir (tamper_frame p k w) = keysDir w
  /\ privateKeyFile (tamper_frame p k w) = privateKeyFile w
  /\ publicKeyFile (tamper_frame p k w) = publicKeyFile w
  /\ chainFile (tamper_frame p k w) = chainFile w
  /\ (forall q, q <> p -> files (tamper_frame p k w) !! q = files w !! q)
  /\ (forall d, files w !! p = Some d ->
        exists d', files (tamper_frame p k w) !! p = Some d'
          /\ length d' = length d
          /\ (forall j, j <> k -> d' !! j = d !! j)
          /\ (forall x, d !! k = Some x -> d' !! k = Some (flip_bits x) /\ flip_bits x <> x)).
Proof.
  split.
  { unfold tamper_frame at 2.
    destruct (files w !! p) as [d|] eqn:Hd.
    - unfold tamper_frame. cbn [files set_files]. rewrite lookup_insert_eq.
      rewrite flip_byte_involutive.
      rewrite insert_insert_eq, insert_id by assumption.
      unfold set_files. cbn. now destruct w.
    - unfold tamper_frame. now rewrite Hd. }
  unfold tamper_frame.
  destruct (files w !! p) as [d|] eqn:Hd;
    cbn [keysDir privateKeyFile publicKeyFile chainFile files set_files].
  - repeat split.
    + intros q Hq. now apply lookup_insert_ne.
    + intros d0 [= <-]. exists (flip_byte k d).
      split; [apply lookup_insert_eq|].
      destruct (flip_byte_facts k d) as (H1 & H2 & H3 & _).
      split; [exact H1|]. split; [exact H2|exact H3].
  - repeat split. intros d H. discriminate H.
Qed.

Lemma verify_loop_ext (b : bool) (pk : string) (chain : list JSValue) (w w' : World)
    (todo i : nat) :
  (forall j, entry_outcome (files w') pk chain j = entry_outcome (files w) pk chain j) ->
  fst (verify_loop b pk chain i todo w') = fst (verify_loop b pk chain i todo w).
Proof.
  intros H. revert i. induction todo as [|todo IH]; intros i; cbn [verify_loop].
  - now rewrite !report_run.
  - unfold bind. rewrite !verify_entry_outcome, H.
    destruct (outcome_result _ _ _) as [e|[r|]]; try reflexivity. apply IH.
Qed.

(** X11. Verification reads the chain file, the public key and the frames
    that the entries reference, and nothing else: in two states that agree
    on these, [verifyChain] returns, or throws, the same. *)
Theorem verifyChain_reads_referenced_frames (b : bool) (w w' : World) :
  chainFile w' = chainFile w ->
  publicKeyFile w' = publicKeyFile w ->
  (forall i q, (i < length (loaded_chain w))%nat ->
     artifact_path (nth i (loaded_chain w) JUndefined) = Some q ->
     files w' !! q = files w !! q) ->
  fst (verifyChain b w') = fst (verifyChain b w).
Proof.
  intros Hc Hk Hf. unfold verifyChain, bind.
  rewrite !verify_loadChain_run, Hc. unfold loaded_chain in Hf.
  destruct (chainFile w) as [[|chain]|]; try reflexivity.
  2:{ cbn [length Nat.eqb]. now rewrite !report_run. }
  destruct (length chain =? 0)%nat; [now rewrite !report_run|].
  rewrite !loadPublicKey_run, Hk.
  destruct (publicKeyFile w) as [pk|]; [|reflexivity].
  apply verify_loop_ext. intros j. unfold entry_outcome. f_equal.
  apply map_ext. intros c. apply run_check_frames_ext.
  intros q Hq. apply (Hf j); [|assumption].
  destruct (Nat.lt_ge_cases j (length chain)) as [Hj|Hj]; [assumption|].
  rewrite nth_overflow in Hq by assumption. discriminate Hq.
Qed.

(** A frame overwritten with bytes of another digest is found at the first
    entry that references it. *)
Lemma overwritten_frame_first_failure (b : bool) (w : World) (n i : nat)
    (p : string) (d d' : list byte) :
  verifyChain b w = (inr (VerifyOk n), w) ->
  (i < n)%nat ->
  artifact_path (nth i (loaded_chain w) JUndefined) = Some p ->
  (forall j, (j < i)%nat ->
     artifact_path (nth j (loaded_chain w) JUndefined) <> Some p) ->
  files w !! p = Some d ->
  sha256 d' <> sha256 d ->
  verifyChain b (set_files (<[p := d']> (files w)) w)
  = (inr (VerifyFail i "frame hash mismatch" n), set_files (<[p := d']> (files w)) w).
Proof.
  intros Hok Hi Hp Hfirst Hd Hsha.
  destruct (verifyChain_ok_inv b w w n Hok)
    as (chain & pk & Hc & Hpk & Hlen & Hne & Hall).
  assert (Hl : loaded_chain w = chain) by (unfold loaded_chain; now rewrite Hc).
  rewrite Hl in *.
  assert (Hpass : forall j c, (j < n)%nat -> run_check (files w) pk chain j c = Pass).
  { intros j c Hj. now apply entry_outcome_pass, Hall. }
  destruct (artifact_checks_inv (files w) pk chain i (Hpass i _ Hi) (Hpass i _ Hi))
    as (f & d0 & Hf & Hd0 & Hh).
  assert (Hpf : p = path_join_images f).
  { unfold artifact_path in Hp. rewrite Hf in Hp. now injection Hp. }
  subst p. rewrite Hd in Hd0. injection Hd0 as <-.
  set (w' := set_files (<[path_join_images f := d']> (files w)) w).
  rewrite <- Hlen.
  apply (verifyChain_first_failure b w' chain pk i
           [SequenceCheck; LinkageCheck; ArtifactPresence]
           [SignatureCheck; EntryHashCheck]
           ArtifactHash); try assumption; try reflexivity; try lia.
  - intros j c Hj. cbn [w' files set_files].
    rewrite (run_check_frames_ext (files w)); [apply Hpass; lia|].
    intros q Hq. apply lookup_insert_ne. intros <-. now apply (Hfirst j).
  - intros c [<-|[<-|[<-|[]]]]; cbn [w' files set_files].
    + rewrite <- (Hpass i SequenceCheck Hi). reflexivity.
    + rewrite <- (Hpass i LinkageCheck Hi). reflexivity.
    + unfold run_check, check_entry. rewrite Hf. cbn [bindE path_join].
      now rewrite lookup_insert_eq.
  - cbn [w' files set_files]. unfold run_check, check_entry. rewrite Hf, Hh.
    cbn [bindE path_join]. rewrite lookup_insert_eq.
    now rewrite sha256_hex_neq.
Qed.

(** X12. On a chain that verifies, take the frame that entry [i]
    references and no earlier entry does. When the file is deleted,
    verification fails at index [i] with 'frame file missing'; when it is
    overwritten with bytes of another digest, it fails at index [i] with
    'frame hash mismatch'. *)
Theorem frame_loss_detected (b : bool) (w : World) (n i : nat) (p : string) :
  verifyChain b w = (inr (VerifyOk n), w) ->
  (i < n)%nat ->
  artifact_path (nth i (loaded_chain w) JUndefined) = Some p ->
  (forall j, (j < i)%nat ->
     artifact_path (nth j (loaded_chain w) JUndefined) <> Some p) ->
  (let w' := set_files (delete p (files w)) w in
   verifyChain b w' = (inr (VerifyFail i "frame file missing" n), w'))
  /\ (forall d d', files w !! p = Some d -> sha256 d' <> sha256 d ->
        let w' := set_files (<[p := d']> (files w)) w in
        verifyChain b w' = (inr (VerifyFail i "frame hash mismatch" n), w')).
Proof.
  intros Hok Hi Hp Hfirst. split.
  2:{ intros d d' Hd Hsha w'.
      now apply (overwritten_frame_first_failure b w n i p d d'). }
  destruct (verifyChain_ok_inv b w w n Hok)
    as (chain & pk & Hc & Hpk & Hlen & Hne & Hall).
  assert (Hl : loaded_chain w = chain) by (unfold loaded_chain; now rewrite Hc).
  rewrite Hl in *.
  assert (Hpass : forall j c, (j < n)%nat -> run_check (files w) pk chain j c = Pass).
  { intros j c Hj. now apply entry_outcome_pass, Hall. }
  destruct (artifact_checks_inv (files w) pk chain i (Hpass i _ Hi) (Hpass i _ Hi))
    as (f & d0 & Hf & Hd0 & Hh).
  assert (Hpf : p = path_join_images f).
  { unfold artifact_path in Hp. rewrite Hf in Hp. now injection Hp. }
  subst p. intros w'. rewrite <- Hlen.
  apply (verifyChain_first_failure b w' chain pk i
           [SequenceCheck; LinkageCheck] [ArtifactHash; SignatureCheck; EntryHashCheck]
           ArtifactPresence); try assumption; try reflexivity; try lia.
  - intros j c Hj. cbn [w' files set_files].
    rewrite (run_check_frames_ext (files w)); [apply Hpass; lia|].
    intros q Hq. apply lookup_delete_ne. intros <-. now apply (Hfirst j).
  - intros c [<-|[<-|[]]]; cbn [w' files set_files].
    + rewrite <- (Hpass i SequenceCheck Hi). reflexivity.
    + rewrite <- (Hpass i LinkageCheck Hi). reflexivity.
  - cbn [w' files set_files]. unfold run_check, check_entry. rewrite Hf.
    cbn [bindE path_join]. now rewrite lookup_delete_eq.
Qed.

End Frames.

(* ===================================================================== *)
(** ** The tamper programs, path by path *)
(* ===================================================================== *)

Section TamperPrograms.
Context {node : NodeLib}.

Lemma tamperFrame_cases (readdir : list string) (random : nat) (w : World) :
  tamperFrame readdir random w
  = match List.filter is_frame_file readdir with
    | [] => (inl (Error "No frames to tamper with"), w)
    | f0 :: r =>
        match (f0 :: r) !! random with
        | None => (inl TypeError, w)
        | Some f =>
            match files w !! path_join_images f with
            | None => (inl (SystemError "ENOENT"), w)
            | Some d => (inr f, tamper_frame (path_join_images f) (length d / 2) w)
            end
        end
    end.
Proof.
  unfold tamperFrame.
  destruct (List.filter is_frame_file readdir) as [|f0 r]; [reflexivity|].
  cbn [length Nat.eqb]. cbv zeta.
  unfold bind at 1. unfold lift, join_listed.
  destruct ((f0 :: r) !! random) as [f|]; [|reflexivity].
  cbn [fst snd].
  unfold bind at 1. unfold fs_readFileSync, tamper_frame.
  destruct (files w !! _) as [d|]; reflexivity.
Qed.

Lemma filter_lookup_In (names : list string) (k : nat) (f : string) :
  List.filter is_frame_file names !! k = Some f ->
  In f names /\ is_frame_file f = true.
Proof.
  intros H. apply filter_In. apply list_elem_of_In.
  eapply list_elem_of_lookup_2. exact H.
Qed.

Lemma middle_flip_neq (d : list byte) : d <> [] -> flip_byte (length d / 2) d <> d.
Proof.
  intros Hne. apply flip_byte_neq. destruct d; [contradiction|].
  cbn [length]. apply Nat.div_lt; lia.
Qed.

(** X13. [tamperFrame] of server.js. When no name of the listing has the
    form frame_*.jpg it throws 'No frames to tamper with' and changes
    nothing. The file it draws is a name of the listing that starts with
    [frame_] and ends with [.jpg]. When that file is absent the read throws
    and nothing is changed; when it is there the call returns the name and
    rewrites that file alone, with the byte in the middle flipped: same
    length, and other content unless the file is empty. *)
Theorem tamperFrame_result (readdir : list string) (random : nat) (w : World) :
  (List.filter is_frame_file readdir = [] ->
   tamperFrame readdir random w = (inl (Error "No frames to tamper with"), w))
  /\ (forall f, List.filter is_frame_file readdir !! random = Some f ->
        In f readdir /\ startsWith "frame_" f = true /\ endsWith ".jpg" f = true
        /\ (files w !! path_join_images f = None ->
            tamperFrame readdir random w = (inl (SystemError "ENOENT"), w))
        /\ (forall d, files w !! path_join_images f = Some d ->
              exists w',
                tamperFrame readdir random w = (inr f, w')
                /\ keysDir w' = keysDir w /\ privateKeyFile w' = privateKeyFile w
                /\ publicKeyFile w' = publicKeyFile w /\ chainFile w' = chainFile w
                /\ (forall q, q <> path_join_images f -> files w' !! q = files w !! q)
                /\ files w' !! path_join_images f = Some (flip_byte (length d / 2) d)
                /\ length (flip_byte (length d / 2) d) = length d
                /\ (d <> [] -> flip_byte (length d / 2) d <> d))).
Proof.
  split.
  - intros H. now rewrite tamperFrame_cases, H.
  - intros f Hf. destruct (filter_lookup_In _ _ _ Hf) as [Hin Hff].
    unfold is_frame_file in Hff. apply andb_prop in Hff as [Hs He].
    split; [assumption|]. split; [assumption|]. split; [assumption|].
    rewrite tamperFrame_cases.
    destruct (List.filter is_frame_file readdir) as [|f0 r] eqn:E; [discriminate Hf|].
    rewrite Hf. split.
    + intros Hd. now rewrite Hd.
    + intros d Hd. rewrite Hd. eexists. split; [reflexivity|].
      unfold tamper_frame. rewrite Hd.
      cbn [keysDir privateKeyFile publicKeyFile chainFile files set_files].
      repeat split.
      * intros q Hq. now apply lookup_insert_ne.
      * apply lookup_insert_eq.
      * unfold flip_byte. destruct (d !! _); [apply length_insert|reflexivity].
      * apply middle_flip_neq.
Qed.

(** X14. scripts/tamper_one.js exits with status 0 only when the images
    directory exists, the file drawn among the names of the form
    frame_*.jpg is there and the position drawn lies inside of it; the file
    then has that one byte flipped and nothing else is changed. In every
    other case (no directory, no such name, file absent, position outside
    of the file, as on an empty file) the state is as it was and the process
    ends with status 1, or with the TypeError of [path.join]. *)
Theorem tamperRandomFrame_exit_status (readdir : option (list string))
    (random tamperIndex : nat) (w : World) :
  exists r w',
    tamperRandomFrame readdir random tamperIndex w = (r, w')
    /\ (((r = inr 1%Z \/ r = inl TypeError) /\ w' = w)
        \/ (r = inr 0%Z
            /\ exists names f d,
                 readdir = Some names
                 /\ List.filter is_frame_file names !! random = Some f
                 /\ files w !! path_join_images f = Some d
                 /\ (tamperIndex < length d)%nat
                 /\ w' = set_files (<[path_join_images f := flip_byte tamperIndex d]>
                                     (files w)) w
                 /\ flip_byte tamperIndex d <> d)).
Proof.
  unfold tamperRandomFrame.
  destruct readdir as [names|]; [|exists (inr 1%Z), w; split; [reflexivity|left; auto]].
  destruct (List.filter is_frame_file names) as [|f0 r] eqn:E;
    [exists (inr 1%Z), w; split; [reflexivity|left; auto]|].
  cbn [length Nat.eqb]. cbv zeta.
  unfold bind at 1. unfold lift, join_listed.
  destruct ((f0 :: r) !! random) as [f|] eqn:Hf;
    [|exists (inl TypeError), w; split; [reflexivity|left; auto]].
  cbn [snd].
  unfold try_catch, bind at 1, fs_readFileSync.
  destruct (files w !! path_join_images f) as [d|] eqn:Hd;
    [|exists (inr 1%Z), w; split; [reflexivity|left; auto]].
  unfold bind, fs_writeFileSync, modify.
  destruct (d !! tamperIndex) as [x|] eqn:Hx.
  - assert (Hk : (tamperIndex < length d)%nat) by (apply lookup_lt_is_Some; eauto).
    eexists (inr 0%Z), _. split; [reflexivity|]. right. split; [reflexivity|].
    exists names, f, d. rewrite E. repeat split; try assumption.
    now apply flip_byte_neq.
  - exists (inr 1%Z), w. split; [|left; auto].
    unfold ret, throw. f_equal.
    unfold flip_byte. rewrite Hx. rewrite insert_id by assumption.
    now destruct w.
Qed.

End TamperPrograms.

(* ===================================================================== *)
(** ** Turns of the capture server *)
(* ===================================================================== *)

Section ServerTheory.
Context {node : NodeLib}.

Lemma on_disk_run {A : Type} (m : M A) (s : Server) (r : exn + A) (w : World) :
  m (disk s) = (r, w) -> on_disk m s = (r, mkServer w (sent s)).
Proof. intros H. unfold on_disk. now rewrite H. Qed.

Lemma fs_copyFileSync_run (src dst : string) (w : World) :
  fs_copyFileSync src dst w
  = match files w !! src with
    | Some d => (inr tt, set_files (<[dst := d]> (files w)) w)
    | None => (inl (SystemError "ENOENT"), w)
    end.
Proof.
  unfold fs_copyFileSync, bind, fs_readFileSync.
  destruct (files w !! src); reflexivity.
Qed.

(** An entry on which the artifact presence check passes references a file
    that is there. *)
Lemma presence_pass_file (frames : gmap string (list byte)) (pk : string)
    (chain : list JSValue) (j : nat) (q : string) :
  run_check frames pk chain j ArtifactPresence = Pass ->
  artifact_path (nth j chain JUndefined) = Some q ->
  is_some (frames !! q) = true.
Proof.
  unfold run_check, check_entry, artifact_path.
  destruct (js_get (nth j chain JUndefined) "frameFile") as [e|[]];
    cbn [bindE path_join]; try discriminate.
  intros H [= <-]. now apply pass_if_pass in H.
Qed.

(** The entry that [ingestFrame] returns on a valid store. *)
Lemma ingestFrame_valid_store (now p : string) (w : World) (pk sk : string)
    (d : list byte) :
  keypair_ok pk sk ->
  valid_store pk sk w ->
  files w !! p = Some d ->
  files w !! path_join_images (path_basename p) = Some d ->
  exists ph s,
    let e := new_entry (length (loaded_chain w)) now (path_basename p) d (JStr ph) s in
    let w' := set_chainFile (Some (JsonArray (loaded_chain w ++ [e]))) w in
    ingestFrame now p w = (inr e, w')
    /\ valid_store pk sk w'.
Proof.
  intros Hkp (Hpk & Hsk & Hc & Hb & Hpass) Hd Hd'.
  destruct (ingestFrame_keeps_valid now p w pk sk d Hsk Hkp Hb Hpass Hd Hd')
    as (e & Hrun & Hb' & Hpass').
  cbv zeta in Hrun, Hb', Hpass'.
  destruct (head_hash_built _ Hb) as [ph Hph].
  pose proof (ingestFrame_cases now p w) as Hcases.
  rewrite Hd, Hph, Hsk in Hcases.
  destruct (crypto_sign _ sk) as [e'|s] eqn:Hs.
  { rewrite Hrun in Hcases. discriminate Hcases. }
  rewrite Hrun in Hcases. injection Hcases as He _.
  exists ph, s. cbv zeta. rewrite <- He.
  split; [assumption|]. repeat split; try assumption. discriminate.
Qed.

(** X16. One turn of the capture loop on a valid store, with a sound key
    pair, the captured frame in place and a frame name that is not taken
    yet and that [path.basename] gives back: [processFrame] copies the
    frame under that name, appends one entry, leaves a valid store, and
    broadcasts [chain_head] with the index, the frame name, the hash and the
    timestamp of the new entry, followed by [verify_ok] with the new
    length. *)
Theorem processFrame_keeps_store_valid (now1 now2 framePath : string) (s : Server)
    (pk sk : string) (d : list byte) :
  let name := frame_name now1 in
  let n := length (loaded_chain (disk s)) in
  keypair_ok pk sk ->
  valid_store pk sk (disk s) ->
  files (disk s) !! framePath = Some d ->
  path_basename (path_join_images name) = name ->
  files (disk s) !! path_join_images name = None ->
  exists entry hash s',
    processFrame now1 now2 framePath s = (inr tt, s')
    /\ valid_store pk sk (disk s')
    /\ files (disk s') = <[path_join_images name := d]> (files (disk s))
    /\ loaded_chain (disk s') = loaded_chain (disk s) ++ [entry]
    /\ js_get entry "hash" = inr hash
    /\ sent s' = sent s ++ [chain_head (JNum (Z.of_nat n)) name hash (JStr now2);
                            verify_ok (S n)].
Proof.
  intros name n Hkp Hvalid Hd Hbase Hfresh.
  set (dst := path_join_images name) in *.
  set (w := disk s) in *.
  set (w1 := set_files (<[dst := d]> (files w)) w).
  assert (Hvalid1 : valid_store pk sk w1).
  { destruct Hvalid as (Hpk & Hsk & Hc & Hb & Hpass).
    repeat split; try assumption.
    intros j c Hj. cbn [w1 loaded_chain chainFile set_files files] in *.
    rewrite (run_check_frames_ext (files w)); [now apply Hpass|].
    intros q Hq. apply lookup_insert_ne. intros <-.
    pose proof (presence_pass_file _ _ _ _ _ (Hpass j ArtifactPresence Hj) Hq) as H.
    rewrite Hfresh in H. discriminate H. }
  destruct (ingestFrame_valid_store now2 dst w1 pk sk d Hkp Hvalid1)
    as (ph & sg & Hrun & Hvalid2).
  { cbn [w1 files set_files]. apply lookup_insert_eq. }
  { rewrite Hbase. cbn [w1 files set_files]. apply lookup_insert_eq. }
  cbv zeta in Hrun, Hvalid2. rewrite Hbase in Hrun, Hvalid2.
  change (loaded_chain w1) with (loaded_chain w) in Hrun, Hvalid2.
  fold n in Hrun, Hvalid2.
  set (e := new_entry n now2 name d (JStr ph) sg) in *.
  set (w2 := set_chainFile (Some (JsonArray (loaded_chain w ++ [e]))) w1) in *.
  destruct Hvalid2 as (Hpk2 & Hsk2 & Hc2 & Hb2 & Hpass2).
  destruct (verifyChain_valid true w2 pk Hc2 Hpk2 Hpass2) as (r & Hv & Hsucc & Hcount).
  assert (Hlen2 : length (loaded_chain w2) = S n).
  { cbn [w2 loaded_chain chainFile set_chainFile]. rewrite length_app.
    cbn [length]. fold n. lia. }
  exists e, (JStr (sha256_hex (Buffer_from_string
    (ingest_chainData (JNum (Z.of_nat n)) (JStr now2) (JStr name)
       (JStr (sha256_hex d)) (JStr ph))))).
  eexists. split.
  - unfold processFrame, try_catchS. fold name. fold dst.
    unfold bindS at 1.
    rewrite (on_disk_run _ s (inr tt) w1)
      by (rewrite fs_copyFileSync_run; fold w; now rewrite Hd).
    unfold bindS at 1.
    rewrite (on_disk_run _ (mkServer w1 (sent s)) (inr e) w2) by exact Hrun.
    cbn [sent].
    unfold bindS at 1. unfold liftS at 1.
    change (js_get e "index") with (@inr exn _ (JNum (Z.of_nat n))).
    unfold bindS at 1. unfold liftS at 1.
    change (js_get e "hash")
      with (@inr exn _ (JStr (sha256_hex (Buffer_from_string
              (ingest_chainData (JNum (Z.of_nat n)) (JStr now2) (JStr name)
                 (JStr (sha256_hex d)) (JStr ph)))))).
    unfold bindS at 1. unfold liftS at 1.
    change (js_get e "timestamp") with (@inr exn _ (JStr now2)).
    unfold bindS at 1. unfold broadcastSSE at 1. cbn [disk sent].
    unfold bindS at 1.
    rewrite (on_disk_run _ _ (inr r) w2) by exact Hv.
    cbn [sent].
    rewrite Hbase.
    destruct r as [|i reason c|c]; cbn [success] in Hsucc; try discriminate;
      unfold broadcastSSE; cbn [disk sent]; rewrite Hcount, Hlen2;
      rewrite <- app_assoc; reflexivity.
  - cbn [disk sent]. repeat split; try assumption.
Qed.

(** X17. [processFrame] never throws. When the captured frame is missing
    it changes nothing and broadcasts one [error] event. When the private
    key is missing, the copy under the timestamped name has already been
    made: it stays in [images], no entry is appended, and one [error] event
    is broadcast. *)
Theorem processFrame_failure (now1 now2 framePath : string) (s : Server) :
  let dst := path_join_images (frame_name now1) in
  (exists s', processFrame now1 now2 framePath s = (inr tt, s'))
  /\ (files (disk s) !! framePath = None ->
      processFrame now1 now2 framePath s
      = (inr tt,
         mkServer (disk s)
           (sent s ++ [error_event "Frame processing failed: " (SystemError "ENOENT")])))
  /\ (forall d, files (disk s) !! framePath = Some d ->
        (exists ph, head_hash (loaded_chain (disk s)) = inr ph) ->
        privateKeyFile (disk s) = None ->
        processFrame now1 now2 framePath s
        = (inr tt,
           mkServer (set_files (<[dst := d]> (files (disk s))) (disk s))
             (sent s ++ [error_event "Frame processing failed: "
                           (Error "Private key not found. Run generate_keys.js first.")]))).
Proof.
  intros dst. split; [|split].
  - unfold processFrame, try_catchS.
    match goal with
    | |- context [match ?m s with _ => _ end] => destruct (m s) as [[e|[]] s']
    end; eexists; reflexivity.
  - intros Hd. unfold processFrame, try_catchS. unfold bindS at 1.
    rewrite (on_disk_run _ s (inl (SystemError "ENOENT")) (disk s))
      by (rewrite fs_copyFileSync_run; now rewrite Hd).
    unfold broadcastSSE. cbn [disk sent]. now destruct s.
  - intros d Hd [ph Hph] Hk. unfold processFrame, try_catchS. fold dst.
    set (w1 := set_files (<[dst := d]> (files (disk s))) (disk s)).
    unfold bindS at 1.
    rewrite (on_disk_run _ s (inr tt) w1)
      by (rewrite fs_copyFileSync_run; now rewrite Hd).
    unfold bindS at 1.
    rewrite (on_disk_run _ _ (inl (Error "Private key not found. Run generate_keys.js first.")) w1).
    + reflexivity.
    + cbn [disk]. rewrite ingestFrame_cases.
      change (loaded_chain w1) with (loaded_chain (disk s)).
      change (privateKeyFile w1) with (privateKeyFile (disk s)).
      change (files w1) with (<[dst := d]> (files (disk s))).
      now rewrite lookup_insert_eq, Hph, Hk.
Qed.

Lemma nth_app_reload (chain : list JSValue) (e : JSValue) (j : nat) :
  map json_reload_elem chain = chain ->
  (j < length chain)%nat ->
  nth j (map json_reload_elem (chain ++ [e])) JUndefined = nth j chain JUndefined.
Proof.
  intros Hst Hj. rewrite map_app, Hst. now rewrite app_nth1.
Qed.

(** X18. [processFrame] goes on appending to a chain that no longer
    verifies. When verification fails at index [i] with [reason] before the
    turn, and the new frame name is not taken and not referenced by the
    entries up to [i], the turn appends the new entry after the stored ones
    and broadcasts [chain_head] for it followed by [verify_fail] with the
    same index and reason and the count one higher. *)
Theorem processFrame_on_broken_chain (now1 now2 framePath : string) (s : Server)
    (i n : nat) (reason : string) (d : list byte) (ph : JSValue) (sk : string)
    (sg : list byte) :
  let name := frame_name now1 in
  let dst := path_join_images name in
  let chain := loaded_chain (disk s) in
  let entry := new_entry n now2 (path_basename dst) d ph sg in
  verifyChain true (disk s) = (inr (VerifyFail i reason n), disk s) ->
  map json_reload_elem chain = chain ->
  files (disk s) !! framePath = Some d ->
  files (disk s) !! dst = None ->
  (forall j, (j <= i)%nat -> artifact_path (nth j chain JUndefined) <> Some dst) ->
  head_hash chain = inr ph ->
  privateKeyFile (disk s) = Some sk ->
  crypto_sign
    (Buffer_from_string
       (ingest_chainData (JNum (Z.of_nat n)) (JStr now2) (JStr (path_basename dst))
          (JStr (sha256_hex d)) ph)) sk = inr sg ->
  exists s',
    processFrame now1 now2 framePath s = (inr tt, s')
    /\ loaded_chain (disk s') = chain ++ [json_reload_elem entry]
    /\ sent s'
       = sent s ++ [chain_head (JNum (Z.of_nat n)) (path_basename dst)
                      (JStr (sha256_hex (Buffer_from_string
                         (ingest_chainData (JNum (Z.of_nat n)) (JStr now2)
                            (JStr (path_basename dst)) (JStr (sha256_hex d)) ph))))
                      (JStr now2);
                    verify_fail i reason (S n)].
Proof.
  intros name dst chain entry Hfail Hst Hd Hfresh Hnoref Hph Hsk Hs.
  destruct (verifyChain_fail_outcome _ _ _ _ _ _ Hfail)
    as (chain0 & pk & Hc & Hk & Hn & Hi & Hp & Hf).
  assert (Hl : chain = chain0) by (unfold chain, loaded_chain; now rewrite Hc).
  subst chain0.
  set (w := disk s) in *.
  set (w1 := set_files (<[dst := d]> (files w)) w).
  set (chain2 := map json_reload_elem (chain ++ [entry])).
  set (w2 := set_chainFile (Some (JsonArray chain2)) w1).
  assert (Hrun : ingestFrame now2 dst w1 = (inr entry, w2)).
  { assert (Hl1 : loaded_chain w1 = chain) by reflexivity.
    rewrite (ingestFrame_run now2 dst w1 d ph sk sg); rewrite ?Hl1, <- ?Hn;
      try assumption; try reflexivity.
    apply lookup_insert_eq. }
  assert (Hlen2 : length chain2 = S n).
  { unfold chain2. rewrite length_map, length_app. cbn [length]. lia. }
  assert (Hout : forall j, (j <= i)%nat ->
            entry_outcome (files w2) pk chain2 j = entry_outcome (files w) pk chain j).
  { intros j Hj. unfold entry_outcome. f_equal. apply map_ext. intros c.
    cbn [w2 w1 files set_chainFile set_files].
    rewrite (run_check_ext _ _ chain2 chain).
    - apply run_check_frames_ext. intros q Hq. apply lookup_insert_ne.
      intros <-. now apply (Hnoref j).
    - apply nth_app_reload; [assumption|lia].
    - apply nth_app_reload; [assumption|lia]. }
  assert (Hv : verifyChain true w2 = (inr (VerifyFail i reason (S n)), w2)).
  { rewrite <- Hlen2. apply (verifyChain_stop true w2 chain2 pk i reason).
    - reflexivity.
    - exact Hk.
    - lia.
    - intros j Hj. rewrite Hout by lia. now apply Hp.
    - rewrite Hout by lia. assumption. }
  eexists. split; [|split].
  - unfold processFrame, try_catchS. fold name. fold dst.
    unfold bindS at 1.
    rewrite (on_disk_run _ s (inr tt) w1)
      by (rewrite fs_copyFileSync_run; fold w; now rewrite Hd).
    unfold bindS at 1.
    rewrite (on_disk_run _ (mkServer w1 (sent s)) (inr entry) w2) by exact Hrun.
    cbn [sent].
    unfold bindS at 1. unfold liftS at 1.
    change (js_get entry "index") with (@inr exn _ (JNum (Z.of_nat n))).
    unfold bindS at 1. unfold liftS at 1.
    change (js_get entry "hash")
      with (@inr exn _ (JStr (sha256_hex (Buffer_from_string
              (ingest_chainData (JNum (Z.of_nat n)) (JStr now2) (JStr (path_basename dst))
                 (JStr (sha256_hex d)) ph))))).
    unfold bindS at 1. unfold liftS at 1.
    change (js_get entry "timestamp") with (@inr exn _ (JStr now2)).
    unfold bindS at 1. unfold broadcastSSE at 1. cbn [disk sent].
    unfold bindS at 1.
    rewrite (on_disk_run _ _ (inr (VerifyFail i reason (S n))) w2) by exact Hv.
    cbn [sent]. unfold broadcastSSE. cbn [disk sent]. reflexivity.
  - cbn [disk w2 loaded_chain chainFile set_chainFile]. unfold chain2.
    rewrite map_app, Hst. reflexivity.
  - cbn [sent]. now rewrite <- app_assoc.
Qed.

(** X15. The route [POST /tamper]. When no name of the listing has the
    form frame_*.jpg it answers 500, broadcasts nothing and changes
    nothing. On a drawn file that is there it answers 200, flips the byte
    in the middle of that file and broadcasts one [tampered] event with its
    name; and when the chain verified before, the file is not empty, entry
    [i] is the first to reference it and SHA-256 tells the flipped bytes
    from the original, verification afterwards fails at index [i] with
    'frame hash mismatch'. *)
Theorem tamper_route_result (readdir : list string) (random : nat) (s : Server) :
  (List.filter is_frame_file readdir = [] ->
   tamper_route readdir random s = (inr 500%Z, s))
  /\ (forall f d,
        List.filter is_frame_file readdir !! random = Some f ->
        files (disk s) !! path_join_images f = Some d ->
        let p := path_join_images f in
        let w' := set_files (<[p := flip_byte (length d / 2) d]> (files (disk s)))
                    (disk s) in
        tamper_route readdir random s = (inr 200%Z, mkServer w' (sent s ++ [tampered f]))
        /\ (forall n i,
              verifyChain true (disk s) = (inr (VerifyOk n), disk s) ->
              (i < n)%nat ->
              artifact_path (nth i (loaded_chain (disk s)) JUndefined) = Some p ->
              (forall j, (j < i)%nat ->
                 artifact_path (nth j (loaded_chain (disk s)) JUndefined) <> Some p) ->
              d <> [] ->
              (flip_byte (length d / 2) d <> d ->
               sha256 (flip_byte (length d / 2) d) <> sha256 d) ->
              verifyChain true w' = (inr (VerifyFail i "frame hash mismatch" n), w'))).
Proof.
  split.
  - intros H. unfold tamper_route, try_catchS. unfold bindS at 1.
    rewrite (on_disk_run _ s (inl (Error "No frames to tamper with")) (disk s))
      by (now rewrite tamperFrame_cases, H).
    unfold retS. now destruct s.
  - intros f d Hf Hd p w'. split.
    + unfold tamper_route, try_catchS. unfold bindS at 1.
      rewrite (on_disk_run _ s (inr f) w').
      * reflexivity.
      * rewrite tamperFrame_cases.
        destruct (List.filter is_frame_file readdir) as [|f0 r]; [discriminate Hf|].
        rewrite Hf, Hd. unfold tamper_frame. now rewrite Hd.
    + intros n i Hok Hi Hp Hfirst Hne Hcol.
      apply (overwritten_frame_first_failure true (disk s) n i p d); try assumption.
      apply Hcol. now apply middle_flip_neq.
Qed.

End ServerTheory.

(* ===================================================================== *)
(** ** The payload determines the five values *)
(* ===================================================================== *)

Lemma pretty_N_char_no_comma (x : N) : Ascii.eqb (pretty_N_char x) "," = false.
Proof. unfold pretty_N_char. repeat case_match; reflexivity. Qed.

Lemma pretty_N_go_no_comma (x : N) (s : string) :
  no_comma s = true -> no_comma (pretty_N_go x s) = true.
Proof.
  revert s. induction (N.lt_wf_0 x) as [x _ IH]. intros s Hs.
  destruct (N.eq_dec x 0%N) as [->|Hx]; [now rewrite pretty_N_go_0|].
  rewrite pretty_N_go_step by lia. apply IH.
  - apply N.div_lt; lia.
  - cbn [no_comma]. now rewrite pretty_N_char_no_comma, Hs.
Qed.

Lemma pretty_Z_no_comma (z : Z) : no_comma (pretty z) = true.
Proof.
  destruct z as [|p|p]; [reflexivity| |].
  - change (pretty (Z.pos p)) with (pretty (N.pos p)). unfold pretty, pretty_N.
    case_decide; [reflexivity|]. now apply pretty_N_go_no_comma.
  - change (pretty (Z.neg p)) with ("-" +:+ pretty (N.pos p)).
    rewrite string_app_cons, string_app_nil_l. cbn [no_comma].
    change (negb (Ascii.eqb "-" ",")) with true. cbn [andb].
    unfold pretty, pretty_N.
    case_decide; [reflexivity|]. now apply pretty_N_go_no_comma.
Qed.

Lemma comma_split (a b r r' : string) :
  no_comma a = true -> no_comma b = true ->
  a +:+ String "," r = b +:+ String "," r' -> a = b /\ r = r'.
Proof.
  revert b. induction a as [|x a IH]; intros [|y b] Ha Hb H;
    rewrite ?string_app_nil_l, ?string_app_cons in H.
  - injection H as ->. now split.
  - injection H as <- _. cbn in Hb. discriminate Hb.
  - injection H as -> _. cbn in Ha. discriminate Ha.
  - injection H as -> H. cbn [no_comma] in Ha, Hb.
    apply andb_prop in Ha as [_ Ha]. apply andb_prop in Hb as [_ Hb].
    destruct (IH b Ha Hb H) as [-> ->]. now split.
Qed.

Lemma string_cons_inj (c : ascii) (a b : string) : String c a = String c b -> a = b.
Proof. intros H. now injection H. Qed.

Section PayloadDetermines.
Context {node : NodeLib}.

(** X19. The payload that is signed and hashed determines the five
    values: for an integer index and strings for the other four, two equal
    payload texts have the same index, timestamp, frameFile, frameHash and
    previousHash. *)
Theorem chainData_injective (i i' : Z) (t t' f f' h h' p p' : string) :
  ingest_chainData (JNum i) (JStr t) (JStr f) (JStr h) (JStr p)
  = ingest_chainData (JNum i') (JStr t') (JStr f') (JStr h') (JStr p') ->
  i = i' /\ t = t' /\ f = f' /\ h = h' /\ p = p'.
Proof.
  unfold ingest_chainData, stringify_object. cbn [JSON_stringify default].
  unfold json_members. cbn [String.concat].
  rewrite !string_app_assoc. rewrite !string_app_cons, !string_app_nil_l.
  intros H. apply string_cons_inj in H.
  apply (inj (String.append _)) in H. apply string_cons_inj in H.
  apply comma_split in H as [Hi H]; try apply pretty_Z_no_comma.
  apply (inj pretty) in Hi.
  apply (inj (String.append _)) in H. apply string_cons_inj in H.
  apply json_quote_prefix_free in H as [Ht H]. apply string_cons_inj in H.
  apply (inj (String.append _)) in H. apply string_cons_inj in H.
  apply json_quote_prefix_free in H as [Hf H]. apply string_cons_inj in H.
  apply (inj (String.append _)) in H. apply string_cons_inj in H.
  apply json_quote_prefix_free in H as [Hh H]. apply string_cons_inj in H.
  apply (inj (String.append _)) in H. apply string_cons_inj in H.
  apply json_quote_prefix_free in H as [Hp _].
  now repeat split.
Qed.

End PayloadDetermines.

(* ===================================================================== *)
(** ** The test script, run *)
(* ===================================================================== *)

Section TestScriptRun.
Context {node : NodeLib}.










End TestScriptRun.

(* ===================================================================== *)
(** ** Entries that are cut off, taken out, or ingested from elsewhere *)
(* ===================================================================== *)

Section ChainEdits.
Context {node : NodeLib}.

(** X21. Cutting entries off the end is not detected: when a chain of
    [n] entries verifies, so does the chain of its first [k] entries, for
    every [k] up to [n], with count [k]. *)
Theorem truncation_undetected (b : bool) (w : World) (n k : nat) :
  verifyChain b w = (inr (VerifyOk n), w) ->
  (k <= n)%nat ->
  let w' := set_chainFile (Some (JsonArray (take k (loaded_chain w)))) w in
  exists r, verifyChain b w' = (inr r, w') /\ success r = true /\ count r = k.
Proof.
  intros Hok Hk w'.
  destruct (verifyChain_ok_inv b w w n Hok)
    as (chain & pk & Hc & Hpk & Hlen & Hne & Hall).
  assert (Hl : loaded_chain w = chain) by (unfold loaded_chain; now rewrite Hc).
  assert (Hl' : loaded_chain w' = take k chain).
  { unfold w'. now rewrite Hl. }
  assert (Hlk : length (take k chain) = k) by (rewrite length_take; lia).
  destruct (verifyChain_valid b w' pk) as (r & Hv & Hs & Hn).
  - unfold w'. discriminate.
  - exact Hpk.
  - rewrite Hl', Hlk. intros j c Hj. cbn [w' files set_chainFile].
    rewrite <- (app_nil_r (take k chain)).
    rewrite run_check_prefix by lia.
    apply entry_outcome_pass. apply Hall. lia.
  - exists r. repeat split; try assumption. now rewrite Hn, Hl', Hlk.
Qed.

Lemma sequence_pass_index (frames : gmap string (list byte)) (pk : string)
    (chain : list JSValue) (i : nat) :
  run_check frames pk chain i SequenceCheck = Pass ->
  js_get (nth i chain JUndefined) "index" = inr (JNum (Z.of_nat i)).
Proof.
  unfold run_check, check_entry.
  destruct (js_get (nth i chain JUndefined) "index") as [e|v]; [discriminate|].
  intros H. apply pass_if_pass, strict_eq_eq in H. now subst.
Qed.

Lemma nth_without (chain : list JSValue) (i j : nat) :
  nth j (take i chain ++ drop (S i) chain) JUndefined
  = nth (if (j <? i)%nat then j else S j) chain JUndefined.
Proof.
  destruct (Nat.ltb_spec j i) as [Hj|Hj].
  - destruct (Nat.lt_ge_cases i (length chain)) as [Hi|Hi].
    + rewrite app_nth1 by (rewrite length_take; lia).
      rewrite <- (take_drop i chain) at 2.
      now rewrite app_nth1 by (rewrite length_take; lia).
    + rewrite take_ge, drop_ge, app_nil_r by lia. reflexivity.
  - destruct (Nat.lt_ge_cases i (length chain)) as [Hi|Hi].
    + rewrite app_nth2 by (rewrite length_take; lia).
      rewrite length_take, Nat.min_l by lia.
      rewrite !nth_lookup, lookup_drop. do 2 f_equal. lia.
    + rewrite take_ge, drop_ge, app_nil_r by lia.
      now rewrite !nth_overflow by lia.
Qed.

(** X22. Taking an entry out of the middle is detected: when a chain
    verifies and the entry at position [i] is removed from it, an entry
    following it, verification fails at index [i] with 'index mismatch',
    the count being one less. *)
Theorem removed_entry_detected (b : bool) (w : World) (n i : nat) :
  verifyChain b w = (inr (VerifyOk n), w) ->
  (S i < n)%nat ->
  let chain := loaded_chain w in
  let w' := set_chainFile (Some (JsonArray (take i chain ++ drop (S i) chain))) w in
  verifyChain b w' = (inr (VerifyFail i "index mismatch" (n - 1)), w').
Proof.
  intros Hok Hi chain0 w'.
  destruct (verifyChain_ok_inv b w w n Hok)
    as (chain & pk & Hc & Hpk & Hlen & Hne & Hall).
  assert (Hl : chain0 = chain) by (unfold chain0, loaded_chain; now rewrite Hc).
  unfold w'. rewrite Hl. clear w'.
  set (chain' := take i chain ++ drop (S i) chain).
  set (w' := set_chainFile (Some (JsonArray chain')) w).
  assert (Hpass : forall j c, (j < n)%nat -> run_check (files w) pk chain j c = Pass).
  { intros j c Hj. now apply entry_outcome_pass, Hall. }
  assert (Hlen' : length chain' = (n - 1)%nat).
  { unfold chain'. rewrite length_app, length_take, length_drop. lia. }
  rewrite <- Hlen'.
  apply (verifyChain_first_failure b w' chain' pk i [] 
           [LinkageCheck; ArtifactPresence; ArtifactHash; SignatureCheck;
            EntryHashCheck] SequenceCheck); try reflexivity; try assumption.
  - lia.
  - intros j c Hj. cbn [w' files set_chainFile].
    rewrite <- (Hpass j c) by lia.
    apply run_check_ext; unfold chain'; rewrite !nth_without.
    + assert ((j <? i)%nat = true) as -> by (apply Nat.ltb_lt; lia). reflexivity.
    + assert ((j - 1 <? i)%nat = true) as -> by (apply Nat.ltb_lt; lia). reflexivity.
  - intros c [].
  - cbn [w' files set_chainFile]. unfold run_check, check_entry.
    unfold chain'. rewrite nth_without, Nat.ltb_irrefl.
    rewrite (sequence_pass_index _ _ _ _ (Hpass (S i) SequenceCheck Hi)).
    unfold pass_if. rewrite strict_eq_other; [reflexivity|].
    intros [= H]. lia.
Qed.

(** X23. [ingestFrame] records the base name of the path it is given and
    nothing else of it. A frame ingested from a path whose base name names
    no file of [images] gives an entry that does not verify: on a valid
    store the call returns, and verification afterwards fails at the index
    of the new entry with 'frame file missing'. *)
Theorem ingest_outside_images (b : bool) (now p : string) (w : World) (pk sk : string)
    (d : list byte) :
  valid_store pk sk w ->
  (forall data, exists s, crypto_sign data sk = inr s) ->
  files w !! p = Some d ->
  files w !! path_join_images (path_basename p) = None ->
  exists e w',
    ingestFrame now p w = (inr e, w')
    /\ js_get e "frameFile" = inr (JStr (path_basename p))
    /\ verifyChain b w'
       = (inr (VerifyFail (length (loaded_chain w)) "frame file missing"
                 (S (length (loaded_chain w)))), w').
Proof.
  intros (Hpk & Hsk & Hc & Hb & Hpass) Hsign Hd Hmiss.
  destruct (head_hash_built _ Hb) as [ph Hph].
  set (chain := loaded_chain w) in *. set (n := length chain) in *.
  destruct (Hsign (Buffer_from_string
    (ingest_chainData (JNum (Z.of_nat n)) (JStr now) (JStr (path_basename p))
       (JStr (sha256_hex d)) (JStr ph)))) as (s & Hs).
  set (e := new_entry n now (path_basename p) d (JStr ph) s).
  assert (Hb' : Forall built_entry (chain ++ [e])).
  { apply Forall_app. split; [assumption|].
    constructor; [apply new_entry_built|constructor]. }
  pose proof (ingestFrame_run now p w d (JStr ph) sk s Hd Hph Hsk Hs) as Hrun.
  cbv zeta in Hrun. fold chain n e in Hrun.
  rewrite (built_chain_reload _ Hb') in Hrun.
  set (w' := set_chainFile (Some (JsonArray (chain ++ [e]))) w) in *.
  exists e, w'. split; [exact Hrun|]. split; [reflexivity|].
  assert (Hlen' : length (chain ++ [e]) = S n).
  { rewrite length_app. cbn [length]. fold n. lia. }
  assert (Hnth : nth n (chain ++ [e]) JUndefined = e) by apply nth_middle.
  rewrite <- Hlen'.
  apply (verifyChain_first_failure b w' (chain ++ [e]) pk n
           [SequenceCheck; LinkageCheck]
           [ArtifactHash; SignatureCheck; EntryHashCheck] ArtifactPresence);
    try reflexivity; try assumption; try lia.
  - intros j c Hj. cbn [w' files set_chainFile].
    rewrite <- (Hpass j c) by (fold chain; fold n; lia).
    fold chain. apply run_check_ext; rewrite !app_nth1; fold n; try lia; reflexivity.
  - intros c Hin. cbn [w' files set_chainFile].
    unfold run_check. rewrite Hnth.
    destruct Hin as [<-|[<-|[]]]; unfold check_entry.
    + change (js_get e "index") with (@inr exn _ (JNum (Z.of_nat n))).
      cbv beta iota. now rewrite strict_eq_num.
    + change (js_get e "previousHash") with (@inr exn _ (JStr ph)).
      unfold expected_previousHash.
      unfold head_hash in Hph. fold n in Hph.
      destruct n as [|m] eqn:En.
      * cbn in Hph. injection Hph as <-. cbv beta iota. now rewrite strict_eq_str.
      * cbn [Nat.ltb Nat.leb Nat.sub] in Hph. rewrite Nat.sub_0_r in Hph.
        rewrite app_nth1 by (unfold n in En; lia).
        rewrite Hph. cbv beta iota. now rewrite strict_eq_str.
  - cbn [w' files set_chainFile]. unfold run_check, check_entry.
    rewrite Hnth.
    change (js_get e "frameFile") with (@inr exn _ (JStr (path_basename p))).
    cbn [bindE path_join]. now rewrite Hmiss.
Qed.

End ChainEdits.

(* ===================================================================== *)
(** ** Concrete runs *)
(* ===================================================================== *)

Section ConcreteRuns.
#[local] Existing Instance Toy.toy.

Lemma strip_prefix_app (p s : string) : Toy.strip_prefix p (p +:+ s) = Some s.
Proof.
  induction p as [|c p IH]; [now destruct s|].
  rewrite string_app_cons. cbn [Toy.strip_prefix].
  now rewrite Ascii.eqb_refl.
Qed.

Lemma segments_no_slash (name cur : string) :
  Toy.no_slash name = true -> Toy.segments name cur = [cur +:+ name].
Proof.
  revert cur. induction name as [|c r IH]; intros cur H; cbn [Toy.segments].
  - now rewrite string_app_nil_r.
  - cbn [Toy.no_slash] in H. apply andb_prop in H as [Hc Hr].
    apply negb_true_iff in Hc. rewrite Hc, (IH _ Hr).
    now rewrite string_app_assoc.
Qed.

(** With POSIX paths, a frame directly in [images/] is the file that the
    verifier resolves from its base name. *)
Lemma posix_frame_in_images (name : string) :
  Toy.plain_name name ->
  Toy.posix_join_images (Toy.posix_basename (Toy.posix_join_images name))
  = Toy.posix_join_images name.
Proof.
  intros [Hne Hns]. unfold Toy.posix_basename. f_equal.
  change (Toy.segments (Toy.posix_join_images name) EmptyString)
    with ("images" :: Toy.segments name EmptyString).
  rewrite (segments_no_slash name EmptyString Hns), string_app_nil_l.
  rewrite filter_cons_True by discriminate.
  rewrite filter_cons_True by assumption.
  reflexivity.
Qed.

Lemma toy_keypair_ok (entropy : list byte) :
  keypair_ok (fst (Toy.toy_keygen entropy)) (snd (Toy.toy_keygen entropy)).
Proof.
  intros data.
  exists (Toy.toy_digest (list_byte_of_string (hex_encode entropy) ++ data)).
  change (Toy.toy_sign data ("PRIV-" +:+ hex_encode entropy)
          = inr (Toy.toy_digest (list_byte_of_string (hex_encode entropy) ++ data))
          /\ Toy.toy_verify data ("PUB-" +:+ hex_encode entropy)
               (Toy.toy_digest (list_byte_of_string (hex_encode entropy) ++ data))
             = inr true).
  unfold Toy.toy_sign, Toy.toy_verify, Toy.bytes_eqb.
  rewrite !strip_prefix_app. split; [reflexivity|].
  now rewrite bool_decide_eq_true_2.
Qed.

Example three_frames_verify :
  verifyChain true Toy.world3 = (inr (VerifyOk 3), Toy.world3).
Proof. vm_compute. reflexivity. Qed.

(** A run of C1: three frames in [images/], ingested in turn, verify with
    count 3. *)
Lemma ingest_then_verify_witness :
  exists w' r,
    ingestAll Toy.clock 0 ["images/a.jpg"; "images/b.jpg"; "images/c.jpg"] Toy.world0
    = (inr tt, w')
    /\ verifyChain true w' = (inr r, w')
    /\ success r = true
    /\ count r = length ["images/a.jpg"; "images/b.jpg"; "images/c.jpg"].
Proof.
  apply (ingest_then_verify true Toy.clock Toy.world0
           (fst Toy.keys0) (snd Toy.keys0)).
  - reflexivity.
  - reflexivity.
  - exact (toy_keypair_ok (Toy.bytes "k")).
  - left. reflexivity.
  - intros p [<-|[<-|[<-|[]]]]; eexists; split; vm_compute; reflexivity.
Defined.

(** A run of C2: in [world_corrupted] the first entry passes every check and
    the second passes sequence, linkage and artifact presence and fails the
    artifact hash; the third entry is never looked at. *)
Lemma verify_stops_at_first_failure_witness :
  verifyChain true Toy.world_corrupted
  = (inr (VerifyFail 1 "frame hash mismatch" (length (loaded_chain Toy.world_corrupted))),
     Toy.world_corrupted)
  /\ forall later : list JSValue,
       let w' := set_chainFile
                   (Some (JsonArray (take 2 (loaded_chain Toy.world_corrupted) ++ later)))
                   Toy.world_corrupted in
       verifyChain true w' = (inr (VerifyFail 1 "frame hash mismatch" (2 + length later)), w').
Proof.
  apply (verify_stops_at_first_failure true Toy.world_corrupted
           (loaded_chain Toy.world_corrupted) (fst Toy.keys0) 1
           [SequenceCheck; LinkageCheck; ArtifactPresence]
           [SignatureCheck; EntryHashCheck] ArtifactHash "frame hash mismatch").
  - reflexivity.
  - reflexivity.
  - vm_compute. lia.
  - intros j c Hj. assert (j = 0)%nat as -> by lia.
    destruct c; vm_compute; reflexivity.
  - reflexivity.
  - intros c [<-|[<-|[<-|[]]]]; vm_compute; reflexivity.
  - vm_compute. reflexivity.
Defined.

(** C4 as stated fails when an earlier entry references the same file: in
    [world_twice] both entries reference [images/a.jpg]; the chain
    verifies, and after one byte of that file is flipped the failure is
    reported at index 0, before the entry at index 1 that references it. *)
Lemma artifact_tamper_reported_earlier :
  verifyChain true Toy.world_twice = (inr (VerifyOk 2), Toy.world_twice)
  /\ artifact_path (nth 1 (loaded_chain Toy.world_twice) JUndefined)
     = Some "images/a.jpg"
  /\ fst (verifyChain true (tamper_frame "images/a.jpg" 0 Toy.world_twice))
     = inr (VerifyFail 0 "frame hash mismatch" 2)
  /\ (0 < 1)%nat.
Proof. repeat split; vm_compute; reflexivity. Qed.

(** A run of C4 as the code has it: the frame of the second entry of
    [world3] is referenced by no earlier entry. *)
Lemma artifact_tamper_detected_witness :
  verifyChain true (tamper_frame "images/b.jpg" 0 Toy.world3)
  = (inr (VerifyFail 1 "frame hash mismatch" 3),
     tamper_frame "images/b.jpg" 0 Toy.world3).
Proof.
  apply (artifact_tamper_detected true Toy.world3 3 1 0 "images/b.jpg"
           (Toy.bytes "BBBB")).
  - vm_compute. reflexivity.
  - lia.
  - vm_compute. reflexivity.
  - vm_compute. reflexivity.
  - vm_compute. lia.
  - intros _. vm_compute. discriminate.
  - intros j Hj. assert (j = 0)%nat as -> by lia. vm_compute. discriminate.
Defined.



(** The stop of verification for each property of the second entry of
    [world3] in turn. *)
Example stored_field_tamper_cases :
  let stop k v := fst (verifyChain true (corrupt_entry 1 k v Toy.world3)) in
  stop "index" (JNum 5) = inr (VerifyFail 1 "index mismatch" 3)
  /\ stop "previousHash" (JStr ZERO_HASH) = inr (VerifyFail 1 "hash mismatch" 3)
  /\ stop "frameFile" (JStr "nope.jpg") = inr (VerifyFail 1 "frame file missing" 3)
  /\ stop "frameFile" (JStr "c.jpg") = inr (VerifyFail 1 "frame hash mismatch" 3)
  /\ stop "frameHash" (JStr "00") = inr (VerifyFail 1 "frame hash mismatch" 3)
  /\ stop "timestamp" (JStr "2030-01-01T00:00:00.000Z")
     = inr (VerifyFail 1 "signature verification failed" 3)
  /\ stop "timestamp" (JNum 5) = inr (VerifyFail 1 "signature verification failed" 3)
  /\ stop "timestamp" JNull = inr (VerifyFail 1 "signature verification failed" 3)
  /\ stop "signature" (JStr "00") = inr (VerifyFail 1 "signature verification failed" 3)
  /\ stop "hash" (JStr "00") = inr (VerifyFail 1 "computed hash mismatch" 3).
Proof. cbv zeta. repeat split; vm_compute; reflexivity. Qed.

(** Why C5 asks for a frameFile that is a string and does not resolve to a
    directory: on a value that is not a string [path.join] throws, and the
    empty name resolves to the directory of the frames, which exists and
    cannot be read; in both cases [verifyChain] throws and returns no
    failure. *)
Example frameFile_not_a_file_name_throws :
  fst (verifyChain_in {[ "images/" ]} true
         (corrupt_entry 1 "frameFile" (JNum 5) Toy.world3))
  = inl TypeError
  /\ path_join_images EmptyString = "images/"
  /\ fst (verifyChain_in {[ "images/" ]} true
            (corrupt_entry 1 "frameFile" (JStr EmptyString) Toy.world3))
     = inl (SystemError "EISDIR").
Proof. repeat split; vm_compute; reflexivity. Qed.

(** Why C5 qualifies the signature: hexadecimal decoding stops at the first
    pair that is not hexadecimal, so a signature text with two more
    characters at its end decodes to the same bytes, and the chain still
    verifies. *)
Example signature_text_change_undetected :
  exists s,
    prop "signature" Toy.entry1_props = JStr s
    /\ fst (verifyChain true
              (corrupt_entry 1 "signature" (JStr (s +:+ "zz")) Toy.world3))
       = inr (VerifyOk 3).
Proof. eexists. split; vm_compute; reflexivity. Qed.


(** C7 as stated fails: [world0] holds the pair drawn from the entropy
    [k]; after [generateKeys] on other entropy both files hold the new
    pair. *)
Lemma generateKeys_replaces_existing_pair :
  privateKeyFile Toy.world0 = Some "PRIV-6b"
  /\ publicKeyFile Toy.world0 = Some "PUB-6b"
  /\ fst (generateKeys (Toy.bytes "z") Toy.world0) = inr tt
  /\ privateKeyFile (snd (generateKeys (Toy.bytes "z") Toy.world0)) = Some "PRIV-7a"
  /\ publicKeyFile (snd (generateKeys (Toy.bytes "z") Toy.world0)) = Some "PUB-7a".
Proof. repeat split; vm_compute; reflexivity. Qed.

(** A run of C8: [world3] without its public key does not verify, and the
    world is left as it was. *)
Lemma read_paths_never_generate_keys_witness :
  verifyChain true Toy.world_nopub
  = (inl (Error "Public key not found. Run generate_keys.js first."), Toy.world_nopub).
Proof.
  eapply (proj1 (proj2 (proj2 (proj2 (proj2 read_paths_never_generate_keys))))
            true Toy.world_nopub).
  - vm_compute. reflexivity.
  - reflexivity.
Defined.

(** A run of C9: the failing input. *)
Lemma ingest_restarts_on_unparseable_chain_witness :
  verifyChain true Toy.world_bad_chain
  = (inl (Error "Failed to load chain.json"), Toy.world_bad_chain)
  /\ exists e,
       ingestFrame (Toy.clock 0) "images/a.jpg" Toy.world_bad_chain
       = (inr e, set_chainFile (Some (JsonArray [e])) Toy.world_bad_chain)
       /\ js_get e "index" = inr (JNum 0).
Proof.
  destruct (ingest_restarts_on_unparseable_chain true (Toy.clock 0) "images/a.jpg"
              Toy.world_bad_chain (Toy.bytes "AAAA") (snd Toy.keys0)
              (Toy.toy_digest (list_byte_of_string "6b" ++ Buffer_from_string
                 (ingest_chainData (JNum 0) (JStr (Toy.clock 0)) (JStr "a.jpg")
                    (JStr (sha256_hex (Toy.bytes "AAAA"))) (JStr ZERO_HASH)))))
    as [Hv Hi].
  - reflexivity.
  - vm_compute. reflexivity.
  - reflexivity.
  - vm_compute. reflexivity.
  - split; [exact Hv|]. eexists. split; [exact Hi|reflexivity].
Defined.

(** A run of C10: no chain and no keys. *)
Lemma empty_chain_needs_no_key_witness :
  verifyChain true Toy.world_nokeys = (inr ChainEmpty, Toy.world_nokeys)
  /\ success ChainEmpty = true /\ count ChainEmpty = 0%nat.
Proof.
  apply (proj1 (empty_chain_needs_no_key true Toy.world_nokeys)).
  left. reflexivity.
Defined.

(** A run of X1: the three entries of [world3]. *)
Lemma verifyChain_ok_iff_witness :
  verifyChain_in {[ "images/" ]} true Toy.world3 = (inr (VerifyOk 3), Toy.world3)
  <-> exists pk,
        publicKeyFile Toy.world3 = Some pk
        /\ length (loaded_chain Toy.world3) = 3%nat /\ (0 < 3)%nat
        /\ forall i, (i < 3)%nat ->
             exists props f d sg,
               nth i (loaded_chain Toy.world3) JUndefined = JObj props
               /\ prop "index" props = JNum (Z.of_nat i)
               /\ expected_previousHash (loaded_chain Toy.world3) i
                  = inr (prop "previousHash" props)
               /\ prop "frameFile" props = JStr f
               /\ files Toy.world3 !! path_join_images f = Some d
               /\ prop "frameHash" props = JStr (sha256_hex d)
               /\ Buffer_from_hex (prop "signature" props) = inr sg
               /\ crypto_verify (Buffer_from_string (entry_payload props)) pk sg
                  = inr true
               /\ prop "hash" props
                  = JStr (sha256_hex (Buffer_from_string (entry_payload props))).
Proof.
  apply (verifyChain_ok_iff {[ "images/" ]} true Toy.world3 (loaded_chain Toy.world3) 3).
  vm_compute. reflexivity.
Defined.

(** A run of X2: [world_corrupted] fails at index 1 on the artifact hash. *)
Lemma verifyChain_fail_inv_witness :
  Toy.world_corrupted = Toy.world_corrupted
  /\ exists pk before c after,
       publicKeyFile Toy.world_corrupted = Some pk
       /\ 3%nat = length (loaded_chain Toy.world_corrupted) /\ (1 < 3)%nat
       /\ (forall j c', (j < 1)%nat ->
             run_check (files Toy.world_corrupted) pk
               (loaded_chain Toy.world_corrupted) j c' = Pass)
       /\ all_checks = before ++ c :: after
       /\ (forall c', In c' before ->
             run_check (files Toy.world_corrupted) pk
               (loaded_chain Toy.world_corrupted) 1 c' = Pass)
       /\ run_check (files Toy.world_corrupted) pk
            (loaded_chain Toy.world_corrupted) 1 c = Fail "frame hash mismatch"
       /\ In "frame hash mismatch" (check_reasons c).
Proof.
  apply (verifyChain_fail_inv {[ "images/" ]} true Toy.world_corrupted
           Toy.world_corrupted (loaded_chain Toy.world_corrupted) 1 3
           "frame hash mismatch").
  - vm_compute. reflexivity.
  - vm_compute. reflexivity.
Defined.

(** A run of X3: [world3] without its public key. *)
Lemma verifyChain_throws_witness :
  verifyChain_in {[ "images/" ]} true Toy.world_nopub
  = (inl (Error "Public key not found. Run generate_keys.js first."), Toy.world_nopub).
Proof.
  apply (proj1 (proj2 (proj2 (verifyChain_throws {[ "images/" ]} true Toy.world_nopub)))
           (loaded_chain Toy.world_nopub)).
  - vm_compute. reflexivity.
  - vm_compute. discriminate.
  - reflexivity.
Defined.


(** What X3 and X5 say of a directory: a stored frameFile that resolves to
    the directory of the frames, and that directory given to
    [ingestFrame]. *)
Example directory_instead_of_frame :
  fst (verifyChain_in {[ "images/" ]} true
         (corrupt_entry 0 "frameFile" (JStr EmptyString) Toy.world3))
  = inl (SystemError "EISDIR")
  /\ ingestFrame_in {[ "images/" ]} (Toy.clock 0) "images/" Toy.world0
     = (inl (SystemError "EISDIR"), Toy.world0).
Proof. split; vm_compute; reflexivity. Qed.

(** A run of X7: two frames ingested into the empty chain of [world0]. *)
Lemma ingestAll_appends_in_order_witness :
  exists w' added,
    ingestAll Toy.clock 0 ["images/a.jpg"; "images/b.jpg"] Toy.world0 = (inr tt, w')
    /\ files w' = files Toy.world0
    /\ loaded_chain w' = loaded_chain Toy.world0 ++ added
    /\ length added = length ["images/a.jpg"; "images/b.jpg"]
    /\ forall j p, ["images/a.jpg"; "images/b.jpg"] !! j = Some p ->
         exists props d,
           added !! j = Some (JObj props)
           /\ files Toy.world0 !! p = Some d
           /\ prop "index" props
              = JNum (Z.of_nat (length (loaded_chain Toy.world0) + j))
           /\ prop "timestamp" props = JStr (Toy.clock (0 + j)%nat)
           /\ prop "frameFile" props = JStr (path_basename p)
           /\ prop "frameHash" props = JStr (sha256_hex d)
           /\ expected_previousHash (loaded_chain w')
                (length (loaded_chain Toy.world0) + j)
              = inr (prop "previousHash" props).
Proof.
  apply (ingestAll_appends_in_order Toy.clock (snd Toy.keys0)
           ["images/a.jpg"; "images/b.jpg"]).
  - intros data. eexists. reflexivity.
  - reflexivity.
  - constructor.
  - intros p [<-|[<-|[]]]; vm_compute; reflexivity.
Defined.

(** A run of X8: no keys directory, no keys and no chain at the start. *)
Lemma generate_ingest_verify_witness :
  exists w' r,
    (run generateKeys (Toy.bytes "k")
     then ingestAll Toy.clock 0 ["images/a.jpg"; "images/b.jpg"]) Toy.world_nokeys
    = (inr tt, w')
    /\ verifyChain true w' = (inr r, w')
    /\ success r = true
    /\ count r = length ["images/a.jpg"; "images/b.jpg"].
Proof.
  apply (generate_ingest_verify true (Toy.bytes "k") Toy.clock Toy.world_nokeys).
  - exact (toy_keypair_ok (Toy.bytes "k")).
  - left. reflexivity.
  - intros p [<-|[<-|[]]]; eexists; split; vm_compute; reflexivity.
Defined.

(** A run of X9: a new pair drawn next to the chain of [world3]. *)
Lemma generateKeys_invalidates_chain_witness :
  exists w' reason,
    generateKeys (Toy.bytes "z") Toy.world3 = (inr tt, w')
    /\ In reason ["signature verification failed"; "signature verification error"]
    /\ verifyChain true w' = (inr (VerifyFail 0 reason 3), w').
Proof.
  apply (generateKeys_invalidates_chain true (Toy.bytes "z") Toy.world3 3).
  - vm_compute. reflexivity.
  - intros props sg H1 H2. vm_compute in H1. injection H1 as <-.
    vm_compute in H2. injection H2 as <-. vm_compute. discriminate.
Defined.

(** A run of X11: a file that no entry references is deleted. *)
Lemma verifyChain_reads_referenced_frames_witness :
  fst (verifyChain true ToyServer.world3_cleaned) = fst (verifyChain true Toy.world3).
Proof.
  apply (verifyChain_reads_referenced_frames true Toy.world3 ToyServer.world3_cleaned).
  - reflexivity.
  - reflexivity.
  - intros i q Hi Hq.
    destruct i as [|[|[|i]]]; try (vm_compute in Hi; lia);
      vm_compute in Hq; injection Hq as <-; vm_compute; reflexivity.
Defined.

(** A run of X12: the frame of the second entry of [world3] is deleted, or
    overwritten. *)
Lemma frame_loss_detected_witness :
  (let w' := set_files (delete "images/b.jpg" (files Toy.world3)) Toy.world3 in
   verifyChain true w' = (inr (VerifyFail 1 "frame file missing" 3), w'))
  /\ (forall d d', files Toy.world3 !! "images/b.jpg" = Some d ->
        sha256 d' <> sha256 d ->
        let w' := set_files (<["images/b.jpg" := d']> (files Toy.world3)) Toy.world3 in
        verifyChain true w' = (inr (VerifyFail 1 "frame hash mismatch" 3), w')).
Proof.
  apply (frame_loss_detected true Toy.world3 3 1 "images/b.jpg").
  - vm_compute. reflexivity.
  - lia.
  - vm_compute. reflexivity.
  - intros j Hj. assert (j = 0)%nat as -> by lia. vm_compute. discriminate.
Defined.

(** A run of X16: the first turn of the capture loop. *)
Lemma processFrame_keeps_store_valid_witness :
  exists entry hash s',
    processFrame (Toy.clock 0) (ToyServer.tick 0) "images/latest.jpg" ToyServer.cam0
    = (inr tt, s')
    /\ valid_store (fst Toy.keys0) (snd Toy.keys0) (disk s')
    /\ files (disk s')
       = <[path_join_images (frame_name (Toy.clock 0)) := Toy.bytes "LLLL"]>
           (files (disk ToyServer.cam0))
    /\ loaded_chain (disk s') = loaded_chain (disk ToyServer.cam0) ++ [entry]
    /\ js_get entry "hash" = inr hash
    /\ sent s'
       = sent ToyServer.cam0
         ++ [chain_head (JNum (Z.of_nat (length (loaded_chain (disk ToyServer.cam0)))))
               (frame_name (Toy.clock 0)) hash (JStr (ToyServer.tick 0));
             verify_ok (S (length (loaded_chain (disk ToyServer.cam0))))].
Proof.
  apply (processFrame_keeps_store_valid (Toy.clock 0) (ToyServer.tick 0)
           "images/latest.jpg" ToyServer.cam0 (fst Toy.keys0) (snd Toy.keys0)
           (Toy.bytes "LLLL")).
  - exact (toy_keypair_ok (Toy.bytes "k")).
  - split; [reflexivity|]. split; [reflexivity|]. split; [discriminate|].
    split; [constructor|]. intros j c Hj. vm_compute in Hj. lia.
  - vm_compute. reflexivity.
  - vm_compute. reflexivity.
  - vm_compute. reflexivity.
Defined.

(** A run of X18: the turn of the capture loop after [POST /tamper]. *)
Lemma processFrame_on_broken_chain_witness :
  exists s',
    processFrame (Toy.clock 2) (ToyServer.tick 2) "images/latest.jpg"
      ToyServer.cam2_tampered = (inr tt, s')
    /\ length (loaded_chain (disk s')) = 3%nat
    /\ sent s'
       = sent ToyServer.cam2_tampered
         ++ [chain_head (JNum 2) "frame_2024-01-01T00-00-02-000Z.jpg"
               (JStr "3f5931b3") (JStr "2024-01-01T00:00:02.500Z");
             verify_fail 1 "frame hash mismatch" 3].
Proof.
  destruct (processFrame_on_broken_chain (Toy.clock 2) (ToyServer.tick 2)
              "images/latest.jpg" ToyServer.cam2_tampered 1 2 "frame hash mismatch"
              (Toy.bytes "LLLL") (JStr "2ecb2f45") (snd Toy.keys0)
              (hex_decode "b5ea44df")) as (s' & Hrun & Hchain & Hsent).
  - vm_compute. reflexivity.
  - vm_compute. reflexivity.
  - vm_compute. reflexivity.
  - vm_compute. reflexivity.
  - intros j Hj. destruct j as [|[|j]]; try lia; vm_compute; discriminate.
  - vm_compute. reflexivity.
  - reflexivity.
  - vm_compute. reflexivity.
  - exists s'. split; [exact Hrun|]. split.
    + rewrite Hchain. rewrite length_app. vm_compute. reflexivity.
    + rewrite Hsent. vm_compute. reflexivity.
Defined.

(** A run of X19. *)
Lemma chainData_injective_witness :
  (0 = 0)%Z /\ "t" = "t" /\ "a.jpg" = "a.jpg" /\ "00" = "00" /\ ZERO_HASH = ZERO_HASH.
Proof.
  apply (chainData_injective 0 0 "t" "t" "a.jpg" "a.jpg" "00" "00" ZERO_HASH ZERO_HASH).
  reflexivity.
Defined.

(** The demonstration end to end: two frames captured, the second one
    tampered with through [POST /tamper], and the next turn of the loop
    reports the failure at index 1 while it appends entry 2. *)
Example capture_tamper_capture :
  sent ToyServer.cam2
  = [chain_head (JNum 0) "frame_2024-01-01T00-00-00-000Z.jpg" (JStr "711474aa")
       (JStr "2024-01-01T00:00:00.500Z");
     verify_ok 1;
     chain_head (JNum 1) "frame_2024-01-01T00-00-01-000Z.jpg" (JStr "2ecb2f45")
       (JStr "2024-01-01T00:00:01.500Z");
     verify_ok 2]
  /\ fst (tamper_route ToyServer.listing2 1 ToyServer.cam2) = inr 200%Z
  /\ fst (tamper_route ["a.jpg"; "latest.jpg"] 0 ToyServer.cam2) = inr 500%Z
  /\ fst (verifyChain true (disk ToyServer.cam2_tampered))
     = inr (VerifyFail 1 "frame hash mismatch" 2)
  /\ fst (verify_main ["node"; "verify.js"; "--json"] (disk ToyServer.cam2_tampered))
     = inr 0%Z
  /\ fst (verify_main ["node"; "verify.js"] Toy.world_bad_chain) = inr 1%Z
  /\ fst (ingest_main (Toy.clock 0) ["node"; "ingest.js"] Toy.world0) = inr 1%Z
  /\ fst (ingest_main (Toy.clock 0) ["node"; "ingest.js"; "images/a.jpg"] Toy.world0)
     = inr 0%Z
  /\ fst (tamperRandomFrame (Some ToyServer.listing2) 0 1 (disk ToyServer.cam2)) = inr 0%Z
  /\ fst (tamperRandomFrame None 0 1 (disk ToyServer.cam2)) = inr 1%Z.
Proof. repeat split; vm_compute; reflexivity. Qed.


(** The chain of [world3] is a valid store. *)
Lemma world3_valid_store : valid_store (fst Toy.keys0) (snd Toy.keys0) Toy.world3.
Proof.
  split; [reflexivity|]. split; [reflexivity|]. split; [discriminate|]. split.
  - unfold loaded_chain, Toy.world3. cbn [chainFile].
    repeat (apply List.Forall_cons; [unfold built_entry; repeat eexists|]).
    apply List.Forall_nil.
  - intros j c Hj.
    destruct j as [|[|[|j]]]; try (vm_compute in Hj; lia);
      destruct c; vm_compute; reflexivity.
Qed.

(** A run of X21: the last entry of [world3] is cut off. *)
Lemma truncation_undetected_witness :
  let w' := set_chainFile (Some (JsonArray (take 2 (loaded_chain Toy.world3)))) Toy.world3 in
  exists r, verifyChain true w' = (inr r, w') /\ success r = true /\ count r = 2%nat.
Proof.
  apply (truncation_undetected true Toy.world3 3 2).
  - vm_compute. reflexivity.
  - lia.
Defined.

(** A run of X22: the second entry of [world3] is taken out. *)
Lemma removed_entry_detected_witness :
  let chain := loaded_chain Toy.world3 in
  let w' := set_chainFile (Some (JsonArray (take 1 chain ++ drop 2 chain))) Toy.world3 in
  verifyChain true w' = (inr (VerifyFail 1 "index mismatch" (3 - 1)), w').
Proof.
  apply (removed_entry_detected true Toy.world3 3 1).
  - vm_compute. reflexivity.
  - lia.
Defined.

(** A run of X23: a frame ingested from [/tmp]. *)
Lemma ingest_outside_images_witness :
  exists e w',
    ingestFrame (Toy.clock 3) "/tmp/x.jpg" Toy.world3 = (inr e, w')
    /\ js_get e "frameFile" = inr (JStr (path_basename "/tmp/x.jpg"))
    /\ verifyChain true w'
       = (inr (VerifyFail (length (loaded_chain Toy.world3)) "frame file missing"
                 (S (length (loaded_chain Toy.world3)))), w').
Proof.
  apply (ingest_outside_images true (Toy.clock 3) "/tmp/x.jpg" Toy.world3
           (fst Toy.keys0) (snd Toy.keys0) (Toy.bytes "XXXX")).
  - exact world3_valid_store.
  - intros data. eexists. reflexivity.
  - vm_compute. reflexivity.
  - vm_compute. reflexivity.
Defined.

(** C1 as stated fails for a frame that lies outside [images/]: the file
    [/tmp/x.jpg] is there, the key pair is sound, the frame is ingested and
    left as it was, and verification fails at index 0 with 'frame file
    missing', because the entry keeps the base name only and the verifier
    looks for [images/x.jpg]. *)
Lemma frame_outside_images_not_verified :
  files Toy.world0 !! "/tmp/x.jpg" = Some (Toy.bytes "XXXX")
  /\ keypair_ok (fst Toy.keys0) (snd Toy.keys0)
  /\ chainFile Toy.world0 = None
  /\ fst (ingestAll Toy.clock 0 ["/tmp/x.jpg"] Toy.world0) = inr tt
  /\ files (snd (ingestAll Toy.clock 0 ["/tmp/x.jpg"] Toy.world0)) !! "/tmp/x.jpg"
     = Some (Toy.bytes "XXXX")
  /\ fst (verifyChain true (snd (ingestAll Toy.clock 0 ["/tmp/x.jpg"] Toy.world0)))
     = inr (VerifyFail 0 "frame file missing" 1).
Proof.
  split; [vm_compute; reflexivity|].
  split; [exact (toy_keypair_ok (Toy.bytes "k"))|].
  repeat split; vm_compute; reflexivity.
Qed.


(** C10 as stated fails on a chain file that holds [{}]: the chain has no
    entry and no length, the public key file is absent, and verification
    throws the error of the missing key. *)
Lemma chain_without_length_needs_key :
  parsed (JObj []) = Some ParsedNoLength
  /\ chain_length ParsedNoLength = inr JUndefined
  /\ publicKeyFile Toy.world_nokeys = None
  /\ verifyChain_on true ParsedNoLength Toy.world_nokeys
     = (inl (Error "Public key not found. Run generate_keys.js first."),
        Toy.world_nokeys).
Proof. repeat split. Qed.

End ConcreteRuns.
